(** * A shallow embedding of the Databricks demo Dash application

    The development follows the layout of the repository:

    - [Py]           the Python built-ins the code relies on (text methods,
                     truthiness, exceptions, a state and exception monad);
    - [LruCache]     [functools.lru_cache(maxsize=1)], the only caching
                     mechanism of the application, sequential and interleaved;
    - [SqlClient]    [utils/sql_client.py];
    - [Components]   [utils/components.py] and the component tree of Dash;
    - [Dash]         callback outputs, [no_update] and the callback context;
    - [Catalog], [SqlExplorer], [Identity], [Sales], [Taxi]
                     the callbacks of [pages/*.py];
    - [Scenarios]    concrete collaborators and pages used in the examples;
    - [PyFacts]      what [strip] and [rstrip] remove;
    - [LruCacheFacts], [SqlClientFacts], [SqlExplorerFacts], [IdentityFacts],
      [CatalogFacts], [ViewFacts], [SelectionFacts]
                     the properties of the caches, of the row cap, of the
                     identity view, of the catalog callbacks, of the error
                     rendering and of the chained selection;
    - [WarehouseFacts], [DiscoveryFacts]
                     queries over time and the outcomes of discovery;
    - [TextFacts], [ExplorerFacts]
                     the statement, the starter queries and the chart of the
                     SQL explorer;
    - [NavigationFacts], [BrowsingFacts], [AccessFacts], [TabFacts]
                     the navigation bar, sessions on the catalog page, the
                     delegated lookups and the raw headers, the sales and
                     taxi tabs.

    Remote collaborators and libraries (the workspace client, the warehouse,
    the request headers, pandas and plotly) are inputs of the model: a record
    describes what each call answers at the time of the call, either a value
    or a raised exception. Text is a [string] of UTF-8 bytes; [strip] removes
    the encodings of the white space of Unicode, [lower] acts on the ASCII
    range. *)

From Stdlib Require Import List String Ascii Bool Arith ZArith Lia.
From Stdlib Require Import DecimalString.
From Stdlib Require Import Sorted.
Set Warnings "-register-all".
Import ListNotations.
Open Scope string_scope.
Open Scope list_scope.

(* ================================================================== *)
(** * Python built-ins *)
(* ================================================================== *)

Module Py.

(** ** Exceptions

    [except Exception] catches every class below; [except RuntimeError]
    only the first one. [exn_msg] is [str(e)]. *)
Inductive exn_class : Type :=
| RuntimeError
| TypeError
| IndexError
| OtherError.

Record exn : Type := mkExn { exn_cls : exn_class; exn_msg : string }.

Inductive result (A : Type) : Type :=
| Ok (a : A)
| Raise (e : exn).
Arguments Ok {A} a.
Arguments Raise {A} e.

Definition is_RuntimeError (e : exn) : bool :=
  match exn_cls e with RuntimeError => true | _ => false end.

(** ** Text *)

(** A [str] is modelled by its UTF-8 bytes. [whitespace] lists the
    encodings of the characters that [str.isspace] accepts, which are the
    ones that [str.strip()] removes: U+0009 to U+000D, U+001C to U+0020,
    U+0085, U+00A0, U+1680, U+2000 to U+200A, U+2028, U+2029, U+202F, U+205F
    and U+3000. *)
Definition whitespace : list string :=
  [ String "009" ""; String "010" ""; String "011" ""; String "012" "";
    String "013" ""; String "028" ""; String "029" ""; String "030" "";
    String "031" ""; String "032" "";
    String "194" (String "133" "");
    String "194" (String "160" "");
    String "225" (String "154" (String "128" ""));
    String "226" (String "128" (String "128" ""));
    String "226" (String "128" (String "129" ""));
    String "226" (String "128" (String "130" ""));
    String "226" (String "128" (String "131" ""));
    String "226" (String "128" (String "132" ""));
    String "226" (String "128" (String "133" ""));
    String "226" (String "128" (String "134" ""));
    String "226" (String "128" (String "135" ""));
    String "226" (String "128" (String "136" ""));
    String "226" (String "128" (String "137" ""));
    String "226" (String "128" (String "138" ""));
    String "226" (String "128" (String "168" ""));
    String "226" (String "128" (String "169" ""));
    String "226" (String "128" (String "175" ""));
    String "226" (String "129" (String "159" ""));
    String "227" (String "128" (String "128" "")) ].

(** Is the text one white-space character? *)
Definition is_whitespace (s : string) : bool :=
  existsb (String.eqb s) whitespace.

(** [s.lstrip()]: a white-space character takes one, two or three bytes. *)
Fixpoint lstrip_ws (s : string) : string :=
  match s with
  | String c1 s1 =>
      if is_whitespace (String c1 "") then lstrip_ws s1
      else
        match s1 with
        | String c2 s2 =>
            if is_whitespace (String c1 (String c2 "")) then lstrip_ws s2
            else
              match s2 with
              | String c3 s3 =>
                  if is_whitespace (String c1 (String c2 (String c3 "")))
                  then lstrip_ws s3
                  else s
              | EmptyString => s
              end
        | EmptyString => s
        end
  | EmptyString => s
  end.

(** [s.rstrip()]: what is kept of the tail, with the byte in front, is
    dropped when it is one white-space character. *)
Fixpoint rstrip_ws (s : string) : string :=
  match s with
  | EmptyString => EmptyString
  | String c s' =>
      let r := String c (rstrip_ws s') in
      if is_whitespace r then EmptyString else r
  end.

(** [s.strip()] *)
Definition strip (s : string) : string := rstrip_ws (lstrip_ws s).

(** A text made of white-space characters only (the empty text included),
    and texts that start or end with a white-space character. *)
Inductive spaces : string -> Prop :=
| spaces_nil : spaces ""
| spaces_cons (sp s : string) :
    In sp whitespace -> spaces s -> spaces (sp ++ s).

Definition starts_with_space (s : string) : Prop :=
  exists sp rest, In sp whitespace /\ s = (sp ++ rest)%string.

Definition ends_with_space (s : string) : Prop :=
  exists front sp, In sp whitespace /\ s = (front ++ sp)%string.

(** [s.rstrip(chars)] for a set [chars] of ASCII characters. *)
Fixpoint rstrip_by (p : ascii -> bool) (s : string) : string :=
  match s with
  | EmptyString => EmptyString
  | String c s' =>
      match rstrip_by p s' with
      | EmptyString => if p c then EmptyString else String c EmptyString
      | r => String c r
      end
  end.

Fixpoint mem_ascii (c : ascii) (chars : string) : bool :=
  match chars with
  | EmptyString => false
  | String d chars' => Ascii.eqb c d || mem_ascii c chars'
  end.

(** [s.rstrip(chars)] *)
Definition rstrip (chars : string) (s : string) : string :=
  rstrip_by (fun c => mem_ascii c chars) s.

Definition lower_ascii (c : ascii) : ascii :=
  let n := nat_of_ascii c in
  if (65 <=? n)%nat && (n <=? 90)%nat then ascii_of_nat (n + 32) else c.

(** [s.lower()] on the letters [A-Z]; other bytes are left as they are.
    The code only looks in the result for the words limit, token and
    secret, which no lowered character outside ASCII completes in a query
    or in the name of a request header. *)
Fixpoint lower (s : string) : string :=
  match s with
  | EmptyString => EmptyString
  | String c s' => String (lower_ascii c) (lower s')
  end.

(** [needle in hay] *)
Fixpoint contains (needle hay : string) : bool :=
  String.prefix needle hay ||
  match hay with
  | EmptyString => false
  | String _ hay' => contains needle hay'
  end.

(** [sep.join(parts)] *)
Fixpoint join (sep : string) (parts : list string) : string :=
  match parts with
  | [] => ""
  | [p] => p
  | p :: rest => p ++ sep ++ join sep rest
  end.

(** [str(n)] and [f"{n}"] for an [int]. *)
Definition str_of_Z (z : Z) : string := NilZero.string_of_int (Z.to_int z).

(** ** Truthiness *)

Definition truthy_str (s : string) : bool :=
  match s with EmptyString => false | _ => true end.

(** An attribute that is [None] or a string. *)
Definition truthy_opt_str (o : option string) : bool :=
  match o with Some s => truthy_str s | None => false end.

Definition truthy_Z (z : Z) : bool := negb (Z.eqb z 0).

(** [x or d] *)
Definition or_str (x : option string) (d : string) : string :=
  if truthy_opt_str x then match x with Some s => s | None => d end else d.

(** [f"{x}"] where [x] is [None] or a string. *)
Definition fmt_opt_str (x : option string) : string :=
  match x with Some s => s | None => "None" end.

(** ** State and exceptions

    A computation reads and writes the process state [S] and either returns
    or raises; the state survives a raise. *)
Definition M (S A : Type) : Type := S -> result A * S.

Definition ret {S A} (a : A) : M S A := fun s => (Ok a, s).

Definition raise {S A} (e : exn) : M S A := fun s => (Raise e, s).

Definition bind {S A B} (m : M S A) (k : A -> M S B) : M S B :=
  fun s =>
    match m s with
    | (Ok a, s') => k a s'
    | (Raise e, s') => (Raise e, s')
    end.

(** A remote call or library call: no effect on the process state. *)
Definition lift {S A} (r : result A) : M S A := fun s => (r, s).

(** [l[i]] *)
Definition item {S} (l : list Z) (i : nat) : M S Z :=
  match nth_error l i with
  | Some z => ret z
  | None => raise (mkExn IndexError "list index out of range")
  end.

(** Calls made one after the other on the same process; a call that raises
    does not stop the next one (each is a separate request). *)
Fixpoint sequence {S A} (ms : list (M S A)) (s : S) : list (result A) * S :=
  match ms with
  | [] => ([], s)
  | m :: ms' =>
      let (r, s') := m s in
      let (rs, s'') := sequence ms' s' in
      (r :: rs, s'')
  end.

(** [try: body  except Exception as e: handler(e)] *)
Definition try_except {S A} (body : M S A) (handler : exn -> M S A) : M S A :=
  fun s =>
    match body s with
    | (Ok a, s') => (Ok a, s')
    | (Raise e, s') => handler e s'
    end.

(** [try: body  except RuntimeError: handler] *)
Definition try_except_RuntimeError {S A}
  (body : M S A) (handler : M S A) : M S A :=
  fun s =>
    match body s with
    | (Ok a, s') => (Ok a, s')
    | (Raise e, s') => if is_RuntimeError e then handler s' else (Raise e, s')
    end.

(** The last character of a text, if any. *)
Fixpoint last_char (s : string) : option ascii :=
  match s with
  | EmptyString => None
  | String c EmptyString => Some c
  | String _ s' => last_char s'
  end.

(** Do all the characters of a text satisfy [p]? *)
Fixpoint all_chars (p : ascii -> bool) (s : string) : bool :=
  match s with
  | EmptyString => true
  | String c s' => p c && all_chars p s'
  end.

(** A text without its thousands separators. *)
Fixpoint without_commas (s : string) : string :=
  match s with
  | EmptyString => EmptyString
  | String c s' =>
      if Ascii.eqb c ","%char then without_commas s'
      else String c (without_commas s')
  end.

(** The characters of a decimal numeral. *)
Definition numeral_char (c : ascii) : bool := mem_ascii c "-0123456789".

(** The line feed of a string literal. *)
Definition nl : string := String "010" "".


End Py.

Import Py.

Declare Scope py_scope.
Delimit Scope py_scope with py.
Notation "x <- m ;; k" := (bind m (fun x => k))
  (at level 61, m at next level, right associativity) : py_scope.
Open Scope py_scope.

(* ================================================================== *)
(** * functools.lru_cache(maxsize=1) *)
(* ================================================================== *)

Module LruCache.

Section Cache.

Context {K V : Type}.
Variable eqb : K -> K -> bool.

(** The cache of one decorated function: at most one entry, and the
    counters reported by [cache_info()]. [misses] counts the calls that went
    on to run the wrapped function. *)
Record t : Type := mk
  { slot : option (K * V);
    hits : nat;
    misses : nat }.

Definition empty : t := {| slot := None; hits := 0; misses := 0 |}.

Definition lookup (k : K) (c : t) : option V :=
  match slot c with
  | Some (k', v) => if eqb k k' then Some v else None
  | None => None
  end.

(** First locked region of the wrapper: look the key up and count. *)
Definition enter (k : K) (c : t) : option V * t :=
  match lookup k c with
  | Some v => (Some v, {| slot := slot c; hits := S (hits c); misses := misses c |})
  | None => (None, {| slot := slot c; hits := hits c; misses := S (misses c) |})
  end.

(** Second locked region, after the wrapped function returned [v]: if the
    key was added while the lock was released the entry is left alone,
    otherwise the single slot is overwritten (the oldest entry is evicted). *)
Definition store (k : K) (v : V) (c : t) : t :=
  match lookup k c with
  | Some _ => c
  | None => {| slot := Some (k, v); hits := hits c; misses := misses c |}
  end.

(** The part of a call that follows a miss: run the wrapped function; a
    raised exception leaves the cache as it is, a result is stored and it is
    the computed result that is returned. *)
Definition leave (f : K -> result V) (k : K) (c : t) : result V * t :=
  match f k with
  | Ok v => (Ok v, store k v c)
  | Raise e => (Raise e, c)
  end.

(** A whole call of the decorated function, run without interruption. *)
Definition call (f : K -> result V) (k : K) : M t V :=
  fun c =>
    match enter k c with
    | (Some v, c') => (Ok v, c')
    | (None, c') => leave f k c'
    end.

(** ** Interleaved calls

    The lock of the wrapper is released while the wrapped function runs, so
    calls of several threads interleave at that point. A thread is about to
    call, is running the wrapped function after a miss, or has returned. *)
Inductive thread : Type :=
| Calling (k : K)
| Running (k : K)
| Returned (r : result V).

Definition step_thread (f : K -> result V) (th : thread) (c : t)
  : thread * t :=
  match th with
  | Calling k =>
      match enter k c with
      | (Some v, c') => (Returned (Ok v), c')
      | (None, c') => (Running k, c')
      end
  | Running k =>
      let (r, c') := leave f k c in (Returned r, c')
  | Returned r => (Returned r, c)
  end.

Fixpoint step_pool (f : K -> result V) (i : nat) (pool : list thread) (c : t)
  : list thread * t :=
  match pool, i with
  | [], _ => ([], c)
  | th :: rest, O =>
      let (th', c') := step_thread f th c in (th' :: rest, c')
  | th :: rest, S j =>
      let (rest', c') := step_pool f j rest c in (th :: rest', c')
  end.

(** A schedule names, step by step, the thread that moves and what the
    wrapped function would answer at that moment. *)
Fixpoint run (sched : list (nat * (K -> result V)))
  (pool : list thread) (c : t) : list thread * t :=
  match sched with
  | [] => (pool, c)
  | (i, f) :: sched' =>
      let (pool', c') := step_pool f i pool c in run sched' pool' c'
  end.

(** All the threads of a pool call with the key [k]. *)
Definition on_key (k : K) (th : thread) : Prop :=
  match th with
  | Calling k' => k' = k
  | Running k' => k' = k
  | Returned _ => True
  end.

(** The threads that have not looked the key up yet, or that were handed
    the value [v]. *)
Definition served (k : K) (v : V) (th : thread) : Prop :=
  th = Calling k \/ th = Returned (Ok v).

Definition stays_served (k : K) (v : V) (th th' : thread) : Prop :=
  served k v th -> served k v th'.

End Cache.

Arguments t : clear implicits.

End LruCache.

(* ================================================================== *)
(** * utils/sql_client.py *)
(* ================================================================== *)

Module SqlClient.

(** An entry of [w.warehouses.list()]. *)
Record Warehouse : Type := mkWarehouse
  { id : option string;
    enable_serverless_compute : option bool;
    state : option string  (* [state.value] when [state] is set *) }.

(** Column types of a [pandas.DataFrame]. *)
Inductive dtype : Type :=
| int64
| float64
| bool_
| object_
| datetime64.

Record DataFrame : Type := mkDataFrame
  { columns : list (string * dtype);
    nrows : nat }.

(** A connection object returned by [sql.connect]. *)
Definition Connection : Type := nat.

(** What the collaborators answer at the time of a call. *)
Record World : Type := mkWorld
  { WorkspaceClient : result unit;
    getenv_DATABRICKS_WAREHOUSE_ID : option string;
    warehouses_list : result (list Warehouse);
    Config_host : result string;
    sql_connect : string -> string -> result Connection;
    cursor_execute : Connection -> string -> result DataFrame }.

(** The two module-level caches. *)
Record Proc : Type := mkProc
  { wh_cache : LruCache.t unit (option string);
    conn_cache : LruCache.t string Connection }.

Definition init : Proc :=
  {| wh_cache := LruCache.empty; conn_cache := LruCache.empty |}.

Definition unit_eqb (_ _ : unit) : bool := true.

Definition http_path_of (wid : option string) : string :=
  "/sql/1.0/warehouses/" ++ fmt_opt_str wid.

Definition is_serverless (wh : Warehouse) : bool :=
  match enable_serverless_compute wh with Some true => true | _ => false end.

Definition is_running (wh : Warehouse) : bool :=
  match state wh with Some v => String.eqb v "RUNNING" | None => false end.

(** The body of [get_warehouse_http_path], as reached through
    [__wrapped__]. *)
Definition get_warehouse_http_path_wrapped (w : World) (_ : unit)
  : result (option string) :=
  let body : M unit (option string) :=
    try_except
      (_ <- lift (WorkspaceClient w) ;;
       let warehouse_id := getenv_DATABRICKS_WAREHOUSE_ID w in
       if truthy_opt_str warehouse_id then
         ret (Some (http_path_of warehouse_id))
       else
         warehouses <- lift (warehouses_list w) ;;
         let serverless := filter is_serverless warehouses in
         match serverless with
         | wh :: _ => ret (Some (http_path_of (id wh)))
         | [] =>
             let running := filter is_running warehouses in
             match running with
             | wh :: _ => ret (Some (http_path_of (id wh)))
             | [] =>
                 match warehouses with
                 | wh :: _ => ret (Some (http_path_of (id wh)))
                 | [] => ret None
                 end
             end
         end)
      (fun _ => ret None)
  in fst (body tt).

(** The body of [get_connection]. *)
Definition get_connection_wrapped (w : World) (http_path : string)
  : result Connection :=
  let body : M unit Connection :=
    host <- lift (Config_host w) ;;
    lift (sql_connect w host http_path)
  in fst (body tt).

Definition on_wh_cache {A} (m : M (LruCache.t unit (option string)) A)
  : M Proc A :=
  fun p =>
    let (r, c) := m (wh_cache p) in
    (r, {| wh_cache := c; conn_cache := conn_cache p |}).

Definition on_conn_cache {A} (m : M (LruCache.t string Connection) A)
  : M Proc A :=
  fun p =>
    let (r, c) := m (conn_cache p) in
    (r, {| wh_cache := wh_cache p; conn_cache := c |}).

Definition get_warehouse_http_path (w : World) : M Proc (option string) :=
  on_wh_cache (LruCache.call unit_eqb (get_warehouse_http_path_wrapped w) tt).

Definition get_connection (w : World) (http_path : string)
  : M Proc Connection :=
  on_conn_cache
    (LruCache.call String.eqb (get_connection_wrapped w) http_path).

Definition run_query (w : World) (query : string) : M Proc DataFrame :=
  http_path <- get_warehouse_http_path w ;;
  if negb (truthy_opt_str http_path) then
    raise (mkExn RuntimeError "No SQL warehouse available.")
  else
    conn <- get_connection w (fmt_opt_str http_path) ;;
    lift (cursor_execute w conn query).

(** The number of calls that a cache has seen, as [cache_info()] tells. *)
Definition calls_of {K V : Type} (c : LruCache.t K V) : nat :=
  LruCache.hits c + LruCache.misses c.

(** The module state is coherent when a stored connection was opened for
    the stored warehouse path. *)
Definition coherent (p : Proc) : Prop :=
  forall k c,
    LruCache.slot (conn_cache p) = Some (k, c) ->
    LruCache.slot (wh_cache p) = Some (tt, Some k).

(** A failure met during discovery: the client cannot be built, or the
    listing is consulted and fails. *)
Definition discovery_fails (w : World) : Prop :=
  (exists e, WorkspaceClient w = Raise e) \/
  (WorkspaceClient w = Ok tt /\
   truthy_opt_str (getenv_DATABRICKS_WAREHOUSE_ID w) = false /\
   exists e, warehouses_list w = Raise e).

End SqlClient.

(* ================================================================== *)
(** * utils/components.py and the component tree *)
(* ================================================================== *)

Module Components.

Import SqlClient.

(** Property values of a Dash component. *)
Inductive attr : Type :=
| AStr (s : string)
| ABool (b : bool)
| ANum (z : Z)
| AId (type index : string)     (* the id [{"type": type, "index": index}] *)
| AStyle (css : list (string * string))
| AOptions (opts : list string)
| AFrame (df : DataFrame).

(** A Dash component: a bare string, or an element with its properties and
    children. *)
Inductive component : Type :=
| Txt (s : string)
| El (tag : string) (attrs : list (string * attr)) (children : list component).

Definition RED : string := "#FF3621".
Definition NAVY : string := "#1B3A8C".
Definition GREEN : string := "#00A972".
Definition DARK : string := "#1A1A1A".
Definition LIGHT : string := "#F5F5F5".

Definition kpi_card (title value color : string) : component :=
  El "dbc.Card" [("className", AStr "shadow-sm")]
    [El "dbc.CardBody" []
       [El "html.P" [("className", AStr "text-muted small mb-1")] [Txt title];
        El "html.H4"
          [("style", AStyle [("color", color); ("fontWeight", "bold")])]
          [Txt value]]].

Definition error_alert (msg : string) : component :=
  El "dbc.Alert" [("color", AStr "danger"); ("className", AStr "mt-3")]
    [Txt ("⚠️ " ++ msg)].

Fixpoint lookup_attr (key : string) (attrs : list (string * attr))
  : option attr :=
  match attrs with
  | [] => None
  | (k, a) :: rest => if String.eqb k key then Some a else lookup_attr key rest
  end.

Definition has_id (id : string) (c : component) : bool :=
  match c with
  | El _ attrs _ =>
      match lookup_attr "id" attrs with
      | Some (AStr i) => String.eqb i id
      | _ => false
      end
  | Txt _ => false
  end.

(** The first component, in document order, that carries the given id. *)
Fixpoint find_id (id : string) (c : component) : option component :=
  if has_id id c then Some c
  else
    match c with
    | Txt _ => None
    | El _ _ children =>
        (fix go (cs : list component) : option component :=
           match cs with
           | [] => None
           | c' :: cs' =>
               match find_id id c' with
               | Some r => Some r
               | None => go cs'
               end
           end) children
    end.

(** The [options] of the drop-down with the given id. *)
Definition options_of (id : string) (c : component) : option (list string) :=
  match find_id id c with
  | Some (El _ attrs _) =>
      match lookup_attr "options" attrs with
      | Some (AOptions o) => Some o
      | _ => None
      end
  | _ => None
  end.

(** The text carried by a component and its descendants, in order. *)
Fixpoint texts (c : component) : list string :=
  match c with
  | Txt s => [s]
  | El _ _ children =>
      (fix go (cs : list component) : list string :=
         match cs with
         | [] => []
         | c' :: cs' => texts c' ++ go cs'
         end) children
  end.

(** Does some text of the fragment carry [msg]? *)
Definition shows (msg : string) (c : component) : bool :=
  existsb (contains msg) (texts c).

(** Is the fragment an alert of the given colour? *)
Definition is_alert (color : string) (c : component) : bool :=
  match c with
  | El "dbc.Alert" attrs _ =>
      existsb
        (fun kv =>
           match kv with
           | ("color", AStr col) => String.eqb col color
           | _ => false
           end) attrs
  | _ => false
  end.

(** The pattern-matching ids of a fragment, [{"type": t, "index": i}] as
    [(t, i)], in document order. *)
Fixpoint item_ids (c : component) : list (string * string) :=
  match c with
  | Txt _ => []
  | El _ attrs children =>
      (match lookup_attr "id" attrs with
       | Some (AId type index) => [(type, index)]
       | _ => []
       end) ++
      (fix go (cs : list component) : list (string * string) :=
         match cs with
         | [] => []
         | c' :: cs' => item_ids c' ++ go cs'
         end) children
  end.


(** The [pages] of [navbar]: label and path. *)
Definition pages : list (string * string) :=
  [("🏠 Home", "/");
   ("👤 Identity", "/identity");
   ("💰 Sales Analytics", "/sales");
   ("🚕 NYC Taxi", "/taxi");
   ("🔍 SQL Explorer", "/sql");
   ("📂 Catalog Browser", "/catalog")].

Definition navbar (active : string) : component :=
  El "dbc.NavbarSimple"
    [("brand", AStr "🧱 Databricks Demo"); ("brand_href", AStr "/");
     ("color", AStr DARK); ("dark", ABool true); ("fluid", ABool true);
     ("className", AStr "mb-4")]
    (map (fun page =>
            El "dbc.NavItem" []
              [El "dbc.NavLink"
                 [("href", AStr (snd page));
                  ("active", ABool (String.eqb (snd page) active))]
                 [Txt (fst page)]])
         pages).

(** The [href] of the links of a fragment that are marked active, in
    document order. *)
Fixpoint active_links (c : component) : list string :=
  match c with
  | Txt _ => []
  | El _ attrs children =>
      (match lookup_attr "active" attrs, lookup_attr "href" attrs with
       | Some (ABool true), Some (AStr h) => [h]
       | _, _ => []
       end) ++
      (fix go (cs : list component) : list string :=
         match cs with
         | [] => []
         | c' :: cs' => active_links c' ++ go cs'
         end) children
  end.

(** The [value] of the drop-down with the given id. *)
Definition value_of (id : string) (c : component) : option string :=
  match find_id id c with
  | Some (El _ attrs _) =>
      match lookup_attr "value" attrs with
      | Some (AStr v) => Some v
      | _ => None
      end
  | _ => None
  end.

End Components.

(* ================================================================== *)
(** * The Dash callback interface *)
(* ================================================================== *)

Module Dash.

(** A callback output: a new value, or [dash.no_update]. *)
Inductive out (A : Type) : Type :=
| no_update
| Update (a : A).
Arguments no_update {A}.
Arguments Update {A} a.

(** The callback returns on every process state: no exception leaves it. *)
Definition never_raises {S A} (callback : M S A) : Prop :=
  forall s, exists a s', callback s = (Ok a, s').

(** Whatever the [try] block raises, the callback returns [alert e]. *)
Definition renders_failure {S A} (try_block callback : M S A)
  (alert : exn -> A) : Prop :=
  forall s e s1,
    try_block s = (Raise e, s1) -> callback s = (Ok (alert e), s1).

(** The [except] branch of a callback with one output, and of a callback
    that also feeds a store. *)
Definition alert1 (e : exn) : Components.component :=
  Components.error_alert (exn_msg e).

Definition alert2 (e : exn) : out Components.component * out string :=
  (Update (Components.error_alert (exn_msg e)), no_update).

(** Component ids: a plain string, or a pattern-matching dictionary. *)
Inductive component_id : Type :=
| IdStr (s : string)
| IdDict (type index : string).

(** [dash.callback_context]: the inputs that triggered this call. *)
Record callback_context : Type := mkCtx { triggered : list component_id }.

Definition truthy_triggered (ctx : callback_context) : bool :=
  match triggered ctx with [] => false | _ => true end.

Definition triggered_id (ctx : callback_context) : option component_id :=
  hd_error (triggered ctx).

(** [any(n_clicks)]: a component never clicked has [n_clicks] [None]. *)
Definition any (n_clicks : list (option nat)) : bool :=
  existsb (fun n => match n with Some (S _) => true | _ => false end) n_clicks.

End Dash.

(* ================================================================== *)
(** * pages/catalog.py *)
(* ================================================================== *)

Module Catalog.

Import Components Dash.

Record ColumnInfo : Type := mkColumnInfo
  { col_name : option string;
    type_text : option string;
    type_name : string;          (* [str(c.type_name)] *)
    nullable : option bool }.

Record TableInfo : Type := mkTableInfo
  { table_type : option string;  (* [table_type.value] when set *)
    owner : option string;
    data_source_format : option string;
    comment : option string;
    columns : option (list ColumnInfo) }.

(** What the catalog service answers at the time of a call. Listings carry
    the [name] attribute of each entry, which may be [None]. *)
Record World : Type := mkWorld
  { WorkspaceClient : result unit;
    catalogs_list : result (list (option string));
    schemas_list : string -> result (list (option string));
    tables_list : string -> string -> result (list (option string));
    tables_get : string -> result TableInfo }.

(** The cache of [_client]. *)
Definition Proc : Type := LruCache.t unit unit.

Definition init : Proc := LruCache.empty.

Definition _client (w : World) : M Proc unit :=
  LruCache.call (fun _ _ => true) (fun _ => WorkspaceClient w) tt.

(** [[x.name for x in listing if x.name]] *)
Fixpoint names (listing : list (option string)) : list string :=
  match listing with
  | [] => []
  | Some s :: rest => if truthy_str s then s :: names rest else names rest
  | None :: rest => names rest
  end.

Definition item_style : attr :=
  AStyle [("fontSize", "0.9em"); ("cursor", "pointer")].

Definition list_group (type : string) (items : list string) : component :=
  El "dbc.ListGroup" [("flush", ABool true)]
    (map (fun c =>
            El "dbc.ListGroupItem"
              [("id", AId type c); ("action", ABool true);
               ("style", item_style)]
              [Txt c])
         items).

(** The [try] block of [load_catalogs]. *)
Definition load_catalogs_try (w : World)
  : M Proc component :=
  _ <- _client w ;;
  listing <- lift (catalogs_list w) ;;
  let catalogs := names listing in
  let catalogs :=
    if existsb (String.eqb "samples") catalogs then
      "samples" :: filter (fun c => negb (String.eqb c "samples")) catalogs
    else catalogs in
  ret (list_group "cat-item" catalogs).

Definition load_catalogs (w : World)
  : M Proc component :=
  try_except (load_catalogs_try w)
    (fun e => ret (error_alert (exn_msg e))).

(** [ctx.triggered_id["index"]] *)
Definition index_of {S} (tid : option component_id) : M S string :=
  match tid with
  | Some (IdDict _ index) => ret index
  | Some (IdStr _) =>
      raise (mkExn TypeError "string indices must be integers, not 'str'")
  | None =>
      raise (mkExn TypeError "'NoneType' object is not subscriptable")
  end.

(** The [try] block of [load_schemas]. *)
Definition load_schemas_try (w : World) (cat : string)
  : M Proc (out component * out string) :=
  _ <- _client w ;;
  listing <- lift (schemas_list w cat) ;;
  let schemas := names listing in
  ret (Update (list_group "schema-item" schemas), Update cat).

Definition load_schemas (w : World) (ctx : callback_context)
  (n_clicks : list (option nat)) : M Proc (out component * out string) :=
  if negb (truthy_triggered ctx) || negb (any n_clicks) then
    ret (no_update, no_update)
  else
    cat <- index_of (triggered_id ctx) ;;
    try_except (load_schemas_try w cat)
      (fun e => ret (Update (error_alert (exn_msg e)), no_update)).

(** [isinstance(triggered, dict) and triggered.get("type") == type] *)
Definition is_item (type : string) (tid : option component_id) : bool :=
  match tid with
  | Some (IdDict type' _) => String.eqb type' type
  | _ => false
  end.

(** The [try] block of [load_tables]. *)
Definition load_tables_try (w : World) (catalog schema : string)
  : M Proc (out component * out string) :=
  _ <- _client w ;;
  listing <- lift (tables_list w catalog schema) ;;
  let tables := names listing in
  ret (Update (list_group "table-item" tables), Update schema).

Definition load_tables (w : World) (ctx : callback_context)
  (n_clicks : list (option nat)) (catalog : option string)
  : M Proc (out component * out string) :=
  if negb (truthy_triggered ctx) || negb (truthy_opt_str catalog) then
    ret (no_update, no_update)
  else
    let triggered := triggered_id ctx in
    if negb (is_item "schema-item" triggered) then
      ret (no_update, no_update)
    else
      schema <- index_of triggered ;;
      try_except (load_tables_try w (fmt_opt_str catalog) schema)
        (fun e => ret (Update (error_alert (exn_msg e)), no_update)).

Definition truthy_columns (cols : option (list ColumnInfo)) : bool :=
  match cols with Some (_ :: _) => true | _ => false end.

Definition columns_of (cols : option (list ColumnInfo)) : list ColumnInfo :=
  match cols with Some l => l | None => [] end.

(** [", ".join(parts)] raises when a part is [None]. *)
Fixpoint join_names {S} (parts : list (option string)) : M S (list string) :=
  match parts with
  | [] => ret []
  | Some s :: rest => l <- join_names rest ;; ret (s :: l)
  | None :: _ =>
      raise (mkExn TypeError
               "sequence item: expected str instance, NoneType found")
  end.

Definition column_row (c : ColumnInfo) : component :=
  El "tr" []
    [El "td" [] [Txt (fmt_opt_str (col_name c))];
     El "td" [] [Txt (or_str (type_text c) (type_name c))];
     El "td" []
       [Txt (match nullable c with Some true => "✅" | _ => "❌" end)]].

(** The [try] block of [show_detail]. *)
Definition show_detail_try (w : World) (full_name : string)
  : M Proc (out component) :=
  _ <- _client w ;;
  t <- lift (tables_get w full_name) ;;
  let meta :=
    [El "html.P" []
       [El "html.Strong" [] [Txt "Type: "];
        El "html.Code" [] [Txt (or_str (table_type t) "n/a")]];
     El "html.P" []
       [El "html.Strong" [] [Txt "Owner: "];
        Txt (or_str (owner t) "n/a")];
     El "html.P" []
       [El "html.Strong" [] [Txt "Format: "];
        El "html.Code" []
          [Txt (or_str (data_source_format t) "n/a")]]] in
  let meta :=
    if truthy_opt_str (comment t) then
      (meta ++
       [El "dbc.Alert"
          [("color", AStr "info"); ("className", AStr "py-2")]
          [Txt (fmt_opt_str (comment t))]])%list
    else meta in
  let cols_section :=
    if truthy_columns (columns t) then
      El "html.Div" []
        [El "html.Strong" [("className", AStr "d-block mt-2 mb-1")]
           [Txt "Schema"];
         El "dbc.Table"
           [("striped", ABool true); ("bordered", ABool false);
            ("hover", ABool true); ("size", AStr "sm");
            ("responsive", ABool true);
            ("header", AOptions ["Column"; "Type"; "Nullable"])]
           (map column_row (columns_of (columns t)))]
    else El "html.Div" [] [] in
  col_names <-
    (if truthy_columns (columns t) then
       l <- join_names (map col_name (columns_of (columns t))) ;;
       ret (join ", " l)
     else ret "*") ;;
  let sql_ref :=
    El "html.Div" []
      [El "html.Strong" [("className", AStr "d-block mt-2 mb-1")]
         [Txt "SQL Reference"];
       El "html.Pre"
         [("style",
           AStyle [("background", "#f5f5f5"); ("padding", "10px");
                   ("borderRadius", "6px"); ("fontSize", "0.8em");
                   ("overflowX", "auto")])]
         [Txt ("SELECT " ++ col_names ++ String "010" "FROM "
               ++ full_name ++ String "010" "LIMIT 100")%string]] in
  ret (Update (El "html.Div" [] (meta ++ [cols_section; sql_ref])%list)).

Definition show_detail (w : World) (ctx : callback_context)
  (n_clicks : list (option nat)) (catalog schema : option string)
  : M Proc (out component) :=
  if negb (truthy_triggered ctx) || negb (truthy_opt_str catalog)
     || negb (truthy_opt_str schema) then
    ret no_update
  else
    let triggered := triggered_id ctx in
    if negb (is_item "table-item" triggered) then
      ret no_update
    else
      table <- index_of triggered ;;
      let full_name :=
        (fmt_opt_str catalog ++ "." ++ fmt_opt_str schema ++ "." ++ table)%string
      in
      try_except (show_detail_try w full_name)
        (fun e => ret (Update (error_alert (exn_msg e)))).

(** ** The page and its reactive wiring

    The rendered page: the [children] of the four columns and the [data] of
    the three hidden stores of [layout]. *)
Record Page : Type := mkPage
  { cat_list : option component;
    schema_list : option component;
    table_list : option component;
    table_detail : option component;
    store_catalog : option string;
    store_schema : option string;
    store_table : option string }.

Definition initial_page : Page :=
  {| cat_list := None; schema_list := None; table_list := None;
     table_detail := None; store_catalog := None; store_schema := None;
     store_table := None |}.

Definition set {A} (o : out A) (old : option A) : option A :=
  match o with no_update => old | Update a => Some a end.

(** The Dash runtime is a library; what follows is the wiring that the
    [@callback] declarations of the file ask of it. A callback runs when one
    of its [Input]s changes, and also when components that match one of its
    pattern-matching [Input]s are inserted in the page by another callback
    ([prevent_initial_call] does not stop that run, and the [n_clicks] of
    such a component is [None]). [ctx.triggered] lists the inputs concerned:
    the inserted items in document order and the stores that received a
    value. Each [Output] receives the returned value unless it is
    [no_update]. *)

(** Which come first in [ctx.triggered], the inserted items or the changed
    stores, is the renderer's affair; it may differ from one callback to
    the other. *)
Inductive order : Type :=
| InsertedFirst
| StoresFirst.

Record Renderer : Type := mkRenderer
  { tables_order : order;    (* for a run of [load_tables] *)
    detail_order : order }.  (* for a run of [show_detail] *)

Definition arrange (o : order) (inserted changed : list component_id)
  : list component_id :=
  match o with
  | InsertedFirst => (inserted ++ changed)%list
  | StoresFirst => (changed ++ inserted)%list
  end.

(** The items that an output puts in the page, and the store that an
    output changes. *)
Definition inserted (o : out component) : list component_id :=
  match o with
  | Update c => map (fun ti => IdDict (fst ti) (snd ti)) (item_ids c)
  | no_update => []
  end.

Definition changed (store : string) (o : out string) : list component_id :=
  match o with
  | Update _ => [IdStr store]
  | no_update => []
  end.

(** The [n_clicks] of items that were just inserted. *)
Definition fresh (items : list component_id) : list (option nat) :=
  map (fun _ => None) items.

(** [show_detail] runs on the context [ctx]; its output is written. *)
Definition run_show_detail (w : World) (ctx : list component_id)
  (table_clicks : list (option nat)) (pg : Page) : M Proc Page :=
  detail <- show_detail w (mkCtx ctx) table_clicks
              (store_catalog pg) (store_schema pg) ;;
  ret {| cat_list := cat_list pg; schema_list := schema_list pg;
         table_list := table_list pg;
         table_detail := set detail (table_detail pg);
         store_catalog := store_catalog pg; store_schema := store_schema pg;
         store_table := store_table pg |}.

(** [load_tables] runs on the context [ctx]; its outputs are written.
    [show_detail] follows when table items were inserted or one of the two
    stores it listens to changed ([earlier]: [store-catalog], when the run
    of [load_schemas] before changed it). *)
Definition run_load_tables (r : Renderer) (w : World)
  (ctx : list component_id) (schema_clicks table_clicks : list (option nat))
  (earlier : list component_id) (pg : Page) : M Proc Page :=
  outs <- load_tables w (mkCtx ctx) schema_clicks (store_catalog pg) ;;
  let pg1 :=
    {| cat_list := cat_list pg; schema_list := schema_list pg;
       table_list := set (fst outs) (table_list pg);
       table_detail := table_detail pg;
       store_catalog := store_catalog pg;
       store_schema := set (snd outs) (store_schema pg);
       store_table := store_table pg |} in
  match arrange (detail_order r) (inserted (fst outs))
          (changed "store-schema" (snd outs) ++ earlier) with
  | [] => ret pg1
  | ctx' => run_show_detail w ctx' table_clicks pg1
  end.

(** [load_schemas] runs on the context [ctx]; its outputs are written.
    [load_tables] follows when schema items were inserted or
    [store-catalog] changed. *)
Definition run_load_schemas (r : Renderer) (w : World)
  (ctx : list component_id)
  (cat_clicks schema_clicks table_clicks : list (option nat)) (pg : Page)
  : M Proc Page :=
  outs <- load_schemas w (mkCtx ctx) cat_clicks ;;
  let pg1 :=
    {| cat_list := cat_list pg;
       schema_list := set (fst outs) (schema_list pg);
       table_list := table_list pg; table_detail := table_detail pg;
       store_catalog := set (snd outs) (store_catalog pg);
       store_schema := store_schema pg; store_table := store_table pg |} in
  let stores := changed "store-catalog" (snd outs) in
  match arrange (tables_order r) (inserted (fst outs)) stores with
  | [] => ret pg1
  | ctx' => run_load_tables r w ctx' schema_clicks table_clicks stores pg1
  end.

(** The mount trigger [cat-trigger] fires once; the catalog items are
    inserted, never clicked yet, and [load_schemas] runs for them. *)
Definition mount (r : Renderer) (w : World) (pg : Page) : M Proc Page :=
  cats <- load_catalogs w ;;
  let pg1 :=
    {| cat_list := Some cats; schema_list := schema_list pg;
       table_list := table_list pg; table_detail := table_detail pg;
       store_catalog := store_catalog pg; store_schema := store_schema pg;
       store_table := store_table pg |} in
  match inserted (Update cats) with
  | [] => ret pg1
  | items => run_load_schemas r w items (fresh items) [] [] pg1
  end.

(** The user clicks the catalog item [cat]; [cat_clicks] are the click
    counts of the catalog items after the click, [schema_clicks] and
    [table_clicks] those that Dash hands to the callbacks that follow. *)
Definition click_catalog (r : Renderer) (w : World) (cat : string)
  (cat_clicks schema_clicks table_clicks : list (option nat)) (pg : Page)
  : M Proc Page :=
  run_load_schemas r w [IdDict "cat-item" cat] cat_clicks schema_clicks
    table_clicks pg.

(** The user clicks the schema item [schema]. *)
Definition click_schema (r : Renderer) (w : World) (schema : string)
  (schema_clicks table_clicks : list (option nat)) (pg : Page)
  : M Proc Page :=
  run_load_tables r w [IdDict "schema-item" schema] schema_clicks
    table_clicks [] pg.

(** The user clicks the table item [table]. *)
Definition click_table (w : World) (table : string)
  (table_clicks : list (option nat)) (pg : Page) : M Proc Page :=
  run_show_detail w [IdDict "table-item" table] table_clicks pg.

(** ** Sessions

    What a user can do on the page, with the click counts that Dash hands
    to the callbacks, and a session as a list of such actions, each met by
    the renderer and by the catalog service as they are at that moment. *)
Inductive action : Type :=
| Mount
| ClickCatalog (cat : string)
    (cat_clicks schema_clicks table_clicks : list (option nat))
| ClickSchema (schema : string) (schema_clicks table_clicks : list (option nat))
| ClickTable (table : string) (table_clicks : list (option nat)).

Definition act (r : Renderer) (w : World) (a : action) (pg : Page)
  : M Proc Page :=
  match a with
  | Mount => mount r w pg
  | ClickCatalog cat cc sc tc => click_catalog r w cat cc sc tc pg
  | ClickSchema schema sc tc => click_schema r w schema sc tc pg
  | ClickTable table tc => click_table w table tc pg
  end.

Fixpoint session (steps : list (Renderer * World * action)) (pg : Page)
  : M Proc Page :=
  match steps with
  | [] => ret pg
  | (r, w, a) :: rest => pg' <- act r w a pg ;; session rest pg'
  end.

(** ** The client across callbacks

    [kept p p']: if the cache of [_client] held a client in [p], it holds
    the same one in [p'] and [WorkspaceClient] was not called in between. *)
Definition kept (p p' : Proc) : Prop :=
  LruCache.slot p <> None ->
  LruCache.slot p' = LruCache.slot p /\
  LruCache.misses p' = LruCache.misses p.

Definition keeps {A} (m : M Proc A) : Prop := forall p, kept p (snd (m p)).

(** A page on which a schema is never selected without a catalog. *)
Definition schema_under_catalog (pg : Page) : Prop :=
  store_schema pg = None \/ store_catalog pg <> None.

(** The text of the SQL reference that [show_detail] shows. *)
Definition sql_reference (col_names full_name : string) : string :=
  ("SELECT " ++ col_names ++ nl ++ "FROM " ++ full_name ++ nl
   ++ "LIMIT 100")%string.


End Catalog.

(* ================================================================== *)
(** * pages/sql_explorer.py *)
(* ================================================================== *)

Module SqlExplorer.

Import SqlClient Components Dash.

(** The warehouse, and [df.to_json(date_format="iso", orient="split")]:
    pandas returns the JSON text of the frame, or raises on a value that it
    cannot encode. *)
Record World : Type := mkWorld
  { sql : SqlClient.World;
    to_json : DataFrame -> result string }.

(** [max_rows or 500] *)
Definition or_500 (max_rows : option Z) : Z :=
  match max_rows with
  | Some n => if truthy_Z n then n else 500%Z
  | None => 500%Z
  end.

(** The statement handed to [run_query]: lines 124 to 126 of [run_sql]. *)
Definition statement (query : string) (max_rows : option Z) : string :=
  let safe := rstrip ";" (strip query) in
  if negb (contains "limit" (lower safe)) then
    "SELECT * FROM (" ++ safe ++ ") _q LIMIT " ++ str_of_Z (or_500 max_rows)
  else safe.

(** [not query or not query.strip()] *)
Definition blank (query : option string) : bool :=
  match query with
  | None => true
  | Some q => negb (truthy_str q) || negb (truthy_str (strip q))
  end.

(** [df.select_dtypes(include="number")] keeps the integer and floating
    point columns. *)
Definition is_number (d : dtype) : bool :=
  match d with
  | int64 | float64 => true
  | bool_ | object_ | datetime64 => false
  end.

Definition numeric_cols (df : DataFrame) : list string :=
  map fst (filter (fun c => is_number (snd c)) (columns df)).

Definition all_cols (df : DataFrame) : list string :=
  map fst (columns df).

Fixpoint group3 (digits : list ascii) (k : nat) : list ascii :=
  match digits with
  | [] => []
  | d :: rest =>
      match k with
      | O => ","%char :: d :: group3 rest 2
      | S k' => d :: group3 rest k'
      end
  end.

(** [f"{n:,}"] *)
Definition fmt_thousands (n : nat) : string :=
  string_of_list_ascii
    (rev (group3 (rev (list_ascii_of_string (str_of_Z (Z.of_nat n)))) 3)).

Definition dropdown (id : string) (options : list string) (value : string)
  : component :=
  El "dcc.Dropdown"
    [("id", AStr id); ("options", AOptions options); ("value", AStr value);
     ("clearable", ABool false)] [].

(** The auto-visualisation controls: lines 155 to 176 of [run_sql]. *)
Definition viz_section (df : DataFrame) : component :=
  let numeric_cols := numeric_cols df in
  let all_cols := all_cols df in
  match numeric_cols, (2 <=? List.length all_cols)%nat with
  | y0 :: _, true =>
      El "dbc.Card" [("className", AStr "mt-3 shadow-sm")]
        [El "dbc.CardBody" []
           [El "html.H6" [] [Txt "📈 Auto Visualization"];
            El "dbc.Row" [("className", AStr "mb-3")]
              [El "dbc.Col" [("md", ANum 4)]
                 [El "html.Label" [] [Txt "X axis"];
                  dropdown "viz-x" all_cols (hd "" all_cols)];
               El "dbc.Col" [("md", ANum 4)]
                 [El "html.Label" [] [Txt "Y axis"];
                  dropdown "viz-y" numeric_cols y0];
               El "dbc.Col" [("md", ANum 4)]
                 [El "html.Label" [] [Txt "Chart type"];
                  dropdown "viz-type" ["Bar"; "Line"; "Scatter"; "Area"]
                    "Bar"]];
            El "html.Div" [("id", AStr "viz-chart")] []]]
  | _, _ => El "html.Div" [] []
  end.

(** The children of [sql-results] after a successful query: lines 133 to
    183 of [run_sql]. *)
Definition content (df : DataFrame) : list component :=
  let table :=
    El "dash_table.DataTable"
      [("data", AFrame df); ("columns", AOptions (all_cols df));
       ("page_size", ANum 20); ("sort_action", AStr "native");
       ("filter_action", AStr "native");
       ("style_table", AStyle [("overflowX", "auto")]);
       ("style_header",
        AStyle [("fontWeight", "bold"); ("backgroundColor", "#f5f5f5")]);
       ("style_cell",
        AStyle [("fontSize", "0.85em"); ("padding", "6px")])] [] in
  let dl_link :=
    El "html.A"
      [("href", AFrame df);   (* the data URI of [df.to_csv] *)
       ("download", AStr "query_results.csv");
       ("className",
        AStr "btn btn-outline-secondary btn-sm mt-2 d-inline-block")]
      [Txt "⬇️ Download CSV"] in
  [El "dbc.Alert" [("color", AStr "success")]
     [Txt ("✅ " ++ fmt_thousands (nrows df) ++ " rows returned")];
   table; dl_link; viz_section df].

(** The two outputs of [run_sql]: the children of [sql-results] (one alert,
    or the list [content]) and the data of [sql-data-store] ([None], or the
    JSON text of the frame). Only the call of [run_query] sits in the [try]
    block. *)
Definition run_sql (w : World) (query : option string) (max_rows : option Z)
  : M Proc (list component * option string) :=
  if blank query then
    ret ([El "dbc.Alert" [("color", AStr "warning")]
            [Txt "Please enter a SQL query."]], None)
  else
    let safe := statement (fmt_opt_str query) max_rows in
    r <- try_except
           (df <- run_query (sql w) safe ;; ret (inl df))
           (fun e => ret (inr ([error_alert (exn_msg e)], None))) ;;
    match r with
    | inr early => ret early
    | inl df =>
        json <- lift (to_json w df) ;;
        ret (content df, Some json)
    end.



(** ** The chart callback *)

Inductive chart : Type :=
| Bar
| Line
| Scatter
| Area.

(** What plotly was asked to draw. *)
Record Figure : Type := mkFigure
  { fig_chart : chart;
    fig_frame : DataFrame;
    fig_x : string;
    fig_y : string;
    fig_markers : bool;
    fig_opacity : option string;
    fig_margin_t : option Z }.

(** [pd.read_json(io.StringIO(text), orient="split")] and the [px] plotting
    functions: they return or raise. *)
Record Plotting : Type := mkPlotting
  { read_json : string -> result DataFrame;
    px : chart -> DataFrame -> string -> string -> result unit }.

(** The children of [viz-chart]: a graph, or the alert of the [except]
    branch. *)
Inductive viz_chart : Type :=
| Graph (figure : Figure)
| Failed (alert : component).

(** The chart that a value of the [viz-type] drop-down selects: the
    [if]/[elif]/[else] chain of [update_viz]. *)
Definition chart_of (chart_type : string) : chart :=
  if String.eqb chart_type "Bar" then Bar
  else if String.eqb chart_type "Line" then Line
  else if String.eqb chart_type "Scatter" then Scatter
  else Area.

(** The figure that [update_viz] hands to [dcc.Graph] for a chart. *)
Definition figure_of (c : chart) (df : DataFrame) (x y : string) : Figure :=
  {| fig_chart := c; fig_frame := df; fig_x := x; fig_y := y;
     fig_markers := match c with Line => true | _ => false end;
     fig_opacity := match c with Scatter => Some "0.6" | _ => None end;
     fig_margin_t := Some 30%Z |}.

Definition plot (w : Plotting) (c : chart) (df : DataFrame) (x y : string)
  (markers : bool) (opacity : option string) : M unit Figure :=
  _ <- lift (px w c df x y) ;;
  ret {| fig_chart := c; fig_frame := df; fig_x := x; fig_y := y;
         fig_markers := markers; fig_opacity := opacity;
         fig_margin_t := None |}.

Definition update_layout_margin (t : Z) (fig : Figure) : Figure :=
  {| fig_chart := fig_chart fig; fig_frame := fig_frame fig;
     fig_x := fig_x fig; fig_y := fig_y fig;
     fig_markers := fig_markers fig; fig_opacity := fig_opacity fig;
     fig_margin_t := Some t |}.

Definition update_viz (w : Plotting) (x y chart_type : string)
  (data_json : option string) : M unit (option viz_chart) :=
  if negb (truthy_opt_str data_json) then ret None
  else
    df <- lift (read_json w (fmt_opt_str data_json)) ;;
    try_except
      (fig <-
         (if String.eqb chart_type "Bar" then plot w Bar df x y false None
          else if String.eqb chart_type "Line" then
            plot w Line df x y true None
          else if String.eqb chart_type "Scatter" then
            plot w Scatter df x y false (Some "0.6")
          else plot w Area df x y false None) ;;
       ret (Some (Graph (update_layout_margin 30 fig))))
      (fun e => ret (Some (Failed (error_alert (exn_msg e))))).

End SqlExplorer.

(* ================================================================== *)
(** * pages/identity.py *)
(* ================================================================== *)

Module Identity.

Import Components.

Record Name : Type := mkName
  { given_name : option string; family_name : option string }.

(** The answer of [w.current_user.me()]. *)
Record User : Type := mkUser
  { uid : string;                 (* [str(me.id)] *)
    display_name : option string;
    active : option bool;
    name : option Name;
    groups : option (list (option string)) (* [g.display] of each group *) }.

(** [request.headers] is the list of (name, value) pairs of the request;
    reading it outside a request context raises [RuntimeError]. *)
Record World : Type := mkWorld
  { request_headers : result (list (string * string));
    WorkspaceClient : string -> result unit;   (* [WorkspaceClient(token=..)] *)
    current_user_me : string -> result User;
    get_workspace_id : string -> result string;
    Config_host : string -> result string }.

(** [headers.get(name, "")]: header names compare without case. *)
Fixpoint get (headers : list (string * string)) (name default : string)
  : string :=
  match headers with
  | [] => default
  | (k, v) :: rest =>
      if String.eqb (lower k) (lower name) then v else get rest name default
  end.

(** Writing [d[k] = v] into a dictionary kept in insertion order. *)
Fixpoint dict_set (d : list (string * string)) (k v : string)
  : list (string * string) :=
  match d with
  | [] => [(k, v)]
  | (k', v') :: rest =>
      if String.eqb k' k then (k', v) :: rest
      else (k', v') :: dict_set rest k v
  end.

Definition is_safe (k : string) : bool :=
  negb (contains "token" (lower k)) && negb (contains "secret" (lower k)).

(** [{k: v for k, v in headers if "token" not in k.lower() and
    "secret" not in k.lower()}] *)
Definition safe_subset (headers : list (string * string))
  : list (string * string) :=
  fold_left
    (fun d kv => if is_safe (fst kv) then dict_set d (fst kv) (snd kv) else d)
    headers [].

(** Tuples of strings compare lexicographically. *)
Definition item_leb (a b : string * string) : bool :=
  match String.compare (fst a) (fst b) with
  | Lt => true
  | Gt => false
  | Eq => String.leb (snd a) (snd b)
  end.

Fixpoint insert_sorted (x : string * string) (l : list (string * string))
  : list (string * string) :=
  match l with
  | [] => [x]
  | y :: rest => if item_leb x y then x :: l else y :: insert_sorted x rest
  end.

(** [sorted(items)] *)
Definition sorted (items : list (string * string)) : list (string * string) :=
  fold_right insert_sorted [] items.

Definition is_section_heading (title : string) (c : component) : bool :=
  match c with
  | El "html.H5" _ [Txt t] => String.eqb t title
  | _ => false
  end.

(** The raw-headers pane: lines 113 to 120 of [load_identity]. *)
Definition raw_headers_pane (entries : list (string * string)) : component :=
  El "html.Details" [("className", AStr "mt-3")]
    [El "html.Summary"
       [("style", AStyle [("cursor", "pointer"); ("fontWeight", "bold")])]
       [Txt "🔎 Raw HTTP Headers"];
     El "html.Pre"
       [("style",
         AStyle [("background", "#f5f5f5"); ("padding", "12px");
                 ("borderRadius", "6px"); ("fontSize", "0.8em");
                 ("maxHeight", "300px"); ("overflow", "auto")])]
       [Txt (join (String "010" "")
               (map (fun kv => fst kv ++ ": " ++ snd kv)%string entries))]].

(** The entries listed in the raw-headers pane, in display order. *)
Definition raw_headers (w : World) : list (string * string) :=
  match request_headers w with
  | Ok headers => sorted (safe_subset headers)
  | Raise _ => []
  end.

(** The alert of the [else] branch of [if token:]. *)
Definition delegated_auth_warning : component :=
  El "dbc.Alert" [("color", AStr "warning")]
    [El "html.Strong" [] [Txt "Basic info only. "];
     Txt ("Enable On-behalf-of-user authentication in app Settings → Authorization "
          ++ "to see full account details and group memberships.")].

(** A header as [load_identity] reads it: empty when absent, and when there
    is no request at all. *)
Definition field (w : World) (name : string) : string :=
  match request_headers w with
  | Ok headers => get headers name ""
  | Raise _ => ""
  end.

(** No delegated token reaches the view: the request carries no
    [X-Forwarded-Access-Token] (or an empty one), or the view runs outside
    a request. *)
Definition no_delegated_token (w : World) : Prop :=
  match request_headers w with
  | Ok headers => get headers "X-Forwarded-Access-Token" "" = ""
  | Raise e => is_RuntimeError e = true
  end.

Definition opt_child (x : option string) : list component :=
  match x with Some s => [Txt s] | None => [] end.

Definition kpi_col (title value : string) : component :=
  El "dbc.Col" [("md", ANum 4); ("className", AStr "mb-3")]
    [kpi_card title (or_str (Some value) "n/a") RED].

(** The statement [if token: ... else: ...], lines 46 to 88: it extends
    [sections]. *)
Definition account_sections (w : World) (token : string)
  (sections : list component) : M unit (list component) :=
  if truthy_str token then
    try_except
      (_ <- lift (WorkspaceClient w token) ;;
       me <- lift (current_user_me w token) ;;
       let detail_rows :=
         [El "dbc.Row" [("className", AStr "mb-2")]
            [El "dbc.Col" [("md", ANum 4)]
               [El "html.Strong" [] [Txt "User ID: "];
                El "html.Code" [] [Txt (uid me)]];
             El "dbc.Col" [("md", ANum 4)]
               (El "html.Strong" [] [Txt "Display Name: "]
                :: opt_child (display_name me));
             El "dbc.Col" [("md", ANum 4)]
               [El "html.Strong" [] [Txt "Active: "];
                Txt (match active me with
                     | Some true => "✅ Yes"
                     | _ => "❌ No"
                     end)]]] in
       let detail_rows :=
         match name me with
         | Some n =>
             (detail_rows ++
              [El "dbc.Row" [("className", AStr "mb-2")]
                 [El "dbc.Col" [("md", ANum 4)]
                    [El "html.Strong" [] [Txt "Given Name: "];
                     Txt (or_str (given_name n) "n/a")];
                  El "dbc.Col" [("md", ANum 4)]
                    [El "html.Strong" [] [Txt "Family Name: "];
                     Txt (or_str (family_name n) "n/a")]]])%list
         | None => detail_rows
         end in
       let sections :=
         (sections ++
          [El "html.H5" [("className", AStr "mt-2 mb-3")]
             [Txt "📋 Account Details"]] ++
          detail_rows ++
          [El "html.H5" [("className", AStr "mt-4 mb-3")]
             [Txt "👥 Group Memberships"]] ++
          [match groups me with
           | Some ((_ :: _) as gs) =>
               El "html.Div" []
                 (map (fun g =>
                         El "dbc.Badge"
                           [("color", AStr "primary");
                            ("className", AStr "me-2 mb-2");
                            ("pill", ABool true)] [Txt g])
                      (Catalog.names gs))
           | _ =>
               El "dbc.Alert" [("color", AStr "info")]
                 [Txt "No group memberships returned."]
           end] ++
          [El "html.H5" [("className", AStr "mt-4 mb-2")]
             [Txt "🏢 Workspace"]])%list in
       sections <-
         try_except
           (ws_id <- lift (get_workspace_id w token) ;;
            ret (sections ++
                 [El "html.P" []
                    [El "html.Strong" [] [Txt "Workspace ID: "];
                     El "html.Code" [] [Txt ws_id]]])%list)
           (fun _ => ret sections) ;;
       try_except
         (host <- lift (Config_host w token) ;;
          ret (sections ++
               [El "html.P" []
                  [El "html.Strong" [] [Txt "Host: "];
                   El "html.Code" [] [Txt host]]])%list)
         (fun _ => ret sections))
      (fun e =>
         ret (sections ++
              [error_alert
                 ("Could not fetch detailed user info: " ++ exn_msg e)])%list)
  else
    ret (sections ++ [delegated_auth_warning])%list.

(** [load_identity] has no process state. It raises only when reading the
    headers fails with something else than [RuntimeError]. *)
Definition load_identity (w : World) : M unit (list component) :=
  fields <-
    try_except_RuntimeError
      (headers <- lift (request_headers w) ;;
       ret (get headers "X-Forwarded-Email" "",
            get headers "X-Forwarded-Preferred-Username" "",
            get headers "X-Forwarded-User" "",
            get headers "X-Real-Ip" "",
            get headers "X-Forwarded-Access-Token" ""))
      (ret ("", "", "", "", "")) ;;
  let '(email, username, user_id, ip, token) := fields in
  let sections :=
    [El "dbc.Row" []
       [kpi_col "Email" email; kpi_col "Username" username; kpi_col "IP" ip];
     El "html.Hr" [] []] in
  sections <- account_sections w token sections ;;
  safe <-
    try_except_RuntimeError
      (headers <- lift (request_headers w) ;; ret (safe_subset headers))
      (ret []) ;;
  ret (sections ++
       [El "html.Hr" [] []; raw_headers_pane (sorted safe)])%list.

(** What follows the section heading [title] in a list of fragments. *)
Fixpoint after_heading (title : string) (l : list component)
  : list component :=
  match l with
  | [] => []
  | c :: rest =>
      if is_section_heading title c then rest else after_heading title rest
  end.


(** The first two fragments of [load_identity]: the cards and a rule. *)
Definition cards (headers : list (string * string)) : list component :=
  [El "dbc.Row" []
     [kpi_col "Email" (get headers "X-Forwarded-Email" "");
      kpi_col "Username" (get headers "X-Forwarded-Preferred-Username" "");
      kpi_col "IP" (get headers "X-Real-Ip" "")];
   El "html.Hr" [] []].

(** The paragraph of the workspace section that a lookup contributes: none
    when the lookup raised. *)
Definition optional_line (label : string) (answer : result string)
  : list component :=
  match answer with
  | Ok v =>
      [El "html.P" []
         [El "html.Strong" [] [Txt label]; El "html.Code" [] [Txt v]]]
  | Raise _ => []
  end.


End Identity.

(* ================================================================== *)
(** * pages/sales.py *)
(* ================================================================== *)

Module Sales.

Import SqlClient Components.

(** The warehouse, and what pandas and plotly make of a result frame inside
    each callback (they may raise). *)
Record World : Type := mkWorld
  { sql : SqlClient.World;
    kpis_row : DataFrame -> result component;
    trend_graph : DataFrame -> result component;
    region_row : DataFrame -> result component;
    customers_div : Z -> DataFrame -> result component }.

Definition _status_filter (status : string) : string :=
  if String.eqb status "ALL" then ""
  else "AND o.o_orderstatus = '" ++ status ++ "'".

(** The [try] block of [update_kpis]. *)
Definition update_kpis_try (w : World) (years : list Z) (status : string)
  : M Proc component :=
  let sf := _status_filter status in
  y0 <- item years 0 ;;
  y1 <- item years 1 ;;
  df <- run_query (sql w) ("
            SELECT
                COUNT(DISTINCT o.o_orderkey)  AS total_orders,
                COUNT(DISTINCT o.o_custkey)   AS unique_customers,
                ROUND(SUM(o.o_totalprice), 0) AS total_revenue,
                ROUND(AVG(o.o_totalprice), 2) AS avg_order_value
            FROM samples.tpch.orders o
            WHERE YEAR(o.o_orderdate) BETWEEN " ++ str_of_Z y0 ++ " AND " ++ str_of_Z y1 ++ "
            " ++ sf ++ "
        ") ;;
  lift (kpis_row w df).

Definition update_kpis (w : World) (years : list Z) (status : string)
  : M Proc component :=
  try_except (update_kpis_try w years status)
    (fun e => ret (error_alert (exn_msg e))).

(** The [try] block of [update_trend]. *)
Definition update_trend_try (w : World) (years : list Z) (status : string)
  : M Proc component :=
  let sf := _status_filter status in
  y0 <- item years 0 ;;
  y1 <- item years 1 ;;
  df <- run_query (sql w) ("
            SELECT DATE_TRUNC('month', o.o_orderdate) AS month,
                   ROUND(SUM(o.o_totalprice), 0)      AS revenue
            FROM samples.tpch.orders o
            WHERE YEAR(o.o_orderdate) BETWEEN " ++ str_of_Z y0 ++ " AND " ++ str_of_Z y1 ++ "
            " ++ sf ++ "
            GROUP BY 1 ORDER BY 1
        ") ;;
  lift (trend_graph w df).

Definition update_trend (w : World) (years : list Z) (status : string)
  : M Proc component :=
  try_except (update_trend_try w years status)
    (fun e => ret (error_alert (exn_msg e))).

(** The [try] block of [update_region]. *)
Definition update_region_try (w : World) (years : list Z) (status : string)
  : M Proc component :=
  let sf := _status_filter status in
  y0 <- item years 0 ;;
  y1 <- item years 1 ;;
  df <- run_query (sql w) ("
            SELECT r.r_name AS region, n.n_name AS nation,
                   ROUND(SUM(o.o_totalprice), 0) AS revenue
            FROM samples.tpch.orders o
            JOIN samples.tpch.customer c ON o.o_custkey   = c.c_custkey
            JOIN samples.tpch.nation   n ON c.c_nationkey = n.n_nationkey
            JOIN samples.tpch.region   r ON n.n_regionkey = r.r_regionkey
            WHERE YEAR(o.o_orderdate) BETWEEN " ++ str_of_Z y0 ++ " AND " ++ str_of_Z y1 ++ "
            " ++ sf ++ "
            GROUP BY 1, 2 ORDER BY 1, 3 DESC
        ") ;;
  lift (region_row w df).

Definition update_region (w : World) (years : list Z) (status : string)
  : M Proc component :=
  try_except (update_region_try w years status)
    (fun e => ret (error_alert (exn_msg e))).

(** The [try] block of [update_customers]. *)
Definition update_customers_try (w : World) (years : list Z) (status : string) (topn : Z)
  : M Proc component :=
  let sf := _status_filter status in
  y0 <- item years 0 ;;
  y1 <- item years 1 ;;
  df <- run_query (sql w) ("
            SELECT c.c_name        AS customer,
                   c.c_mktsegment  AS segment,
                   COUNT(o.o_orderkey)           AS orders,
                   ROUND(SUM(o.o_totalprice), 0) AS revenue,
                   ROUND(AVG(o.o_totalprice), 2) AS avg_order
            FROM samples.tpch.orders o
            JOIN samples.tpch.customer c ON o.o_custkey = c.c_custkey
            WHERE YEAR(o.o_orderdate) BETWEEN " ++ str_of_Z y0 ++ " AND " ++ str_of_Z y1 ++ "
            " ++ sf ++ "
            GROUP BY 1, 2 ORDER BY 4 DESC LIMIT " ++ str_of_Z topn ++ "
        ") ;;
  lift (customers_div w topn df).

Definition update_customers (w : World) (years : list Z) (status : string) (topn : Z)
  : M Proc component :=
  try_except (update_customers_try w years status topn)
    (fun e => ret (error_alert (exn_msg e))).

(** What a tab shows for an answer of the warehouse: the drawing of the
    frame, or the alert of what the warehouse or the drawing raised. *)
Definition rendered (answer : result DataFrame)
  (draw : DataFrame -> result component) : result component :=
  match answer with
  | Ok df =>
      match draw df with
      | Ok c => Ok c
      | Raise e => Ok (error_alert (exn_msg e))
      end
  | Raise e => Ok (error_alert (exn_msg e))
  end.


End Sales.

(* ================================================================== *)
(** * pages/taxi.py *)
(* ================================================================== *)

Module Taxi.

Import SqlClient Components.

Record World : Type := mkWorld
  { sql : SqlClient.World;
    kpis_row : DataFrame -> result component;
    distributions_row : DataFrame -> result component;
    hourly_row : DataFrame -> result component;
    scatter_graph : DataFrame -> result component }.

Definition _where {S} (fare dist : list Z) : M S string :=
  f0 <- item fare 0 ;;
  f1 <- item fare 1 ;;
  d0 <- item dist 0 ;;
  d1 <- item dist 1 ;;
  ret ("WHERE fare_amount BETWEEN " ++ str_of_Z f0 ++ " AND " ++ str_of_Z f1
       ++ "  AND trip_distance BETWEEN " ++ str_of_Z d0 ++ " AND "
       ++ str_of_Z d1 ++ "  AND trip_distance > 0 AND fare_amount > 0")%string.

(** The [try] block of [update_kpis]. *)
Definition update_kpis_try (w : World) (fare dist : list Z)
  : M Proc component :=
  wh <- _where fare dist ;;
  df <- run_query (sql w) ("
            SELECT COUNT(*) AS total_trips,
                   ROUND(AVG(fare_amount), 2)  AS avg_fare,
                   ROUND(AVG(trip_distance), 2) AS avg_distance,
                   ROUND(AVG(fare_amount / NULLIF(trip_distance, 0)), 2) AS avg_fare_per_mile
            FROM samples.nyctaxi.trips " ++ wh ++ "
        ") ;;
  lift (kpis_row w df).

Definition update_kpis (w : World) (fare dist : list Z)
  : M Proc component :=
  try_except (update_kpis_try w fare dist)
    (fun e => ret (error_alert (exn_msg e))).

(** The [try] block of [update_distributions]. *)
Definition update_distributions_try (w : World) (fare dist : list Z) (sample : Z)
  : M Proc component :=
  wh <- _where fare dist ;;
  df <- run_query (sql w)
             ("SELECT fare_amount, trip_distance FROM samples.nyctaxi.trips "
              ++ wh ++ " LIMIT " ++ str_of_Z sample) ;;
  lift (distributions_row w df).

Definition update_distributions (w : World) (fare dist : list Z) (sample : Z)
  : M Proc component :=
  try_except (update_distributions_try w fare dist sample)
    (fun e => ret (error_alert (exn_msg e))).

(** The [try] block of [update_hourly]. *)
Definition update_hourly_try (w : World) (fare dist : list Z)
  : M Proc component :=
  wh <- _where fare dist ;;
  df <- run_query (sql w) ("
            SELECT HOUR(tpep_pickup_datetime)      AS hour_of_day,
                   COUNT(*)                        AS trips,
                   ROUND(AVG(fare_amount), 2)      AS avg_fare
            FROM samples.nyctaxi.trips " ++ wh ++ "
            GROUP BY 1 ORDER BY 1
        ") ;;
  lift (hourly_row w df).

Definition update_hourly (w : World) (fare dist : list Z)
  : M Proc component :=
  try_except (update_hourly_try w fare dist)
    (fun e => ret (error_alert (exn_msg e))).

(** The [try] block of [update_scatter]. *)
Definition update_scatter_try (w : World) (fare dist : list Z) (sample : Z)
  : M Proc component :=
  wh <- _where fare dist ;;
  df <- run_query (sql w) ("
            SELECT fare_amount, trip_distance
            FROM samples.nyctaxi.trips " ++ wh ++ "
            ORDER BY RAND() LIMIT " ++ str_of_Z (Z.min sample 5000) ++ "
        ") ;;
  lift (scatter_graph w df).

Definition update_scatter (w : World) (fare dist : list Z) (sample : Z)
  : M Proc component :=
  try_except (update_scatter_try w fare dist sample)
    (fun e => ret (error_alert (exn_msg e))).

End Taxi.

(* ================================================================== *)
(** * Scenarios *)
(* ================================================================== *)

Module Scenarios.

Import SqlClient Components.

Definition no_credentials : exn :=
  mkExn OtherError "default auth: cannot configure default credentials".

Definition no_frame : DataFrame := {| columns := []; nrows := 0 |}.

(** The workspace is unreachable although the override is set. *)
Definition offline : World :=
  {| WorkspaceClient := Raise no_credentials;
     getenv_DATABRICKS_WAREHOUSE_ID := Some "abc123";
     warehouses_list := Raise no_credentials;
     Config_host := Raise no_credentials;
     sql_connect := fun _ _ => Raise no_credentials;
     cursor_execute := fun _ _ => Raise no_credentials |}.

(** The workspace answers; each connection attempt yields the connection
    object [c]. *)
Definition online (override : option string) (listing : list Warehouse)
  (c : Connection) : World :=
  {| WorkspaceClient := Ok tt;
     getenv_DATABRICKS_WAREHOUSE_ID := override;
     warehouses_list := Ok listing;
     Config_host := Ok "adb-1.azuredatabricks.net";
     sql_connect := fun _ _ => Ok c;
     cursor_execute := fun _ _ => Ok no_frame |}.

Definition three_warehouses : list Warehouse :=
  [ {| id := Some "w-stopped"; enable_serverless_compute := Some false;
       state := Some "STOPPED" |};
    {| id := Some "w-running"; enable_serverless_compute := None;
       state := Some "RUNNING" |};
    {| id := Some "w-serverless"; enable_serverless_compute := Some true;
       state := Some "STOPPED" |} ].

(** The result of the starter query "Order status breakdown" without its
    third column. *)
Definition order_status_breakdown : DataFrame :=
  {| columns := [("o_orderstatus", object_); ("orders", int64)];
     nrows := 3 |}.

Definition unreachable {A} : result A :=
  Raise (mkExn OtherError "connection refused").

(** A request that went through the proxy without a delegated token. *)
Definition anonymous_request : Identity.World :=
  {| Identity.request_headers :=
       Ok [("Host", "app.example"); ("X-Forwarded-Email", "ada@example.com");
           ("X-Real-Ip", "10.0.0.7"); ("Accept", "*/*")];
     Identity.WorkspaceClient := fun _ => unreachable;
     Identity.current_user_me := fun _ => unreachable;
     Identity.get_workspace_id := fun _ => unreachable;
     Identity.Config_host := fun _ => unreachable |}.

Definition ada : Identity.User :=
  {| Identity.uid := "42"; Identity.display_name := Some "Ada";
     Identity.active := Some true; Identity.name := None;
     Identity.groups := Some [Some "admins"] |}.

(** A request carrying a delegated token and a secret header. *)
Definition delegated_request : Identity.World :=
  {| Identity.request_headers :=
       Ok [("Host", "app.example");
           ("X-Forwarded-Access-Token", "dapi-0123");
           ("X-Api-Secret", "s3cr3t");
           ("X-Forwarded-Email", "ada@example.com")];
     Identity.WorkspaceClient := fun _ => Ok tt;
     Identity.current_user_me := fun _ => Ok ada;
     Identity.get_workspace_id := fun _ => Ok "1234";
     Identity.Config_host := fun _ => Ok "adb-1.azuredatabricks.net" |}.

(** The SQL explorer on a given warehouse, with a frame that serialises. *)
Definition explorer (sql : World) : SqlExplorer.World :=
  {| SqlExplorer.sql := sql;
     SqlExplorer.to_json := fun _ => Ok "{}" |}.

(** A warehouse that reads its statements as SQL does: the text from [--]
    to the end of the line is a comment, and a statement that ends with
    [LIMIT n] answers at most [n] rows. Each of its tables has 501 rows. *)
Fixpoint uncomment (in_comment : bool) (s : string) : string :=
  match s with
  | EmptyString => EmptyString
  | String c rest =>
      if in_comment then
        if Ascii.eqb c "010" then String c (uncomment false rest)
        else uncomment true rest
      else
        match rest with
        | String d rest' =>
            if Ascii.eqb c "-" && Ascii.eqb d "-" then uncomment true rest'
            else String c (uncomment false rest)
        | EmptyString => String c EmptyString
        end
  end.

(** The [n] of the last [LIMIT n] that ends the text. *)
Fixpoint final_limit (s : string) : option nat :=
  match s with
  | EmptyString => None
  | String _ rest =>
      match final_limit rest with
      | Some n => Some n
      | None =>
          if String.prefix "limit " (lower s) then
            option_map Nat.of_uint
              (NilZero.uint_of_string
                 (String.substring 6 (String.length s - 6) s))
          else None
      end
  end.

Definition sql_warehouse : World :=
  {| WorkspaceClient := Ok tt;
     getenv_DATABRICKS_WAREHOUSE_ID := Some "abc123";
     warehouses_list := Ok [];
     Config_host := Ok "adb-1.azuredatabricks.net";
     sql_connect := fun _ _ => Ok 1;
     cursor_execute :=
       fun _ text =>
         Ok {| columns := [("id", int64)];
               nrows :=
                 match final_limit (strip (uncomment false text)) with
                 | Some n => Nat.min n 501
                 | None => 501
                 end |} |}.


(** The warehouse answers with a frame that holds a value [to_json] cannot
    encode, such as the bytes of [SELECT unhex('FF') AS b]. *)
Definition binary_frame : DataFrame :=
  {| columns := [("b", object_)]; nrows := 1 |}.

Definition not_encodable : exn :=
  mkExn OtherError "Unsupported UTF-8 sequence length when encoding string".

Definition binary_result : SqlExplorer.World :=
  {| SqlExplorer.sql :=
       {| WorkspaceClient := Ok tt;
          getenv_DATABRICKS_WAREHOUSE_ID := Some "abc123";
          warehouses_list := Ok [];
          Config_host := Ok "adb-1.azuredatabricks.net";
          sql_connect := fun _ _ => Ok 1;
          cursor_execute := fun _ _ => Ok binary_frame |};
     SqlExplorer.to_json := fun _ => Raise not_encodable |}.

(** A catalog service with two catalogs. *)
Definition two_catalogs : Catalog.World :=
  {| Catalog.WorkspaceClient := Ok tt;
     Catalog.catalogs_list := Ok [Some "main"; Some "samples"; None];
     Catalog.schemas_list :=
       fun c =>
         if String.eqb c "samples" then Ok [Some "nyctaxi"; Some "tpch"]
         else Ok [Some "default"];
     Catalog.tables_list :=
       fun c s =>
         if String.eqb s "tpch" then Ok [Some "orders"; Some "customer"]
         else Ok [Some "trips"];
     Catalog.tables_get := fun _ => unreachable |}.

(** The page after the catalogs were listed, "samples" and then its schema
    "tpch" were clicked. *)
Definition browsing_tpch : Catalog.Page :=
  {| Catalog.cat_list := Some (Catalog.list_group "cat-item" ["samples"; "main"]);
     Catalog.schema_list :=
       Some (Catalog.list_group "schema-item" ["nyctaxi"; "tpch"]);
     Catalog.table_list :=
       Some (Catalog.list_group "table-item" ["orders"; "customer"]);
     Catalog.table_detail := None;
     Catalog.store_catalog := Some "samples";
     Catalog.store_schema := Some "tpch";
     Catalog.store_table := None |}.

(** Renderers: the inserted items lead every context; the stores lead
    every context; the inserted items lead for [load_tables] and the stores
    for [show_detail]. *)
Definition items_first : Catalog.Renderer :=
  {| Catalog.tables_order := Catalog.InsertedFirst;
     Catalog.detail_order := Catalog.InsertedFirst |}.

Definition stores_first : Catalog.Renderer :=
  {| Catalog.tables_order := Catalog.StoresFirst;
     Catalog.detail_order := Catalog.StoresFirst |}.

Definition items_then_stores : Catalog.Renderer :=
  {| Catalog.tables_order := Catalog.InsertedFirst;
     Catalog.detail_order := Catalog.StoresFirst |}.



(** The sales and taxi pages while the warehouse is unreachable. *)
Definition sales_offline : Sales.World :=
  {| Sales.sql := offline;
     Sales.kpis_row := fun _ => Ok (Txt "kpis");
     Sales.trend_graph := fun _ => Ok (Txt "trend");
     Sales.region_row := fun _ => Ok (Txt "region");
     Sales.customers_div := fun _ _ => Ok (Txt "customers") |}.

Definition taxi_offline : Taxi.World :=
  {| Taxi.sql := offline;
     Taxi.kpis_row := fun _ => Ok (Txt "kpis");
     Taxi.distributions_row := fun _ => Ok (Txt "distributions");
     Taxi.hourly_row := fun _ => Ok (Txt "hourly");
     Taxi.scatter_graph := fun _ => Ok (Txt "scatter") |}.

(** A catalog service that refuses every listing. *)
Definition forbidden : exn := mkExn OtherError "PERMISSION_DENIED: no access".

Definition locked_catalogs : Catalog.World :=
  {| Catalog.WorkspaceClient := Ok tt;
     Catalog.catalogs_list := Raise forbidden;
     Catalog.schemas_list := fun _ => Raise forbidden;
     Catalog.tables_list := fun _ _ => Raise forbidden;
     Catalog.tables_get := fun _ => Raise forbidden |}.

(** Plotting that works on a frame with the columns it is asked for. *)
Definition plots : SqlExplorer.Plotting :=
  {| SqlExplorer.read_json := fun _ => Ok order_status_breakdown;
     SqlExplorer.px :=
       fun _ df x y =>
         if existsb (String.eqb x) (map fst (columns df))
            && existsb (String.eqb y) (map fst (columns df))
         then Ok tt
         else Raise (mkExn OtherError "Value of 'x' is not the name of a column") |}.

(** The table [samples.tpch.orders], and a catalog service that knows this
    table only. *)
Definition orders_table : Catalog.TableInfo :=
  {| Catalog.table_type := Some "MANAGED";
     Catalog.owner := None;
     Catalog.data_source_format := Some "DELTA";
     Catalog.comment := None;
     Catalog.columns :=
       Some [Catalog.mkColumnInfo (Some "o_orderkey") (Some "bigint")
               "ColumnTypeName.LONG" (Some false);
             Catalog.mkColumnInfo (Some "o_totalprice") None
               "ColumnTypeName.DECIMAL" (Some true)] |}.

Definition not_found : exn :=
  mkExn OtherError "TABLE_OR_VIEW_NOT_FOUND".

(** A catalog service whose catalogs hold no named schema. *)
Definition bare_catalog : Catalog.World :=
  {| Catalog.WorkspaceClient := Ok tt;
     Catalog.catalogs_list := Ok [Some "main"; Some "samples"];
     Catalog.schemas_list := fun _ => Ok [None];
     Catalog.tables_list := fun _ _ => Ok [];
     Catalog.tables_get := fun _ => Raise not_found |}.

Definition samples_orders : Catalog.World :=
  {| Catalog.WorkspaceClient := Ok tt;
     Catalog.catalogs_list := Ok [Some "main"; Some "samples"; Some "samples"];
     Catalog.schemas_list := Catalog.schemas_list two_catalogs;
     Catalog.tables_list := Catalog.tables_list two_catalogs;
     Catalog.tables_get :=
       fun full_name =>
         if String.eqb full_name "samples.tpch.orders" then Ok orders_table
         else Raise not_found |}.


(** A request whose delegated token the workspace rejects, and which
    carries one header twice. *)
Definition invalid_token : exn := mkExn OtherError "Invalid access token".

Definition expired_request : Identity.World :=
  {| Identity.request_headers :=
       Ok [("X-Forwarded-Access-Token", "dapi-old");
           ("X-Forwarded-Email", "ada@example.com");
           ("Accept", "text/html"); ("Accept", "*/*")];
     Identity.WorkspaceClient := fun _ => Ok tt;
     Identity.current_user_me := fun _ => Raise invalid_token;
     Identity.get_workspace_id := fun _ => unreachable;
     Identity.Config_host := fun _ => unreachable |}.

(** The token is accepted, the workspace id cannot be fetched. *)
Definition no_workspace_id : Identity.World :=
  {| Identity.request_headers := Identity.request_headers delegated_request;
     Identity.WorkspaceClient := fun _ => Ok tt;
     Identity.current_user_me := fun _ => Ok ada;
     Identity.get_workspace_id := fun _ => unreachable;
     Identity.Config_host := fun _ => Ok "adb-1.azuredatabricks.net" |}.

(** Reading the headers fails with something else than [RuntimeError]. *)
Definition broken_request : Identity.World :=
  {| Identity.request_headers :=
       Raise (mkExn OtherError "header parsing failed");
     Identity.WorkspaceClient := fun _ => unreachable;
     Identity.current_user_me := fun _ => unreachable;
     Identity.get_workspace_id := fun _ => unreachable;
     Identity.Config_host := fun _ => unreachable |}.


End Scenarios.

(* ================================================================== *)
(** * Properties of the text methods *)
(* ================================================================== *)

Module PyFacts.

Lemma append_assoc (a b c : string) :
  ((a ++ b) ++ c = a ++ (b ++ c))%string.
Proof. induction a as [|x a IH]; cbn; [reflexivity | now rewrite IH]. Qed.

Lemma append_nil_r (a : string) : (a ++ "")%string = a.
Proof. induction a as [|x a IH]; cbn; [reflexivity | now rewrite IH]. Qed.

Lemma is_whitespace_In (s : string) :
  is_whitespace s = true <-> In s whitespace.
Proof.
  unfold is_whitespace. rewrite existsb_exists. split.
  - intros (x & Hx & E). apply String.eqb_eq in E. now subst.
  - intros H. exists s. split; [exact H | apply String.eqb_refl].
Qed.

(** A white-space character takes one, two or three bytes. *)
Lemma whitespace_short (sp : string) :
  In sp whitespace ->
  (exists c1, sp = String c1 "") \/
  (exists c1 c2, sp = String c1 (String c2 "")) \/
  (exists c1 c2 c3, sp = String c1 (String c2 (String c3 ""))).
Proof.
  intros H. cbn in H.
  repeat (destruct H as [<-|H]; [eauto 6|]). destruct H.
Qed.

Lemma lstrip_skips (sp s : string) :
  In sp whitespace -> lstrip_ws (sp ++ s) = lstrip_ws s.
Proof.
  intros H. cbn in H.
  repeat (destruct H as [<-|H]; [reflexivity|]). destruct H.
Qed.

Lemma spaces_lstrip (s : string) : spaces s -> lstrip_ws s = "".
Proof.
  induction 1 as [|sp s Hsp Hs IH]; [reflexivity|].
  rewrite (lstrip_skips sp s Hsp). exact IH.
Qed.

Lemma spaces_app (a b : string) : spaces a -> spaces b -> spaces (a ++ b).
Proof.
  induction 1 as [|sp s Hsp Hs IH]; intros Hb; [exact Hb|].
  rewrite append_assoc. constructor; auto.
Qed.

Lemma spaces_one (sp : string) : In sp whitespace -> spaces sp.
Proof.
  intros H. rewrite <- (append_nil_r sp). constructor; [exact H | constructor].
Qed.

Lemma lstrip_split_upto (n : nat) :
  forall s, (String.length s <= n)%nat ->
    exists a, spaces a /\ s = (a ++ lstrip_ws s)%string.
Proof.
  induction n as [|n IH]; intros s Hl.
  - destruct s; [|cbn in Hl; lia]. exists "". split; [constructor | reflexivity].
  - destruct s as [|c1 s1]; [exists ""; split; [constructor | reflexivity]|].
    cbn [String.length] in Hl. cbn [lstrip_ws].
    destruct (is_whitespace (String c1 "")) eqn:E1.
    { destruct (IH s1 ltac:(lia)) as (a & Ha & Es).
      exists (String c1 "" ++ a)%string. split.
      - constructor; [apply is_whitespace_In; exact E1 | exact Ha].
      - cbn. f_equal. exact Es. }
    destruct s1 as [|c2 s2];
      [exists ""; split; [constructor | reflexivity]|].
    cbn [String.length] in Hl.
    destruct (is_whitespace (String c1 (String c2 ""))) eqn:E2.
    { destruct (IH s2 ltac:(lia)) as (a & Ha & Es).
      exists (String c1 (String c2 "") ++ a)%string. split.
      - constructor; [apply is_whitespace_In; exact E2 | exact Ha].
      - cbn. do 2 f_equal. exact Es. }
    destruct s2 as [|c3 s3];
      [exists ""; split; [constructor | reflexivity]|].
    cbn [String.length] in Hl.
    destruct (is_whitespace (String c1 (String c2 (String c3 "")))) eqn:E3.
    { destruct (IH s3 ltac:(lia)) as (a & Ha & Es).
      exists (String c1 (String c2 (String c3 "")) ++ a)%string. split.
      - constructor; [apply is_whitespace_In; exact E3 | exact Ha].
      - cbn. do 3 f_equal. exact Es. }
    exists "". split; [constructor | reflexivity].
Qed.

Lemma lstrip_split (s : string) :
  exists a, spaces a /\ s = (a ++ lstrip_ws s)%string.
Proof. apply (lstrip_split_upto (String.length s)). lia. Qed.

(** The first bytes of a text that starts with a white-space character. *)
Lemma starts_with_space_bytes (c1 : ascii) (s1 : string) :
  starts_with_space (String c1 s1) ->
  is_whitespace (String c1 "") = true \/
  exists c2 s2,
    s1 = String c2 s2 /\
    (is_whitespace (String c1 (String c2 "")) = true \/
     exists c3 s3,
       s2 = String c3 s3 /\
       is_whitespace (String c1 (String c2 (String c3 ""))) = true).
Proof.
  intros (sp & rest & Hsp & E).
  destruct (whitespace_short sp Hsp)
    as [(a & ->)|[(a & b & ->)|(a & b & c & ->)]];
    apply is_whitespace_In in Hsp; cbn in E; inversion E; subst.
  - left. exact Hsp.
  - right. do 2 eexists. split; [reflexivity|]. left. exact Hsp.
  - right. do 2 eexists. split; [reflexivity|]. right.
    do 2 eexists. split; [reflexivity | exact Hsp].
Qed.

Lemma lstrip_clean_upto (n : nat) :
  forall s, (String.length s <= n)%nat -> ~ starts_with_space (lstrip_ws s).
Proof.
  assert (N : ~ starts_with_space "").
  { intros (sp & rest & Hsp & E).
    destruct (whitespace_short sp Hsp)
      as [(a & ->)|[(a & b & ->)|(a & b & c & ->)]]; discriminate E. }
  induction n as [|n IH]; intros s Hl.
  - destruct s; [exact N | cbn in Hl; lia].
  - destruct s as [|c1 s1]; [exact N|].
    cbn [String.length] in Hl. cbn [lstrip_ws].
    destruct (is_whitespace (String c1 "")) eqn:E1; [apply IH; lia|].
    destruct s1 as [|c2 s2].
    { intros H. apply starts_with_space_bytes in H.
      destruct H as [H|(c & s & H & _)]; congruence. }
    cbn [String.length] in Hl.
    destruct (is_whitespace (String c1 (String c2 ""))) eqn:E2;
      [apply IH; lia|].
    destruct s2 as [|c3 s3].
    { intros H. apply starts_with_space_bytes in H.
      destruct H as [H|(c & s & H & [H'|(c' & s' & H' & _)])];
        [congruence | inversion H; subst; congruence
        | inversion H; subst; congruence]. }
    cbn [String.length] in Hl.
    destruct (is_whitespace (String c1 (String c2 (String c3 "")))) eqn:E3;
      [apply IH; lia|].
    intros H. apply starts_with_space_bytes in H.
    destruct H as [H|(c & s & H & [H'|(c' & s' & H' & H'')])];
      [congruence | inversion H; subst; congruence|].
    inversion H; subst. congruence.
Qed.

Lemma lstrip_clean (s : string) : ~ starts_with_space (lstrip_ws s).
Proof. apply (lstrip_clean_upto (String.length s)). lia. Qed.

Lemma rstrip_split (s : string) :
  exists b, spaces b /\ s = (rstrip_ws s ++ b)%string.
Proof.
  induction s as [|c s IH]; [exists ""; split; [constructor | reflexivity]|].
  destruct IH as (b & Hb & Es). cbn [rstrip_ws]. cbv zeta.
  destruct (is_whitespace (String c (rstrip_ws s))) eqn:E.
  - exists (String c (rstrip_ws s) ++ b)%string. split.
    + constructor; [apply is_whitespace_In; exact E | exact Hb].
    + cbn. f_equal. exact Es.
  - exists b. split; [exact Hb|]. cbn. f_equal. exact Es.
Qed.

Lemma rstrip_clean (s : string) : ~ ends_with_space (rstrip_ws s).
Proof.
  assert (N : ~ ends_with_space "").
  { intros (front & sp & Hsp & E).
    destruct front; [|discriminate E]. cbn in E. subst sp.
    destruct (whitespace_short "" Hsp)
      as [(a & H)|[(a & b & H)|(a & b & c & H)]]; discriminate H. }
  induction s as [|c s IH]; [exact N|].
  cbn [rstrip_ws]. cbv zeta.
  destruct (is_whitespace (String c (rstrip_ws s))) eqn:E; [exact N|].
  intros (front & sp & Hsp & Es). destruct front as [|d front].
  - cbn in Es. subst sp. apply is_whitespace_In in Hsp. congruence.
  - cbn in Es. inversion Es; subst. apply IH. exists front, sp. auto.
Qed.

(** [strip] removes white space at both ends, all of it and nothing
    else. *)
Lemma strip_spec (q : string) :
  exists a b,
    spaces a /\ spaces b /\ q = (a ++ strip q ++ b)%string /\
    ~ starts_with_space (strip q) /\ ~ ends_with_space (strip q).
Proof.
  unfold strip.
  destruct (lstrip_split q) as (a & Ha & Eq).
  destruct (rstrip_split (lstrip_ws q)) as (b & Hb & Et).
  exists a, b. split; [exact Ha|]. split; [exact Hb|]. split; [|split].
  - rewrite <- Et. exact Eq.
  - intros (sp & rest & Hsp & E). apply (lstrip_clean q).
    exists sp, (rest ++ b)%string. split; [exact Hsp|].
    rewrite Et at 1. rewrite E. apply append_assoc.
  - apply rstrip_clean.
Qed.

Lemma strip_empty (q : string) : strip q = "" <-> spaces q.
Proof.
  split.
  - intros H. destruct (strip_spec q) as (a & b & Ha & Hb & E & _).
    rewrite H in E. cbn in E. rewrite E. apply spaces_app; assumption.
  - intros H. unfold strip. rewrite (spaces_lstrip q H). reflexivity.
Qed.

(** A text whose last byte is no byte of a white-space character is left
    alone by [rstrip_ws]. *)
Lemma rstrip_ws_fixed (s : string) (c : ascii) :
  last_char s = Some c ->
  forallb (fun sp => negb (match last_char sp with
                           | Some d => Ascii.eqb d c
                           | None => false
                           end)) whitespace = true ->
  rstrip_ws s = s.
Proof.
  intros Hl Hc.
  assert (W : forall t, last_char t = Some c -> is_whitespace t = false).
  { intros t Ht. destruct (is_whitespace t) eqn:E; [|reflexivity].
    apply is_whitespace_In in E.
    rewrite forallb_forall in Hc. specialize (Hc t E).
    rewrite Ht, Ascii.eqb_refl in Hc. discriminate Hc. }
  induction s as [|a s IH]; [reflexivity|].
  cbn [rstrip_ws]. cbv zeta.
  destruct s as [|b s].
  - cbn [rstrip_ws]. rewrite (W _ Hl). reflexivity.
  - rewrite IH by exact Hl. rewrite (W _ Hl). reflexivity.
Qed.

(** [rstrip_by] removes the characters of the set at the end, all of them
    and nothing else. *)
Lemma rstrip_by_split (p : ascii -> bool) (s : string) :
  exists t, s = (rstrip_by p s ++ t)%string /\ all_chars p t = true.
Proof.
  induction s as [|c s IH]; [exists ""; split; reflexivity|].
  destruct IH as (t & Es & Ht). cbn [rstrip_by].
  destruct (rstrip_by p s) as [|d r] eqn:E.
  - destruct (p c) eqn:Pc.
    + exists (String c t). cbn in Es. subst s. split; [reflexivity|].
      cbn. rewrite Pc. exact Ht.
    + exists t. cbn in *. subst s. split; [reflexivity | exact Ht].
  - exists t. split; [|exact Ht]. cbn. f_equal. exact Es.
Qed.

Lemma rstrip_by_clean (p : ascii -> bool) (s : string) (c : ascii) :
  last_char (rstrip_by p s) = Some c -> p c = false.
Proof.
  induction s as [|a s IH]; cbn [rstrip_by]; [discriminate|].
  destruct (rstrip_by p s) as [|b r] eqn:E.
  - destruct (p a) eqn:Pa; cbn; [discriminate|].
    intros H. inversion H; subst. exact Pa.
  - intros H. apply IH. exact H.
Qed.

End PyFacts.

(* ================================================================== *)
(** * Properties of the cache *)
(* ================================================================== *)

Module LruCacheFacts.

Import LruCache.

Section Facts.

Context {K V : Type}.
Variable eqb : K -> K -> bool.
Hypothesis eqb_refl : forall k, eqb k k = true.

Let cache : Type := LruCache.t K V.

Lemma call_hit (f : K -> result V) (k : K) (c : cache) (v : V) :
  lookup eqb k c = Some v ->
  call eqb f k c =
    (Ok v, {| slot := slot c; hits := S (hits c); misses := misses c |}).
Proof.
  intros H. unfold call, enter. rewrite H. reflexivity.
Qed.

Lemma call_miss_raise (f : K -> result V) (k : K) (c : cache) (e : exn) :
  lookup eqb k c = None ->
  f k = Raise e ->
  call eqb f k c =
    (Raise e, {| slot := slot c; hits := hits c; misses := S (misses c) |}).
Proof.
  intros H Hf. unfold call, enter, leave. rewrite H, Hf. reflexivity.
Qed.

Lemma call_miss_ok (f : K -> result V) (k : K) (c : cache) (v : V) :
  lookup eqb k c = None ->
  f k = Ok v ->
  call eqb f k c =
    (Ok v, {| slot := Some (k, v); hits := hits c; misses := S (misses c) |}).
Proof.
  intros H Hf. unfold call, enter, leave, store. rewrite H, Hf.
  unfold lookup in *. cbn [slot hits misses]. rewrite H. reflexivity.
Qed.

Lemma lookup_stored (k : K) (v : V) (h m : nat) :
  lookup eqb k {| slot := Some (k, v); hits := h; misses := m |} = Some v.
Proof.
  unfold lookup. cbn. rewrite eqb_refl. reflexivity.
Qed.

Lemma store_kept (k : K) (v v' : V) (c : cache) :
  lookup eqb k c = Some v -> store eqb k v' c = c.
Proof.
  intros H. unfold store. rewrite H. reflexivity.
Qed.

Lemma store_fresh (k : K) (v' : V) (c : cache) :
  lookup eqb k c = None -> lookup eqb k (store eqb k v' c) = Some v'.
Proof.
  intros H. unfold store. rewrite H. apply lookup_stored.
Qed.

(** ** Interleavings *)

Lemma Forall2_stays_refl (k : K) (v : V) (pool : list (thread (V := V))) :
  Forall2 (stays_served k v) pool pool.
Proof. induction pool; constructor; unfold stays_served; auto. Qed.

Lemma Forall2_stays_trans (k : K) (v : V) (p1 : list (thread (V := V))) :
  forall p2 p3,
    Forall2 (stays_served k v) p1 p2 -> Forall2 (stays_served k v) p2 p3 ->
    Forall2 (stays_served k v) p1 p3.
Proof.
  induction p1 as [|a p1 IH]; intros p2 p3 H12 H23.
  - inversion H12; subst. inversion H23; subst. constructor.
  - inversion H12; subst. inversion H23; subst.
    constructor; [unfold stays_served in *; auto | eauto].
Qed.

Lemma step_thread_stored (f : K -> result V) (k : K) (v : V) th (c : cache) :
  lookup eqb k c = Some v ->
  on_key k th ->
  lookup eqb k (snd (step_thread eqb f th c)) = Some v /\
  slot (snd (step_thread eqb f th c)) = slot c /\
  misses (snd (step_thread eqb f th c)) = misses c /\
  on_key k (fst (step_thread eqb f th c)) /\
  stays_served k v th (fst (step_thread eqb f th c)).
Proof.
  intros H Hk. unfold stays_served, served.
  destruct th as [k'|k'|r]; cbn [step_thread on_key] in *; subst.
  - unfold enter. rewrite H. cbn. auto 6.
  - unfold leave. destruct (f k) as [v'|e]; cbn [fst snd on_key].
    + rewrite (store_kept k v v' c H).
      repeat split; auto. intros [E|E]; discriminate E.
    + repeat split; auto. intros [E|E]; discriminate E.
  - cbn. auto.
Qed.

Lemma step_pool_stored (f : K -> result V) (k : K) (v : V) :
  forall (i : nat) (pool : list thread) (c : cache),
    lookup eqb k c = Some v ->
    Forall (on_key k) pool ->
    lookup eqb k (snd (step_pool eqb f i pool c)) = Some v /\
    slot (snd (step_pool eqb f i pool c)) = slot c /\
    misses (snd (step_pool eqb f i pool c)) = misses c /\
    Forall (on_key k) (fst (step_pool eqb f i pool c)) /\
    Forall2 (stays_served k v) pool (fst (step_pool eqb f i pool c)).
Proof.
  intros i pool. revert i.
  induction pool as [|th rest IH]; intros i c H Hall; cbn [step_pool].
  - destruct i; cbn; auto.
  - inversion Hall as [|? ? Hth Hrest]; subst.
    destruct i as [|j]; cbn [step_pool].
    + pose proof (step_thread_stored f k v th c H Hth) as P.
      destruct (step_thread eqb f th c) as [th' c']. cbn [fst snd] in *.
      destruct P as (P1 & P2 & P3 & P4 & P5).
      repeat split; auto. constructor; auto using Forall2_stays_refl.
    + pose proof (IH j c H Hrest) as P.
      destruct (step_pool eqb f j rest c) as [rest' c']. cbn [fst snd] in *.
      destruct P as (P1 & P2 & P3 & P4 & P5).
      repeat split; auto. constructor; auto. unfold stays_served; auto.
Qed.

Lemma run_stored (k : K) (v : V) (sched : list (nat * (K -> result V))) :
  forall (pool : list thread) (c : cache),
    lookup eqb k c = Some v ->
    Forall (on_key k) pool ->
    lookup eqb k (snd (run eqb sched pool c)) = Some v /\
    slot (snd (run eqb sched pool c)) = slot c /\
    misses (snd (run eqb sched pool c)) = misses c /\
    Forall2 (stays_served k v) pool (fst (run eqb sched pool c)).
Proof.
  induction sched as [|[i f] sched IH]; intros pool c H Hall; cbn [run].
  - cbn. auto using Forall2_stays_refl.
  - pose proof (step_pool_stored f k v i pool c H Hall) as P.
    destruct (step_pool eqb f i pool c) as [pool1 c1]. cbn [fst snd] in *.
    destruct P as (P1 & P2 & P3 & P4 & P5).
    destruct (IH pool1 c1 P1 P4) as (Q1 & Q2 & Q3 & Q4).
    repeat split; try congruence.
    eapply Forall2_stays_trans; eauto.
Qed.

(** C9 (amended). Concurrent first calls of a cached getter are not
    coordinated. A caller that finds the key absent starts the computation
    itself, and when the computation succeeds it returns its own result; the
    result is stored only if the key is still absent, so the first result to
    complete is the only one stored and a later one leaves the cache as it
    is. Once a value is stored, whatever the schedule of the callers of that
    key, the stored value stays, no further computation is started, and every
    caller that had not yet looked the key up either still waits or has
    returned the stored value. *)
Theorem interleaved_first_calls (k : K) (c : cache) (f : K -> result V) :
  (lookup eqb k c = None ->
   step_thread eqb f (Calling k) c =
     (Running k,
      {| slot := slot c; hits := hits c; misses := S (misses c) |})) /\
  (forall v', f k = Ok v' ->
     fst (step_thread eqb f (Running k) c) = Returned (Ok v') /\
     (lookup eqb k c = None ->
      lookup eqb k (snd (step_thread eqb f (Running k) c)) = Some v') /\
     (forall v, lookup eqb k c = Some v ->
      snd (step_thread eqb f (Running k) c) = c)) /\
  (forall v sched pool,
     lookup eqb k c = Some v ->
     Forall (on_key k) pool ->
     lookup eqb k (snd (run eqb sched pool c)) = Some v /\
     misses (snd (run eqb sched pool c)) = misses c /\
     Forall2 (stays_served k v) pool (fst (run eqb sched pool c))).
Proof.
  split; [|split].
  - intros H. cbn [step_thread]. unfold enter. rewrite H. reflexivity.
  - intros v' Hf. cbn [step_thread]. unfold leave. rewrite Hf. cbn [fst snd].
    split; [reflexivity|]. split.
    + apply store_fresh.
    + intros v H. eapply store_kept; eauto.
  - intros v sched pool H Hall.
    destruct (run_stored k v sched pool c H Hall) as (Q1 & Q2 & Q3 & Q4).
    auto.
Qed.

End Facts.

End LruCacheFacts.

(* ================================================================== *)
(** * Properties of utils/sql_client.py *)
(* ================================================================== *)

Module SqlClientFacts.

Import LruCache SqlClient Scenarios.

Lemma unit_lookup (c : LruCache.t unit (option string)) :
  lookup unit_eqb tt c =
    match slot c with Some (_, v) => Some v | None => None end.
Proof. unfold lookup. destruct (slot c) as [[[] v]|]; reflexivity. Qed.

(** ** Warehouse discovery *)

Lemma first_match {A B} (p : A -> bool) (g : A -> B) (d : B) (l : list A) :
  match filter p l with x :: _ => g x | [] => d end =
  match find p l with Some x => g x | None => d end.
Proof.
  induction l as [|a l IH]; cbn; [reflexivity|].
  destruct (p a); [reflexivity | exact IH].
Qed.

Lemma discovery_never_raises (w : World) :
  exists hp, get_warehouse_http_path_wrapped w tt = Ok hp.
Proof.
  unfold get_warehouse_http_path_wrapped, try_except, bind, lift, ret.
  destruct (WorkspaceClient w); cbn; [|eauto].
  destruct (truthy_opt_str _); cbn; [eauto|].
  destruct (warehouses_list w) as [whs|]; cbn; [|eauto].
  destruct (filter is_serverless whs); cbn; [|eauto].
  destruct (filter is_running whs); cbn; [|eauto].
  destruct whs; cbn; eauto.
Qed.

Lemma discovery_client_fails (w : World) (e : exn) :
  WorkspaceClient w = Raise e ->
  get_warehouse_http_path_wrapped w tt = Ok None.
Proof.
  intros H. unfold get_warehouse_http_path_wrapped, try_except, bind, lift.
  rewrite H. reflexivity.
Qed.

Lemma discovery_override (w : World) :
  WorkspaceClient w = Ok tt ->
  truthy_opt_str (getenv_DATABRICKS_WAREHOUSE_ID w) = true ->
  get_warehouse_http_path_wrapped w tt =
    Ok (Some (http_path_of (getenv_DATABRICKS_WAREHOUSE_ID w))).
Proof.
  intros H T. unfold get_warehouse_http_path_wrapped, try_except, bind, lift.
  rewrite H, T. reflexivity.
Qed.

Lemma discovery_listing_fails (w : World) (e : exn) :
  WorkspaceClient w = Ok tt ->
  truthy_opt_str (getenv_DATABRICKS_WAREHOUSE_ID w) = false ->
  warehouses_list w = Raise e ->
  get_warehouse_http_path_wrapped w tt = Ok None.
Proof.
  intros H T L. unfold get_warehouse_http_path_wrapped, try_except, bind, lift.
  rewrite H, T, L. reflexivity.
Qed.

Lemma discovery_listing (w : World) (whs : list Warehouse) :
  WorkspaceClient w = Ok tt ->
  truthy_opt_str (getenv_DATABRICKS_WAREHOUSE_ID w) = false ->
  warehouses_list w = Ok whs ->
  get_warehouse_http_path_wrapped w tt =
    Ok match find is_serverless whs with
       | Some wh => Some (http_path_of (id wh))
       | None =>
           match find is_running whs with
           | Some wh => Some (http_path_of (id wh))
           | None =>
               match whs with
               | wh :: _ => Some (http_path_of (id wh))
               | [] => None
               end
           end
       end.
Proof.
  intros H T L. unfold get_warehouse_http_path_wrapped, try_except, bind, lift.
  rewrite H, T, L. cbn.
  rewrite <- (first_match is_serverless
                (fun wh => Some (http_path_of (id wh)))).
  destruct (filter is_serverless whs); [|reflexivity].
  rewrite <- (first_match is_running
                (fun wh => Some (http_path_of (id wh)))).
  destruct (filter is_running whs); [|reflexivity].
  destruct whs; reflexivity.
Qed.

(** ** The two cached getters on the process state *)

Lemma wh_first_call (w : World) (p : Proc) (hp : option string) :
  slot (wh_cache p) = None ->
  get_warehouse_http_path_wrapped w tt = Ok hp ->
  get_warehouse_http_path w p =
    (Ok hp,
     {| wh_cache := {| slot := Some (tt, hp); hits := hits (wh_cache p);
                       misses := S (misses (wh_cache p)) |};
        conn_cache := conn_cache p |}).
Proof.
  intros H Hw. unfold get_warehouse_http_path, on_wh_cache.
  rewrite (LruCacheFacts.call_miss_ok unit_eqb _ tt (wh_cache p) hp);
    [reflexivity | rewrite unit_lookup, H; reflexivity | exact Hw].
Qed.

Lemma wh_later_call (w : World) (p : Proc) (u : unit) (hp : option string) :
  slot (wh_cache p) = Some (u, hp) ->
  get_warehouse_http_path w p =
    (Ok hp,
     {| wh_cache := {| slot := slot (wh_cache p);
                       hits := S (hits (wh_cache p));
                       misses := misses (wh_cache p) |};
        conn_cache := conn_cache p |}).
Proof.
  intros H. unfold get_warehouse_http_path, on_wh_cache.
  rewrite (LruCacheFacts.call_hit unit_eqb _ tt (wh_cache p) hp);
    [reflexivity | rewrite unit_lookup, H; reflexivity].
Qed.

Lemma conn_hit (w : World) (k : string) (p : Proc) (c : Connection) :
  lookup String.eqb k (conn_cache p) = Some c ->
  get_connection w k p =
    (Ok c,
     {| wh_cache := wh_cache p;
        conn_cache := {| slot := slot (conn_cache p);
                         hits := S (hits (conn_cache p));
                         misses := misses (conn_cache p) |} |}).
Proof.
  intros H. unfold get_connection, on_conn_cache.
  rewrite (LruCacheFacts.call_hit String.eqb _ k (conn_cache p) c H).
  reflexivity.
Qed.

Lemma conn_miss_raise (w : World) (k : string) (p : Proc) (e : exn) :
  lookup String.eqb k (conn_cache p) = None ->
  get_connection_wrapped w k = Raise e ->
  get_connection w k p =
    (Raise e,
     {| wh_cache := wh_cache p;
        conn_cache := {| slot := slot (conn_cache p);
                         hits := hits (conn_cache p);
                         misses := S (misses (conn_cache p)) |} |}).
Proof.
  intros H Hf. unfold get_connection, on_conn_cache.
  rewrite (LruCacheFacts.call_miss_raise String.eqb _ k (conn_cache p) e H Hf).
  reflexivity.
Qed.

Lemma conn_miss_ok (w : World) (k : string) (p : Proc) (c : Connection) :
  lookup String.eqb k (conn_cache p) = None ->
  get_connection_wrapped w k = Ok c ->
  get_connection w k p =
    (Ok c,
     {| wh_cache := wh_cache p;
        conn_cache := {| slot := Some (k, c);
                         hits := hits (conn_cache p);
                         misses := S (misses (conn_cache p)) |} |}).
Proof.
  intros H Hf. unfold get_connection, on_conn_cache.
  rewrite (LruCacheFacts.call_miss_ok String.eqb _ k (conn_cache p) c H Hf).
  reflexivity.
Qed.


Lemma discovery_fails_None (w : World) :
  discovery_fails w -> get_warehouse_http_path_wrapped w tt = Ok None.
Proof.
  intros [[e H]|(H & T & e & L)].
  - eapply discovery_client_fails; eauto.
  - eapply discovery_listing_fails; eauto.
Qed.

Lemma run_query_no_warehouse (w : World) (query : string) (p : Proc) :
  slot (wh_cache p) = None ->
  get_warehouse_http_path_wrapped w tt = Ok None ->
  fst (run_query w query p) =
    Raise (mkExn RuntimeError "No SQL warehouse available.").
Proof.
  intros H Hw. unfold run_query, bind.
  rewrite (wh_first_call w p None H Hw). reflexivity.
Qed.

(** ** Repeated calls *)

Lemma wh_calls_stored (ws : list World) (hp : option string) :
  forall (p : Proc) (u : unit),
    slot (wh_cache p) = Some (u, hp) ->
    Forall (fun r => r = Ok hp)
      (fst (sequence (map get_warehouse_http_path ws) p)) /\
    slot (wh_cache (snd (sequence (map get_warehouse_http_path ws) p))) =
      slot (wh_cache p) /\
    misses (wh_cache (snd (sequence (map get_warehouse_http_path ws) p))) =
      misses (wh_cache p).
Proof.
  induction ws as [|w ws IH]; intros p u H; cbn [map sequence].
  - cbn. auto.
  - rewrite (wh_later_call w p u hp H).
    match goal with |- context [sequence _ ?q] => set (p1 := q) end.
    assert (H1 : slot (wh_cache p1) = Some (u, hp)) by exact H.
    specialize (IH p1 u H1).
    destruct (sequence (map get_warehouse_http_path ws) p1) as [rs p2].
    cbn [fst snd] in *. destruct IH as (A & B & C).
    repeat split; auto.
Qed.

Lemma conn_calls_stored (ws : list World) (k : string) (c : Connection) :
  forall p : Proc,
    lookup String.eqb k (conn_cache p) = Some c ->
    Forall (fun r => r = Ok c)
      (fst (sequence (map (fun w => get_connection w k) ws) p)) /\
    slot (conn_cache
            (snd (sequence (map (fun w => get_connection w k) ws) p))) =
      slot (conn_cache p) /\
    misses (conn_cache
              (snd (sequence (map (fun w => get_connection w k) ws) p))) =
      misses (conn_cache p).
Proof.
  induction ws as [|w ws IH]; intros p H; cbn [map sequence].
  - cbn. auto.
  - rewrite (conn_hit w k p c H).
    match goal with |- context [sequence _ ?q] => set (p1 := q) end.
    assert (H1 : lookup String.eqb k (conn_cache p1) = Some c) by exact H.
    specialize (IH p1 H1).
    destruct (sequence (map (fun w0 => get_connection w0 k) ws) p1)
      as [rs p2].
    cbn [fst snd] in *. destruct IH as (A & B & C).
    repeat split; auto.
Qed.

(** ** [run_query] keeps the stored connection *)

Lemma run_query_keeps (w : World) (query : string) (p : Proc) :
  coherent p ->
  coherent (snd (run_query w query p)) /\
  (forall k c,
     slot (conn_cache p) = Some (k, c) ->
     slot (conn_cache (snd (run_query w query p))) = Some (k, c) /\
     misses (conn_cache (snd (run_query w query p))) =
       misses (conn_cache p)).
Proof.
  intros Hco. unfold run_query, bind.
  destruct (slot (wh_cache p)) as [[[] hp]|] eqn:Hwh.
  - rewrite (wh_later_call w p tt hp Hwh).
    destruct (truthy_opt_str hp) eqn:T; cbn [negb].
    + destruct hp as [k'|]; [|discriminate T]. cbn [fmt_opt_str].
      match goal with |- context [get_connection w k' ?q] => set (p1 := q) end.
      destruct (slot (conn_cache p)) as [[k c]|] eqn:Hc.
      * assert (E : Some (tt, Some k') = Some (tt, Some k)).
        { rewrite <- Hwh. apply (Hco k c). exact Hc. }
        inversion E; subst k'. clear E.
        assert (L : lookup String.eqb k (conn_cache p1) = Some c).
        { unfold lookup. cbn. rewrite Hc, String.eqb_refl. reflexivity. }
        rewrite (conn_hit w k p1 c L). unfold lift.
        cbn [fst snd conn_cache wh_cache slot misses].
        split.
        -- intros k2 c2 H2. cbn in H2. rewrite Hc in H2. inversion H2; subst.
           cbn. exact Hwh.
        -- intros k2 c2 H2. inversion H2; subst. cbn. rewrite Hc. auto.
      * assert (L : lookup String.eqb k' (conn_cache p1) = None).
        { unfold lookup. cbn. rewrite Hc. reflexivity. }
        destruct (get_connection_wrapped w k') as [c|e] eqn:Hf.
        -- rewrite (conn_miss_ok w k' p1 c L Hf). unfold lift.
           cbn [fst snd conn_cache wh_cache slot misses].
           split; [|intros k2 c2 H2; congruence].
           intros k2 c2 H2. cbn in H2. inversion H2; subst.
           cbn. rewrite Hwh. reflexivity.
        -- rewrite (conn_miss_raise w k' p1 e L Hf).
           cbn [fst snd conn_cache wh_cache slot misses].
           split; [|intros k2 c2 H2; congruence].
           intros k2 c2 H2. cbn in H2. rewrite Hc in H2. discriminate H2.
    + unfold raise. cbn [fst snd conn_cache wh_cache slot misses].
      split; [|auto].
      intros k c H. cbn. apply (Hco k c). exact H.
  - assert (Hc : slot (conn_cache p) = None).
    { destruct (slot (conn_cache p)) as [[k c]|] eqn:Hc; [|reflexivity].
      specialize (Hco k c Hc). congruence. }
    destruct (discovery_never_raises w) as [hp Hw].
    rewrite (wh_first_call w p hp Hwh Hw).
    destruct (truthy_opt_str hp) eqn:T; cbn [negb].
    + destruct hp as [k'|]; [|discriminate T]. cbn [fmt_opt_str].
      match goal with |- context [get_connection w k' ?q] => set (p1 := q) end.
      assert (L : lookup String.eqb k' (conn_cache p1) = None).
      { unfold lookup. cbn. rewrite Hc. reflexivity. }
      destruct (get_connection_wrapped w k') as [c|e] eqn:Hf.
      * rewrite (conn_miss_ok w k' p1 c L Hf). unfold lift.
        cbn [fst snd conn_cache wh_cache slot misses].
        split; [|intros k2 c2 H2; congruence].
        intros k2 c2 H2. cbn in H2. inversion H2; subst. reflexivity.
      * rewrite (conn_miss_raise w k' p1 e L Hf).
        cbn [fst snd conn_cache wh_cache slot misses].
        split; [|intros k2 c2 H2; congruence].
        intros k2 c2 H2. cbn in H2. rewrite Hc in H2. discriminate H2.
    + unfold raise. cbn [fst snd conn_cache wh_cache slot misses].
      split; [|intros k2 c2 H2; congruence].
      intros k c H. cbn in H. congruence.
Qed.

Lemma run_queries_keep (qs : list (World * string)) :
  forall p : Proc,
    coherent p ->
    coherent
      (snd (sequence (map (fun q => run_query (fst q) (snd q)) qs) p)) /\
    (forall k c,
       slot (conn_cache p) = Some (k, c) ->
       slot (conn_cache
               (snd (sequence (map (fun q => run_query (fst q) (snd q)) qs)
                       p))) = Some (k, c) /\
       misses (conn_cache
                 (snd (sequence (map (fun q => run_query (fst q) (snd q)) qs)
                         p))) = misses (conn_cache p)).
Proof.
  induction qs as [|[w q] qs IH]; intros p Hco; cbn [map sequence fst snd].
  - cbn. auto.
  - destruct (run_query_keeps w q p Hco) as [Hco1 Hk1].
    destruct (run_query w q p) as [r p1]. cbn [fst snd] in *.
    destruct (IH p1 Hco1) as [Hco2 Hk2].
    destruct (sequence (map (fun q0 => run_query (fst q0) (snd q0)) qs) p1)
      as [rs p2].
    cbn [fst snd] in *. split; [exact Hco2|].
    intros k c H. destruct (Hk1 k c H) as [A B].
    destruct (Hk2 k c A) as [C D]. split; congruence.
Qed.

Lemma coherent_init : coherent init.
Proof. intros k c H. discriminate H. Qed.


(** ** C1: a failed first computation *)

(** C1 as stated fails for [get_warehouse_http_path]: with the workspace
    unreachable the first call does not raise, it returns [None] and stores
    it; a second call made when the workspace answers, and when discovery
    would resolve the override, still returns the stored [None] and runs
    nothing. *)
Lemma discovery_failure_is_stored :
  fst (get_warehouse_http_path offline init) = Ok None /\
  slot (wh_cache (snd (get_warehouse_http_path offline init))) =
    Some (tt, None) /\
  get_warehouse_http_path_wrapped (online (Some "abc123") [] 1) tt =
    Ok (Some "/sql/1.0/warehouses/abc123") /\
  fst (get_warehouse_http_path (online (Some "abc123") [] 1)
         (snd (get_warehouse_http_path offline init))) = Ok None /\
  misses (wh_cache
            (snd (get_warehouse_http_path (online (Some "abc123") [] 1)
                    (snd (get_warehouse_http_path offline init))))) = 1.
Proof. repeat split. Qed.

(** C1 (amended). [get_connection]: when the computation fails on a key
    that is not stored, the failure is raised to the caller, nothing is
    stored, and the next call with that key runs the computation again and
    returns what it then yields. [get_warehouse_http_path]: a failure met
    during discovery is not raised; the call returns [None], that [None] is
    stored, and the next call returns it without running discovery. *)
Theorem failed_first_computation (w w' : World) (p : Proc) :
  (forall k e,
     lookup String.eqb k (conn_cache p) = None ->
     get_connection_wrapped w k = Raise e ->
     fst (get_connection w k p) = Raise e /\
     slot (conn_cache (snd (get_connection w k p))) = slot (conn_cache p) /\
     fst (get_connection w' k (snd (get_connection w k p))) =
       get_connection_wrapped w' k /\
     misses (conn_cache
               (snd (get_connection w' k (snd (get_connection w k p))))) =
       S (S (misses (conn_cache p)))) /\
  (slot (wh_cache p) = None ->
   discovery_fails w ->
   fst (get_warehouse_http_path w p) = Ok None /\
   slot (wh_cache (snd (get_warehouse_http_path w p))) = Some (tt, None) /\
   fst (get_warehouse_http_path w' (snd (get_warehouse_http_path w p))) =
     Ok None /\
   misses (wh_cache
             (snd (get_warehouse_http_path w'
                     (snd (get_warehouse_http_path w p))))) =
     S (misses (wh_cache p))).
Proof.
  split.
  - intros k e L Hf. rewrite (conn_miss_raise w k p e L Hf). cbn [fst snd].
    match goal with |- context [get_connection w' k ?q] => set (p1 := q) end.
    assert (L1 : lookup String.eqb k (conn_cache p1) = None) by exact L.
    split; [reflexivity|]. split; [reflexivity|].
    destruct (get_connection_wrapped w' k) as [c|e'] eqn:Hf'.
    + rewrite (conn_miss_ok w' k p1 c L1 Hf'). split; reflexivity.
    + rewrite (conn_miss_raise w' k p1 e' L1 Hf'). split; reflexivity.
  - intros H Hfail.
    rewrite (wh_first_call w p None H (discovery_fails_None w Hfail)).
    cbn [fst snd wh_cache slot].
    match goal with
    | |- context [get_warehouse_http_path w' ?q] => set (p1 := q)
    end.
    rewrite (wh_later_call w' p1 tt None eq_refl).
    repeat split.
Qed.

Lemma failed_first_computation_witness :
  fst (get_connection offline "/a" init) = Raise no_credentials /\
  fst (get_connection (online None [] 7) "/a"
         (snd (get_connection offline "/a" init))) = Ok 7.
Proof.
  pose proof
    (proj1 (failed_first_computation offline (online None [] 7) init)
       "/a" no_credentials eq_refl eq_refl) as H.
  split; [exact (proj1 H) | exact (proj1 (proj2 (proj2 H)))].
Defined.

(** ** C2: warehouse discovery *)

(** C2 as stated fails: the override is not returned unconditionally. The
    client is built first, and when that raises the override is ignored and
    no warehouse is reported. *)
Lemma override_needs_the_client :
  getenv_DATABRICKS_WAREHOUSE_ID offline = Some "abc123" /\
  fst (get_warehouse_http_path offline init) = Ok None.
Proof. split; reflexivity. Qed.

(** An override set to the empty string counts as unset: the listing is
    consulted. *)
Example empty_override_is_unset :
  fst (get_warehouse_http_path (online (Some "") three_warehouses 1) init) =
    Ok (Some "/sql/1.0/warehouses/w-serverless").
Proof. reflexivity. Qed.

(** C2 (amended). On an empty cache [get_warehouse_http_path] returns what
    discovery yields, and discovery follows this chain. If building the
    workspace client raises, no warehouse is reported. Otherwise, if
    DATABRICKS_WAREHOUSE_ID is set to a non-empty value, the path built from
    it is returned and the listing is not consulted. Otherwise, if the
    listing raises, no warehouse is reported; else the first
    serverless-capable warehouse in listing order is chosen, else the first
    one in RUNNING state, else the first one listed, else no warehouse is
    reported. When no warehouse is reported [run_query] raises
    "No SQL warehouse available.". *)
Theorem warehouse_discovery_chain (w : World) :
  (forall p, slot (wh_cache p) = None ->
     fst (get_warehouse_http_path w p) = get_warehouse_http_path_wrapped w tt)
  /\
  (forall e, WorkspaceClient w = Raise e ->
     get_warehouse_http_path_wrapped w tt = Ok None) /\
  (forall wid,
     WorkspaceClient w = Ok tt ->
     getenv_DATABRICKS_WAREHOUSE_ID w = Some wid ->
     wid <> "" ->
     get_warehouse_http_path_wrapped w tt =
       Ok (Some ("/sql/1.0/warehouses/" ++ wid)%string)) /\
  (WorkspaceClient w = Ok tt ->
   truthy_opt_str (getenv_DATABRICKS_WAREHOUSE_ID w) = false ->
   (forall e, warehouses_list w = Raise e ->
      get_warehouse_http_path_wrapped w tt = Ok None) /\
   (forall whs, warehouses_list w = Ok whs ->
      get_warehouse_http_path_wrapped w tt =
        Ok match find is_serverless whs with
           | Some wh => Some (http_path_of (id wh))
           | None =>
               match find is_running whs with
               | Some wh => Some (http_path_of (id wh))
               | None =>
                   match whs with
                   | wh :: _ => Some (http_path_of (id wh))
                   | [] => None
                   end
               end
           end)) /\
  (forall p query,
     slot (wh_cache p) = None ->
     get_warehouse_http_path_wrapped w tt = Ok None ->
     fst (run_query w query p) =
       Raise (mkExn RuntimeError "No SQL warehouse available.")).
Proof.
  split; [|split; [|split; [|split]]].
  - intros p H. destruct (discovery_never_raises w) as [hp Hw].
    rewrite (wh_first_call w p hp H Hw), Hw. reflexivity.
  - apply discovery_client_fails.
  - intros wid H E Hne.
    rewrite (discovery_override w H).
    + rewrite E. reflexivity.
    + rewrite E. destruct wid; [congruence | reflexivity].
  - intros H T. split.
    + intros e. apply discovery_listing_fails; assumption.
    + intros whs. apply discovery_listing; assumption.
  - intros p query. apply run_query_no_warehouse.
Qed.

Lemma warehouse_discovery_chain_witness :
  get_warehouse_http_path_wrapped (online (Some "abc123") three_warehouses 1)
    tt = Ok (Some "/sql/1.0/warehouses/abc123") /\
  get_warehouse_http_path_wrapped (online None three_warehouses 1) tt =
    Ok (Some "/sql/1.0/warehouses/w-serverless") /\
  fst (run_query (online None [] 1) "SELECT 1" init) =
    Raise (mkExn RuntimeError "No SQL warehouse available.").
Proof.
  split; [|split].
  - apply (proj1 (proj2 (proj2
             (warehouse_discovery_chain
                (online (Some "abc123") three_warehouses 1))))
             "abc123" eq_refl eq_refl).
    discriminate.
  - exact (proj2 (proj1 (proj2 (proj2 (proj2
             (warehouse_discovery_chain (online None three_warehouses 1)))))
             eq_refl eq_refl) three_warehouses eq_refl).
  - exact (proj2 (proj2 (proj2 (proj2
             (warehouse_discovery_chain (online None [] 1)))))
             init "SELECT 1" eq_refl eq_refl).
Defined.

(** The lower tiers of the chain on concrete listings. *)
Example running_tier :
  get_warehouse_http_path_wrapped
    (online None
       [ {| id := Some "a"; enable_serverless_compute := Some false;
            state := Some "STOPPED" |};
         {| id := Some "b"; enable_serverless_compute := None;
            state := Some "RUNNING" |} ] 1) tt =
    Ok (Some "/sql/1.0/warehouses/b").
Proof. reflexivity. Qed.

Example first_listed_tier :
  get_warehouse_http_path_wrapped
    (online None
       [ {| id := Some "a"; enable_serverless_compute := Some false;
            state := Some "STOPPED" |};
         {| id := Some "b"; enable_serverless_compute := None;
            state := None |} ] 1) tt =
    Ok (Some "/sql/1.0/warehouses/a").
Proof. reflexivity. Qed.

(** ** C6: a stored value is reused *)

(** C6 as stated fails for [get_connection]: the cache holds one entry, so
    a call with another key evicts the stored connection, and the next call
    with the first key runs the computation again and returns a new
    connection. *)
Lemma other_key_evicts :
  sequence
    [ get_connection (online None [] 1) "/a";
      get_connection (online None [] 2) "/b";
      get_connection (online None [] 3) "/a" ] init =
  ([Ok 1; Ok 2; Ok 3],
   {| wh_cache := LruCache.empty;
      conn_cache := {| slot := Some ("/a", 3); hits := 0; misses := 3 |} |}).
Proof. reflexivity. Qed.

(** C6 (amended). Once a value is stored for a key, every later call with
    that key returns the stored value without running the computation,
    whatever the collaborators would answer by then, as long as no call with
    another key was made in between: there is no expiry and no invalidation,
    but the cache holds a single entry and a call with another key replaces
    it. [get_warehouse_http_path] has a single key, so its value is kept for
    the life of the process. [run_query] only ever asks for the connection
    of the stored warehouse path, so in the application a stored connection
    is kept for the life of the process as well. *)
Theorem stored_value_is_reused :
  (forall ws p u hp,
     slot (wh_cache p) = Some (u, hp) ->
     Forall (fun r => r = Ok hp)
       (fst (sequence (map get_warehouse_http_path ws) p)) /\
     slot (wh_cache (snd (sequence (map get_warehouse_http_path ws) p))) =
       slot (wh_cache p) /\
     misses (wh_cache (snd (sequence (map get_warehouse_http_path ws) p))) =
       misses (wh_cache p)) /\
  (forall ws k p c,
     lookup String.eqb k (conn_cache p) = Some c ->
     Forall (fun r => r = Ok c)
       (fst (sequence (map (fun w => get_connection w k) ws) p)) /\
     slot (conn_cache
             (snd (sequence (map (fun w => get_connection w k) ws) p))) =
       slot (conn_cache p) /\
     misses (conn_cache
               (snd (sequence (map (fun w => get_connection w k) ws) p))) =
       misses (conn_cache p)) /\
  (forall qs qs' k c,
     let p := snd (sequence (map (fun q => run_query (fst q) (snd q)) qs)
                     init) in
     let p' := snd (sequence (map (fun q => run_query (fst q) (snd q)) qs')
                      p) in
     slot (conn_cache p) = Some (k, c) ->
     slot (conn_cache p') = Some (k, c) /\
     misses (conn_cache p') = misses (conn_cache p)).
Proof.
  split; [|split].
  - intros ws p u hp. apply wh_calls_stored.
  - intros ws k p c. apply conn_calls_stored.
  - intros qs qs' k c p p' H.
    destruct (run_queries_keep qs init coherent_init) as [Hco _].
    destruct (run_queries_keep qs' p Hco) as [_ Hk].
    exact (Hk k c H).
Qed.

Lemma stored_value_is_reused_witness :
  Forall (fun r => r = Ok 1)
    (fst (sequence
            (map (fun w => get_connection w "/a")
               [online None [] 2; offline; online None [] 3])
            (snd (get_connection (online None [] 1) "/a" init)))).
Proof.
  exact (proj1 (proj1 (proj2 stored_value_is_reused)
                  [online None [] 2; offline; online None [] 3] "/a"
                  (snd (get_connection (online None [] 1) "/a" init)) 1
                  eq_refl)).
Defined.

(** ** C9: concurrent first calls *)

(** C9 as stated fails: two threads call [get_connection] with the same
    path on an empty cache; both miss before either has finished, both run
    the computation (two misses), and each returns the connection it opened
    itself. Only the first one is stored. *)
Lemma racing_first_calls_differ :
  run String.eqb
    [ (0, get_connection_wrapped (online None [] 1));
      (1, get_connection_wrapped (online None [] 2));
      (0, get_connection_wrapped (online None [] 1));
      (1, get_connection_wrapped (online None [] 2)) ]
    [Calling "/a"; Calling "/a"] LruCache.empty =
  ([Returned (Ok 1); Returned (Ok 2)],
   {| slot := Some ("/a", 1); hits := 0; misses := 2 |}).
Proof. reflexivity. Qed.

(** A caller that arrives after the store is handed the stored
    connection. *)
Lemma interleaved_first_calls_witness :
  let c := {| slot := Some ("/a", 1); hits := 0; misses := 1 |} in
  let sched :=
    [ (1, get_connection_wrapped (online None [] 2));
      (0, get_connection_wrapped (online None [] 3)) ] in
  lookup String.eqb "/a"
    (snd (run String.eqb sched [Calling "/a"; Running "/a"] c)) = Some 1 /\
  misses (snd (run String.eqb sched [Calling "/a"; Running "/a"] c)) = 1 /\
  Forall2 (stays_served "/a" 1) [Calling "/a"; Running "/a"]
    (fst (run String.eqb sched [Calling "/a"; Running "/a"] c)).
Proof.
  intros c sched.
  apply (proj2 (proj2
           (LruCacheFacts.interleaved_first_calls String.eqb String.eqb_refl
              "/a" c (get_connection_wrapped offline)))
           1 sched [Calling "/a"; Running "/a"] eq_refl).
  repeat constructor.
Defined.

End SqlClientFacts.

(* ================================================================== *)
(** * Properties of pages/sql_explorer.py *)
(* ================================================================== *)

Module SqlExplorerFacts.

Import LruCache SqlClient Components SqlExplorer Scenarios.

(** ** C3: the soft row cap *)

Example statement_wrapped :
  statement "select * from samples.tpch.orders" (Some 500%Z) =
    "SELECT * FROM (select * from samples.tpch.orders) _q LIMIT 500".
Proof. reflexivity. Qed.

Example statement_default_cap :
  statement "  SELECT 1;  " None = "SELECT * FROM (SELECT 1) _q LIMIT 500".
Proof. reflexivity. Qed.

Example statement_passed_through :
  statement "SELECT * FROM samples.tpch.orders LiMiT 20;" (Some 500%Z) =
    "SELECT * FROM samples.tpch.orders LiMiT 20".
Proof. reflexivity. Qed.

(** The check is on the letters, not on the grammar: a column name is
    enough to switch the cap off. *)
Example statement_heuristic :
  statement "SELECT credit_limit FROM accounts" (Some 500%Z) =
    "SELECT credit_limit FROM accounts".
Proof. reflexivity. Qed.

(** [run_query] hands the text it was given to the cursor, unchanged. *)
Lemma run_query_passes_text (w : SqlClient.World) (query path : string)
  (c : Connection) (p p1 p2 : Proc) :
  get_warehouse_http_path w p = (Ok (Some path), p1) ->
  path <> "" ->
  get_connection w path p1 = (Ok c, p2) ->
  run_query w query p = (cursor_execute w c query, p2).
Proof.
  intros H1 Hne H2. unfold run_query, bind. rewrite H1.
  destruct path as [|a path]; [congruence|].
  cbn [truthy_opt_str truthy_str negb fmt_opt_str]. rewrite H2. reflexivity.
Qed.

Lemma run_query_result (w : SqlClient.World) (query : string)
  (p : Proc) :
  forall df p', run_query w query p = (Ok df, p') ->
  exists c, cursor_execute w c query = Ok df.
Proof.
  intros df p'. unfold run_query, bind.
  destruct (get_warehouse_http_path w p) as [[hp|e] p1]; [|discriminate].
  destruct (negb (truthy_opt_str hp)); [discriminate|].
  destruct (get_connection w (fmt_opt_str hp) p1) as [[c|e] p2];
    [|discriminate].
  unfold lift. intros H. inversion H. eauto.
Qed.

(** What [run_sql] shows as results is made of the frame that the cursor
    answered for the statement. *)
Lemma run_sql_shows_the_answer (w : SqlExplorer.World) (query : string)
  (max_rows : option Z) (p p' : Proc) (results : list component)
  (json : string) :
  run_sql w (Some query) max_rows p = (Ok (results, Some json), p') ->
  exists c df,
    cursor_execute (sql w) c (statement query max_rows) = Ok df /\
    results = content df.
Proof.
  unfold run_sql. destruct (blank (Some query)); [discriminate|].
  cbn [fmt_opt_str]. unfold bind, try_except, ret, lift.
  destruct (run_query (sql w) (statement query max_rows) p)
    as [[df|e] p1] eqn:E; [|discriminate].
  destruct (to_json w df) as [j|e]; [|discriminate].
  intros H. inversion H; subst.
  destruct (run_query_result (sql w) _ p _ _ E) as [c Hc]. eauto.
Qed.

(** C3 (amended). [run_sql] trims the submitted text: the white space at
    both ends is removed, all of it and nothing else, and then the
    semicolons at the end, giving [safe]. When [safe] does not contain the
    letters "limit" in any case, the executed statement is the text
    [SELECT * FROM (safe) _q LIMIT cap], where [cap] is the requested
    maximum, or 500 when none (or zero) is given; when [safe] contains them,
    the executed statement is [safe] itself, with no LIMIT added. The rows
    shown are those that the cursor answers for that statement: the wrapper
    is text, and their number is the warehouse's doing. A blank text
    executes nothing. *)
Theorem soft_row_cap (w : SqlExplorer.World) (query : string)
  (max_rows : option Z) (p : Proc) :
  let safe := rstrip ";" (strip query) in
  (exists a b t,
     spaces a /\ spaces b /\
     query = (a ++ strip query ++ b)%string /\
     ~ starts_with_space (strip query) /\
     ~ ends_with_space (strip query) /\
     strip query = (safe ++ t)%string /\
     all_chars (fun c => Ascii.eqb c ";") t = true /\
     last_char safe <> Some ";"%char) /\
  (contains "limit" (lower safe) = false ->
   statement query max_rows =
     ("SELECT * FROM (" ++ safe ++ ") _q LIMIT "
      ++ str_of_Z (or_500 max_rows))%string) /\
  (contains "limit" (lower safe) = true ->
   statement query max_rows = safe) /\
  (or_500 None = 500%Z /\ or_500 (Some 0%Z) = 500%Z /\
   forall n, n <> 0%Z -> or_500 (Some n) = n) /\
  (blank (Some query) = false ->
   run_sql w (Some query) max_rows p =
     match run_query (sql w) (statement query max_rows) p with
     | (Ok df, p') =>
         match to_json w df with
         | Ok json => (Ok (content df, Some json), p')
         | Raise e => (Raise e, p')
         end
     | (Raise e, p') => (Ok ([error_alert (exn_msg e)], None), p')
     end) /\
  (forall results json p',
     run_sql w (Some query) max_rows p = (Ok (results, Some json), p') ->
     exists c df,
       cursor_execute (sql w) c (statement query max_rows) = Ok df /\
       results = content df /\
       hd (Txt "") results =
         El "dbc.Alert" [("color", AStr "success")]
           [Txt ("✅ " ++ fmt_thousands (nrows df) ++ " rows returned")]) /\
  (blank (Some query) = true ->
   run_sql w (Some query) max_rows p =
     (Ok ([El "dbc.Alert" [("color", AStr "warning")]
             [Txt "Please enter a SQL query."]], None), p)).
Proof.
  intros safe. split; [|split; [|split; [|split; [|split; [|split]]]]].
  - destruct (PyFacts.strip_spec query) as (a & b & Ha & Hb & E & Hs & He).
    destruct (PyFacts.rstrip_by_split (fun c => mem_ascii c ";")
                (strip query)) as (t & Et & Ht).
    exists a, b, t. repeat split; try assumption.
    + clear Et. induction t as [|c t IH]; [reflexivity|].
      cbn in Ht. apply andb_true_iff in Ht. destruct Ht as [H1 H2].
      cbn. rewrite (IH H2). rewrite orb_false_r in H1. rewrite H1.
      reflexivity.
    + intros H. apply PyFacts.rstrip_by_clean in H. discriminate H.
  - intros H. unfold statement. fold safe. rewrite H. reflexivity.
  - intros H. unfold statement. fold safe. rewrite H. reflexivity.
  - repeat split. intros n Hn. unfold or_500, truthy_Z.
    destruct (Z.eqb_spec n 0); [contradiction | reflexivity].
  - intros H. unfold run_sql. rewrite H. cbn [fmt_opt_str].
    unfold bind, try_except, ret, lift.
    destruct (run_query (sql w) (statement query max_rows) p)
      as [[df|e] p']; [|reflexivity].
    destruct (to_json w df); reflexivity.
  - intros results json p' H.
    destruct (run_sql_shows_the_answer w query max_rows p p' results json H)
      as (c & df & Hc & ->).
    exists c, df. repeat split. exact Hc.
  - intros H. unfold run_sql. rewrite H. reflexivity.
Qed.

Lemma soft_row_cap_witness :
  statement "SELECT o_orderkey FROM samples.tpch.orders;" (Some 500%Z) =
    "SELECT * FROM (SELECT o_orderkey FROM samples.tpch.orders) _q LIMIT 500"
  /\
  statement "SELECT * FROM samples.tpch.orders LIMIT 20" (Some 500%Z) =
    "SELECT * FROM samples.tpch.orders LIMIT 20"
  /\
  statement
    (String "194" (String "160" "SELECT 1 ;;")
     ++ String "227" (String "128" (String "128" nl))) None =
    "SELECT * FROM (SELECT 1 ) _q LIMIT 500".
Proof.
  split; [|split].
  - exact (proj1 (proj2 (soft_row_cap (explorer offline)
                    "SELECT o_orderkey FROM samples.tpch.orders;"
                    (Some 500%Z) init)) eq_refl).
  - exact (proj1 (proj2 (proj2 (soft_row_cap (explorer offline)
                           "SELECT * FROM samples.tpch.orders LIMIT 20"
                           (Some 500%Z) init))) eq_refl).
  - exact (proj1 (proj2 (soft_row_cap (explorer offline)
                    (String "194" (String "160" "SELECT 1 ;;")
                     ++ String "227" (String "128" (String "128" nl)))
                    None init)) eq_refl).
Defined.

(** The cap is not a bound on the rows. The text below has no "limit" in
    it, so it is wrapped; it closes the parenthesis of the wrapper and
    starts a comment, which leaves the wrapper's [LIMIT 500] out of the
    statement that the warehouse reads: all 501 rows of the table come
    back, on a warehouse that answers 500 rows when the inner text is the
    plain [SELECT * FROM big]. *)
Lemma comment_escapes_the_cap :
  contains "limit" (lower (rstrip ";" (strip "SELECT * FROM big) _q --")))
    = false /\
  statement "SELECT * FROM big) _q --" (Some 500%Z) =
    "SELECT * FROM (SELECT * FROM big) _q --) _q LIMIT 500" /\
  fst (run_sql (explorer sql_warehouse) (Some "SELECT * FROM big) _q --")
         (Some 500%Z) init) =
    Ok (content {| columns := [("id", int64)]; nrows := 501 |}, Some "{}") /\
  fst (run_sql (explorer sql_warehouse) (Some "SELECT * FROM big")
         (Some 500%Z) init) =
    Ok (content {| columns := [("id", int64)]; nrows := 500 |}, Some "{}") /\
  ~ (forall df json,
       fst (run_sql (explorer sql_warehouse)
              (Some "SELECT * FROM big) _q --") (Some 500%Z) init) =
         Ok (content df, Some json) ->
       (nrows df <= 500)%nat).
Proof.
  split; [reflexivity|]. split; [reflexivity|].
  split; [vm_compute; reflexivity|]. split; [vm_compute; reflexivity|].
  intros H.
  assert (B : (nrows {| columns := [("id", int64)]; nrows := 501 |} <= 500)%nat)
    by (apply (H _ "{}"); vm_compute; reflexivity).
  cbn in B. lia.
Qed.

(** ** C7: the axis drop-downs *)

Lemma all_cols_length (df : DataFrame) :
  List.length (all_cols df) = List.length (columns df).
Proof. unfold all_cols. apply length_map. Qed.

Lemma numeric_cols_are_numbers (df : DataFrame) (name : string) :
  In name (numeric_cols df) ->
  exists d, In (name, d) (columns df) /\ is_number d = true.
Proof.
  unfold numeric_cols. intros H. apply in_map_iff in H.
  destruct H as [[n d] [E H]]. cbn in E. subst n.
  apply filter_In in H. destruct H as [H1 H2]. eauto.
Qed.

(** C7. When the result has a numeric column and at least two columns, the
    options of the Y-axis drop-down are the numeric columns only, and the
    options of the X-axis drop-down are all the columns; otherwise the
    visualisation section is an empty [Div]. The section is the last child
    of the rendered results. *)
Theorem y_axis_offers_numeric_columns (df : DataFrame) :
  (numeric_cols df <> [] -> (2 <= List.length (columns df))%nat ->
   options_of "viz-y" (viz_section df) = Some (numeric_cols df) /\
   options_of "viz-x" (viz_section df) = Some (all_cols df)) /\
  (numeric_cols df = [] \/ (List.length (columns df) < 2)%nat ->
   viz_section df = El "html.Div" [] []) /\
  (forall name, In name (numeric_cols df) ->
     exists d, In (name, d) (columns df) /\ is_number d = true) /\
  all_cols df = map fst (columns df) /\
  last (content df) (Txt "") = viz_section df.
Proof.
  repeat split.
  - unfold viz_section. destruct (numeric_cols df) as [|y0 ys]; [congruence|].
    rewrite all_cols_length. apply Nat.leb_le in H0. rewrite H0. reflexivity.
  - unfold viz_section. destruct (numeric_cols df) as [|y0 ys]; [congruence|].
    rewrite all_cols_length. apply Nat.leb_le in H0. rewrite H0. reflexivity.
  - intros [H|H]; unfold viz_section.
    + rewrite H. reflexivity.
    + rewrite all_cols_length.
      apply Nat.leb_gt in H. rewrite H.
      destruct (numeric_cols df); reflexivity.
  - apply numeric_cols_are_numbers.
Qed.

Lemma y_axis_offers_numeric_columns_witness :
  options_of "viz-y" (viz_section order_status_breakdown) = Some ["orders"] /\
  options_of "viz-x" (viz_section order_status_breakdown) =
    Some ["o_orderstatus"; "orders"].
Proof.
  apply (proj1 (y_axis_offers_numeric_columns order_status_breakdown)).
  - discriminate.
  - cbn. lia.
Defined.

Example rows_returned_text :
  texts (hd (Txt "") (content {| columns := []; nrows := 4321 |})) =
    ["✅ 4,321 rows returned"].
Proof. reflexivity. Qed.

(** One column, or no numeric column: no visualisation section. *)
Example no_viz_for_text_columns :
  viz_section {| columns := [("a", object_); ("b", object_)]; nrows := 1 |} =
    El "html.Div" [] [].
Proof. reflexivity. Qed.

End SqlExplorerFacts.

(* ================================================================== *)
(** * Properties of pages/identity.py *)
(* ================================================================== *)

Module IdentityFacts.

Import Components Identity Scenarios.

(** ** C8: the anonymous view *)

(** C8. When no delegated token reaches the view, [load_identity] returns
    normally and renders exactly five fragments: the row of the three
    identity cards, a rule, a warning, a rule, and the raw-headers pane.
    Each card shows its title and the value of its header, or "n/a" when
    the header is absent or empty. The warning is an alert of colour
    "warning" whose text advises enabling on-behalf-of-user authentication
    in the settings of the app. The output holds no "Group Memberships" and
    no "Workspace" heading and no error alert. *)
Theorem anonymous_identity_view (w : World) :
  no_delegated_token w ->
  let shown := fun v : string => if String.eqb v "" then "n/a" else v in
  exists cards_row warning : component,
    let sections :=
      [cards_row; El "html.Hr" [] []; warning; El "html.Hr" [] [];
       raw_headers_pane (raw_headers w)] in
    load_identity w tt = (Ok sections, tt) /\
    cards_row =
      El "dbc.Row" []
        [kpi_col "Email" (field w "X-Forwarded-Email");
         kpi_col "Username" (field w "X-Forwarded-Preferred-Username");
         kpi_col "IP" (field w "X-Real-Ip")] /\
    texts cards_row =
      ["Email"; shown (field w "X-Forwarded-Email");
       "Username"; shown (field w "X-Forwarded-Preferred-Username");
       "IP"; shown (field w "X-Real-Ip")] /\
    warning = delegated_auth_warning /\
    is_alert "warning" warning = true /\
    texts warning =
      ["Basic info only. ";
       "Enable On-behalf-of-user authentication in app Settings → Authorization to see full account details and group memberships."] /\
    existsb (is_alert "warning") sections = true /\
    existsb (is_section_heading "👥 Group Memberships") sections = false /\
    existsb (is_section_heading "🏢 Workspace") sections = false /\
    existsb (is_alert "danger") sections = false /\
    (forall title,
       texts (kpi_col title "") = [title; "n/a"] /\
       kpi_col title "" =
         El "dbc.Col" [("md", ANum 4); ("className", AStr "mb-3")]
           [kpi_card title "n/a" RED]).
Proof.
  intros H. cbv zeta. unfold no_delegated_token, field, raw_headers in *.
  do 2 eexists. split; [|split; [reflexivity|]].
  - unfold load_identity, bind, try_except_RuntimeError, lift, ret.
    destruct (request_headers w) as [headers|e].
    + rewrite H. reflexivity.
    + rewrite H. reflexivity.
  - split.
    + cbn [texts kpi_col kpi_card app].
      repeat match goal with
             | |- context [or_str (Some ?v) "n/a"] =>
                 replace (or_str (Some v) "n/a")
                   with (if String.eqb v "" then "n/a" else v)
                   by (destruct v; reflexivity)
             end.
      reflexivity.
    + repeat split.
Qed.

Lemma anonymous_identity_view_witness :
  exists sections warning,
    load_identity anonymous_request tt = (Ok sections, tt) /\
    texts (hd (Txt "") sections) =
      ["Email"; "ada@example.com"; "Username"; "n/a"; "IP"; "10.0.0.7"] /\
    In warning sections /\
    is_alert "warning" warning = true /\
    texts warning =
      ["Basic info only. ";
       "Enable On-behalf-of-user authentication in app Settings → Authorization to see full account details and group memberships."] /\
    existsb (is_section_heading "👥 Group Memberships") sections = false /\
    existsb (is_section_heading "🏢 Workspace") sections = false.
Proof.
  destruct (anonymous_identity_view anonymous_request eq_refl)
    as (cards_row & warning & H1 & _ & H3 & _ & H5 & H6 & _ & H8 & H9 & _).
  eexists. exists warning. split; [exact H1|].
  split; [exact H3|]. split; [cbn; tauto|]. auto.
Defined.

(** With a delegated token the two sections are rendered and the warning
    is not. *)
Example delegated_identity_view :
  exists sections,
    load_identity delegated_request tt = (Ok sections, tt) /\
    existsb (is_alert "warning") sections = false /\
    existsb (is_section_heading "👥 Group Memberships") sections = true /\
    existsb (is_section_heading "🏢 Workspace") sections = true.
Proof. eexists. split; [reflexivity|]. repeat split. Qed.

(** ** C10: the raw-headers pane *)

Lemma dict_set_In (d : list (string * string)) (k v k' v' : string) :
  In (k', v') (dict_set d k v) -> In (k', v') d \/ k' = k \/ exists v0, In (k', v0) d.
Proof.
  induction d as [|[k0 v0] d IH]; cbn.
  - intros [E|[]]. inversion E. auto.
  - destruct (String.eqb_spec k0 k) as [->|Hne].
    + intros [E|H]; [inversion E; auto | auto].
    + intros [E|H]; [auto|].
      destruct (IH H) as [H1|[H1|[v1 H1]]]; eauto.
Qed.

Lemma dict_set_keys (P : string -> Prop) (d : list (string * string))
  (k v : string) :
  P k ->
  (forall k' v', In (k', v') d -> P k') ->
  forall k' v', In (k', v') (dict_set d k v) -> P k'.
Proof.
  intros Hk Hd k' v' H.
  destruct (dict_set_In d k v k' v' H) as [H1|[->|[v1 H1]]]; eauto.
Qed.

Lemma safe_subset_keys (headers : list (string * string)) :
  forall k v, In (k, v) (safe_subset headers) -> is_safe k = true.
Proof.
  unfold safe_subset.
  assert (G : forall d,
             (forall k v, In (k, v) d -> is_safe k = true) ->
             forall k v,
               In (k, v)
                 (fold_left
                    (fun d kv =>
                       if is_safe (fst kv)
                       then dict_set d (fst kv) (snd kv) else d)
                    headers d) ->
               is_safe k = true).
  { induction headers as [|[k0 v0] headers IH]; intros d Hd k v; cbn.
    - apply Hd.
    - apply IH. destruct (is_safe k0) eqn:E; [|exact Hd].
      apply dict_set_keys; assumption. }
  apply G. intros k v [].
Qed.

Lemma insert_sorted_In (x y : string * string) (l : list (string * string)) :
  In y (insert_sorted x l) -> y = x \/ In y l.
Proof.
  induction l as [|z l IH]; cbn.
  - intros [E|[]]; auto.
  - destruct (item_leb x z); cbn.
    + intros [E|H]; auto.
    + intros [E|H]; [auto|]. destruct (IH H); auto.
Qed.

Lemma sorted_In (y : string * string) (l : list (string * string)) :
  In y (sorted l) -> In y l.
Proof.
  induction l as [|x l IH]; cbn; [auto|].
  intros H. destruct (insert_sorted_In _ _ _ H); auto.
Qed.

Lemma load_identity_ends_with_pane (w : World) (sections : list component)
  (u : unit) :
  load_identity w tt = (Ok sections, u) ->
  exists before,
    sections =
      (before ++ [El "html.Hr" [] []; raw_headers_pane (raw_headers w)])%list.
Proof.
  unfold load_identity, raw_headers, bind, try_except_RuntimeError, lift, ret.
  destruct (request_headers w) as [headers|e].
  - match goal with
    | |- context [account_sections w ?t ?secs tt] =>
        destruct (account_sections w t secs tt) as [[before|e] []]
    end; intros H; inversion H. eauto.
  - destruct (is_RuntimeError e); [|discriminate].
    match goal with
    | |- context [account_sections w ?t ?secs tt] =>
        destruct (account_sections w t secs tt) as [[before|e'] []]
    end; intros H; inversion H. eauto.
Qed.

(** C10. Every header listed in the raw-headers pane has a name that
    contains neither "token" nor "secret", whatever the case of its letters;
    so no header named X-Forwarded-Access-Token, in any case, is listed,
    whatever the request. The pane is the last fragment that
    [load_identity] renders, and it lists exactly these headers. *)
Theorem raw_headers_hide_tokens (w : World) :
  (forall k v,
     In (k, v) (raw_headers w) ->
     contains "token" (lower k) = false /\
     contains "secret" (lower k) = false /\
     lower k <> "x-forwarded-access-token") /\
  (forall sections u,
     load_identity w tt = (Ok sections, u) ->
     last sections (Txt "") = raw_headers_pane (raw_headers w)).
Proof.
  split.
  - intros k v H. unfold raw_headers in H.
    destruct (request_headers w) as [headers|e]; [|destruct H].
    apply sorted_In, safe_subset_keys in H. unfold is_safe in H.
    apply andb_true_iff in H. destruct H as [H1 H2].
    apply negb_true_iff in H1, H2. repeat split; auto.
    intros E. rewrite E in H1. discriminate H1.
  - intros sections u H.
    destruct (load_identity_ends_with_pane w sections u H) as [before ->].
    change [El "html.Hr" [] []; raw_headers_pane (raw_headers w)]
      with ([El "html.Hr" [] []] ++ [raw_headers_pane (raw_headers w)])%list.
    rewrite app_assoc. apply last_last.
Qed.

Lemma raw_headers_hide_tokens_witness :
  raw_headers delegated_request =
    [("Host", "app.example"); ("X-Forwarded-Email", "ada@example.com")] /\
  contains "token" (lower "X-Forwarded-Email") = false /\
  contains "secret" (lower "X-Forwarded-Email") = false /\
  lower "X-Forwarded-Email" <> "x-forwarded-access-token".
Proof.
  split; [reflexivity|].
  apply (proj1 (raw_headers_hide_tokens delegated_request)
           "X-Forwarded-Email" "ada@example.com").
  vm_compute. right. left. reflexivity.
Defined.

(** The pane as rendered for a request with a token and a secret header. *)
Example raw_headers_pane_text :
  texts (raw_headers_pane (raw_headers delegated_request)) =
    ["🔎 Raw HTTP Headers";
     ("Host: app.example" ++ String "010" "X-Forwarded-Email: ada@example.com")%string].
Proof. reflexivity. Qed.

End IdentityFacts.

(* ================================================================== *)
(** * Properties of pages/catalog.py *)
(* ================================================================== *)

Module CatalogFacts.

Import Components Dash Catalog Scenarios.

(** ** The guards of the three click callbacks *)

Lemma load_schemas_idle (w : World) (ctx : callback_context)
  (n_clicks : list (option nat)) (p : Proc) :
  truthy_triggered ctx = false \/ any n_clicks = false ->
  load_schemas w ctx n_clicks p = (Ok (no_update, no_update), p).
Proof.
  intros [H|H]; unfold load_schemas; rewrite H; cbn;
    [|rewrite orb_true_r]; reflexivity.
Qed.

Lemma load_tables_idle (w : World) (ctx : callback_context)
  (n_clicks : list (option nat)) (catalog : option string) (p : Proc) :
  is_item "schema-item" (triggered_id ctx) = false ->
  load_tables w ctx n_clicks catalog p = (Ok (no_update, no_update), p).
Proof.
  intros H. unfold load_tables. rewrite H. cbn [negb].
  destruct (negb (truthy_triggered ctx) || negb (truthy_opt_str catalog));
    reflexivity.
Qed.

Lemma show_detail_idle (w : World) (ctx : callback_context)
  (n_clicks : list (option nat)) (catalog schema : option string)
  (p : Proc) :
  is_item "table-item" (triggered_id ctx) = false ->
  show_detail w ctx n_clicks catalog schema p = (Ok no_update, p).
Proof.
  intros H. unfold show_detail. rewrite H. cbn [negb].
  destruct (negb (truthy_triggered ctx) || negb (truthy_opt_str catalog)
            || negb (truthy_opt_str schema)); reflexivity.
Qed.

(** ** The click callbacks on a click *)

Lemma load_schemas_click (w : World) (cat : string)
  (n_clicks : list (option nat)) (p : Proc) :
  any n_clicks = true ->
  load_schemas w (mkCtx [IdDict "cat-item" cat]) n_clicks p =
    match load_schemas_try w cat p with
    | (Ok o, p1) => (Ok o, p1)
    | (Raise e, p1) =>
        (Ok (Update (error_alert (exn_msg e)), no_update), p1)
    end.
Proof.
  intros H. unfold load_schemas. rewrite H. cbn. reflexivity.
Qed.

Lemma load_schemas_try_ok (w : World) (cat : string) (p p1 : Proc)
  (o : out component * out string) :
  load_schemas_try w cat p = (Ok o, p1) ->
  exists listing,
    schemas_list w cat = Ok listing /\
    o = (Update (list_group "schema-item" (names listing)), Update cat).
Proof.
  unfold load_schemas_try, bind, lift, ret.
  destruct (_client w p) as [[u|e] p']; [|discriminate].
  destruct (schemas_list w cat) as [listing|e]; [|discriminate].
  intros H. inversion H. eauto.
Qed.

Lemma load_schemas_try_listing (w : World) (cat : string) (p : Proc)
  (listing : list (option string)) :
  fst (_client w p) = Ok tt ->
  schemas_list w cat = Ok listing ->
  fst (load_schemas_try w cat p) =
    Ok (Update (list_group "schema-item" (names listing)), Update cat).
Proof.
  unfold load_schemas_try, bind, lift, ret.
  destruct (_client w p) as [[u|e] p']; cbn; [|discriminate].
  intros _ H. rewrite H. reflexivity.
Qed.

Lemma load_tables_click (w : World) (schema catalog : string)
  (n_clicks : list (option nat)) (p : Proc) :
  catalog <> "" ->
  load_tables w (mkCtx [IdDict "schema-item" schema]) n_clicks
    (Some catalog) p =
    match load_tables_try w catalog schema p with
    | (Ok o, p1) => (Ok o, p1)
    | (Raise e, p1) =>
        (Ok (Update (error_alert (exn_msg e)), no_update), p1)
    end.
Proof.
  intros H. unfold load_tables.
  destruct catalog; [congruence|]. cbn. reflexivity.
Qed.

Lemma load_tables_try_ok (w : World) (catalog schema : string) (p p1 : Proc)
  (o : out component * out string) :
  load_tables_try w catalog schema p = (Ok o, p1) ->
  exists listing,
    tables_list w catalog schema = Ok listing /\
    o = (Update (list_group "table-item" (names listing)), Update schema).
Proof.
  unfold load_tables_try, bind, lift, ret.
  destruct (_client w p) as [[u|e] p']; [|discriminate].
  destruct (tables_list w catalog schema) as [listing|e]; [|discriminate].
  intros H. inversion H. eauto.
Qed.

Lemma load_tables_try_listing (w : World) (catalog schema : string)
  (p : Proc) (listing : list (option string)) :
  fst (_client w p) = Ok tt ->
  tables_list w catalog schema = Ok listing ->
  fst (load_tables_try w catalog schema p) =
    Ok (Update (list_group "table-item" (names listing)), Update schema).
Proof.
  unfold load_tables_try, bind, lift, ret.
  destruct (_client w p) as [[u|e] p']; cbn; [|discriminate].
  intros _ H. rewrite H. reflexivity.
Qed.

(** ** What the lists render *)

Lemma texts_list_group (type : string) (items : list string) :
  texts (list_group type items) = items.
Proof.
  unfold list_group. cbn [texts].
  induction items as [|i items IH]; cbn; [reflexivity|].
  f_equal. exact IH.
Qed.

Lemma item_ids_list_group (type : string) (items : list string) :
  item_ids (list_group type items) = map (pair type) items.
Proof.
  unfold list_group. cbn [item_ids lookup_attr String.eqb Ascii.eqb Bool.eqb app].
  induction items as [|i items IH]; cbn; [reflexivity|].
  f_equal. exact IH.
Qed.

(** ** The client once built *)

Lemma client_hit (w : World) (p : Proc) :
  LruCache.slot p <> None ->
  _client w p =
    (Ok tt, {| LruCache.slot := LruCache.slot p;
               LruCache.hits := S (LruCache.hits p);
               LruCache.misses := LruCache.misses p |}).
Proof.
  intros H. unfold _client, LruCache.call, LruCache.enter, LruCache.lookup.
  destruct (LruCache.slot p) as [[[] []]|]; [reflexivity | congruence].
Qed.

Lemma client_ok_slot (w : World) (p : Proc) :
  fst (_client w p) = Ok tt -> LruCache.slot (snd (_client w p)) <> None.
Proof.
  unfold _client, LruCache.call, LruCache.enter, LruCache.lookup,
    LruCache.leave, LruCache.store, LruCache.lookup.
  destruct (LruCache.slot p) as [[[] []]|]; cbn.
  - discriminate.
  - destruct (WorkspaceClient w) as [[]|e]; cbn; discriminate.
Qed.

(** ** The callbacks on a context led by an item

    [load_tables] and [show_detail] look at the first entry of
    [ctx.triggered] and at nothing else of the context, and not at
    [n_clicks]. *)

Lemma load_tables_led (w : World) (schema catalog : string)
  (rest : list component_id) (n_clicks : list (option nat)) (p : Proc) :
  catalog <> "" ->
  load_tables w (mkCtx (IdDict "schema-item" schema :: rest)) n_clicks
    (Some catalog) p =
    match load_tables_try w catalog schema p with
    | (Ok o, p1) => (Ok o, p1)
    | (Raise e, p1) =>
        (Ok (Update (error_alert (exn_msg e)), no_update), p1)
    end.
Proof.
  intros H. unfold load_tables.
  destruct catalog; [congruence|]. cbn. reflexivity.
Qed.

Lemma load_tables_writes_under_catalog (w : World) (ctx : callback_context)
  (n_clicks : list (option nat)) (catalog : option string) (p p1 : Proc)
  (o : out component) (s : string) :
  load_tables w ctx n_clicks catalog p = (Ok (o, Update s), p1) ->
  catalog <> None.
Proof.
  unfold load_tables. destruct catalog as [c|]; [discriminate|].
  cbn. rewrite orb_true_r. discriminate.
Qed.

(** ** A failed listing of schemas *)

Lemma click_catalog_fails (r : Renderer) (w : World) (cat : string)
  (cat_clicks schema_clicks table_clicks : list (option nat))
  (pg : Page) (p p1 : Proc) (e : exn) :
  any cat_clicks = true ->
  load_schemas_try w cat p = (Raise e, p1) ->
  click_catalog r w cat cat_clicks schema_clicks table_clicks pg p =
    (Ok {| cat_list := cat_list pg;
           schema_list := Some (error_alert (exn_msg e));
           table_list := table_list pg;
           table_detail := table_detail pg;
           store_catalog := store_catalog pg;
           store_schema := store_schema pg;
           store_table := store_table pg |}, p1).
Proof.
  intros Hany H. unfold click_catalog, run_load_schemas, bind.
  rewrite (load_schemas_click w cat cat_clicks p Hany), H.
  cbn. destruct (tables_order r); reflexivity.
Qed.

End CatalogFacts.

(* ================================================================== *)
(** * Failures at the boundary of each view *)
(* ================================================================== *)

Module ViewFacts.

Import SqlClient Components Dash Scenarios.

Lemma prefix_refl (s : string) : String.prefix s s = true.
Proof.
  induction s as [|c s IH]; cbn; [reflexivity|].
  rewrite IH. destruct (ascii_dec c c); [reflexivity | congruence].
Qed.

Lemma contains_suffix (needle before : string) :
  contains needle (before ++ needle) = true.
Proof.
  induction before as [|c before IH].
  - cbn [append]. destruct needle as [|c needle]; [reflexivity|].
    cbn [contains]. rewrite prefix_refl. reflexivity.
  - cbn [append contains]. rewrite IH. apply orb_true_r.
Qed.

(** The alert carries the message and is a danger alert. *)
Lemma error_alert_shows (msg : string) :
  shows msg (error_alert msg) = true /\
  is_alert "danger" (error_alert msg) = true.
Proof.
  split; [|reflexivity].
  unfold shows, error_alert. cbn [texts app existsb].
  rewrite contains_suffix. reflexivity.
Qed.

(** A [try] block whose handler renders the alert: the callback always
    returns, with the result of the block or with the alert made of the
    message of what the block raised. *)
Lemma guarded {S A} (body : M S A) (alert : exn -> A) (s : S) :
  exists a s',
    try_except body (fun e => ret (alert e)) s = (Ok a, s') /\
    (forall e s1, body s = (Raise e, s1) -> a = alert e /\ s' = s1) /\
    (forall a1 s1, body s = (Ok a1, s1) -> a = a1 /\ s' = s1).
Proof.
  unfold try_except, ret. destruct (body s) as [[a|e] s1].
  - exists a, s1. repeat split; congruence.
  - exists (alert e), s1. repeat split; congruence.
Qed.

Lemma item_pair {S} (l : list Z) (a b : Z) (s : S) :
  l = [a; b] -> item l 0 s = (Ok a, s) /\ item l 1 s = (Ok b, s).
Proof. intros ->. split; reflexivity. Qed.


Lemma guarded_never_raises {S A} (body : M S A) (alert : exn -> A) :
  never_raises (try_except body (fun e => ret (alert e))).
Proof.
  intros s. destruct (guarded body alert s) as (a & s' & H & _). eauto.
Qed.

Lemma guarded_renders_failure {S A} (body : M S A) (alert : exn -> A) :
  renders_failure body (try_except body (fun e => ret (alert e))) alert.
Proof.
  intros s e s1 H. unfold try_except, ret. rewrite H. reflexivity.
Qed.

(** ** The catalog browser *)

Lemma load_schemas_never_raises (w : Catalog.World) (ctx : callback_context)
  (n_clicks : list (option nat)) :
  (forall s, triggered_id ctx <> Some (IdStr s)) ->
  never_raises (Catalog.load_schemas w ctx n_clicks).
Proof.
  intros Hd p. unfold Catalog.load_schemas.
  destruct (negb (truthy_triggered ctx) || negb (any n_clicks)) eqn:G.
  - do 2 eexists. reflexivity.
  - unfold truthy_triggered, triggered_id in *.
    destruct (triggered ctx) as [|[s|ty ix] rest]; cbn in *.
    + discriminate G.
    + exfalso. apply (Hd s). reflexivity.
    + apply (guarded_never_raises (Catalog.load_schemas_try w ix) alert2).
Qed.

Lemma load_tables_never_raises (w : Catalog.World) (ctx : callback_context)
  (n_clicks : list (option nat)) (catalog : option string) :
  never_raises (Catalog.load_tables w ctx n_clicks catalog).
Proof.
  intros p. unfold Catalog.load_tables.
  destruct (negb (truthy_triggered ctx) || negb (truthy_opt_str catalog)).
  - do 2 eexists. reflexivity.
  - destruct (triggered_id ctx) as [[s|ty ix]|]; cbn.
    + do 2 eexists. reflexivity.
    + destruct (String.eqb ty "schema-item"); cbn.
      * apply (guarded_never_raises
                 (Catalog.load_tables_try w (fmt_opt_str catalog) ix) alert2).
      * do 2 eexists. reflexivity.
    + do 2 eexists. reflexivity.
Qed.

Lemma show_detail_never_raises (w : Catalog.World) (ctx : callback_context)
  (n_clicks : list (option nat)) (catalog schema : option string) :
  never_raises (Catalog.show_detail w ctx n_clicks catalog schema).
Proof.
  intros p. unfold Catalog.show_detail.
  destruct (negb (truthy_triggered ctx) || negb (truthy_opt_str catalog)
            || negb (truthy_opt_str schema)).
  - do 2 eexists. reflexivity.
  - destruct (triggered_id ctx) as [[s|ty ix]|]; cbn.
    + do 2 eexists. reflexivity.
    + destruct (String.eqb ty "table-item"); cbn.
      * apply (guarded_never_raises (Catalog.show_detail_try w _)
                 (fun e => Update (error_alert (exn_msg e)))).
      * do 2 eexists. reflexivity.
    + do 2 eexists. reflexivity.
Qed.

Lemma show_detail_click (w : Catalog.World) (table catalog schema : string)
  (n_clicks : list (option nat)) :
  catalog <> "" -> schema <> "" ->
  renders_failure
    (Catalog.show_detail_try w (catalog ++ "." ++ schema ++ "." ++ table))
    (Catalog.show_detail w (mkCtx [IdDict "table-item" table]) n_clicks
       (Some catalog) (Some schema))
    (fun e => Update (error_alert (exn_msg e))).
Proof.
  intros Hc Hs p e p1 H. unfold Catalog.show_detail.
  destruct catalog; [congruence|]. destruct schema; [congruence|].
  cbn. unfold try_except, ret. cbn in H. rewrite H. reflexivity.
Qed.

(** A listing that fails is shown where the list would be. *)
Lemma load_catalogs_listing_fails (w : Catalog.World) (p : Catalog.Proc)
  (e : exn) :
  fst (Catalog._client w p) = Ok tt ->
  Catalog.catalogs_list w = Raise e ->
  fst (Catalog.load_catalogs w p) = Ok (error_alert (exn_msg e)).
Proof.
  intros Hc Hl.
  unfold Catalog.load_catalogs, Catalog.load_catalogs_try, try_except, bind,
    lift, ret.
  destruct (Catalog._client w p) as [[u|e'] p1]; cbn in Hc; [|discriminate].
  rewrite Hl. reflexivity.
Qed.

Lemma load_catalogs_client_fails (w : Catalog.World) (p : Catalog.Proc)
  (e : exn) :
  fst (Catalog._client w p) = Raise e ->
  fst (Catalog.load_catalogs w p) = Ok (error_alert (exn_msg e)).
Proof.
  intros Hc.
  unfold Catalog.load_catalogs, Catalog.load_catalogs_try, try_except, bind,
    lift, ret.
  destruct (Catalog._client w p) as [[u|e'] p1]; cbn in Hc; [discriminate|].
  inversion Hc. reflexivity.
Qed.

(** ** The SQL runner *)

(** [run_sql] guards the execution of the statement: what [run_query]
    raises is rendered. It returns unless [to_json] raises on the frame that
    the warehouse returned, and then it raises what [to_json] raised. *)
Lemma run_sql_outcomes (w : SqlExplorer.World) (query : option string)
  (max_rows : option Z) (p : Proc) :
  (exists o p', SqlExplorer.run_sql w query max_rows p = (Ok o, p')) \/
  (exists df e p',
     run_query (SqlExplorer.sql w)
       (SqlExplorer.statement (fmt_opt_str query) max_rows) p = (Ok df, p') /\
     SqlExplorer.to_json w df = Raise e /\
     SqlExplorer.run_sql w query max_rows p = (Raise e, p')).
Proof.
  unfold SqlExplorer.run_sql.
  destruct (SqlExplorer.blank query); [left; do 2 eexists; reflexivity|].
  unfold bind, try_except, ret, lift.
  destruct (run_query (SqlExplorer.sql w) _ p) as [[df|e] p1].
  - destruct (SqlExplorer.to_json w df) as [json|e] eqn:E.
    + left. do 2 eexists. reflexivity.
    + right. exists df, e, p1. auto.
  - left. do 2 eexists. reflexivity.
Qed.

Lemma run_sql_query_fails (w : SqlExplorer.World) (query : option string)
  (max_rows : option Z) (p p1 : Proc) (e : exn) :
  SqlExplorer.blank query = false ->
  run_query (SqlExplorer.sql w)
    (SqlExplorer.statement (fmt_opt_str query) max_rows) p = (Raise e, p1) ->
  SqlExplorer.run_sql w query max_rows p =
    (Ok ([error_alert (exn_msg e)], None), p1).
Proof.
  intros Hb H. unfold SqlExplorer.run_sql. rewrite Hb.
  unfold bind, try_except, ret. rewrite H. reflexivity.
Qed.

(** ** The sales and taxi tabs while the warehouse fails *)

Ltac warehouse_fails H :=
  unfold try_except, bind, item, ret, raise, lift;
  cbn [nth_error]; rewrite H; reflexivity.

Lemma sales_tabs_show_failure (w : Sales.World) (p p1 : Proc) (e : exn)
  (y0 y1 topn : Z) (status : string) :
  (forall query, run_query (Sales.sql w) query p = (Raise e, p1)) ->
  Sales.update_kpis w [y0; y1] status p = (Ok (error_alert (exn_msg e)), p1)
  /\
  Sales.update_trend w [y0; y1] status p = (Ok (error_alert (exn_msg e)), p1)
  /\
  Sales.update_region w [y0; y1] status p =
    (Ok (error_alert (exn_msg e)), p1) /\
  Sales.update_customers w [y0; y1] status topn p =
    (Ok (error_alert (exn_msg e)), p1).
Proof.
  intros H. repeat split.
  - unfold Sales.update_kpis, Sales.update_kpis_try. warehouse_fails H.
  - unfold Sales.update_trend, Sales.update_trend_try. warehouse_fails H.
  - unfold Sales.update_region, Sales.update_region_try. warehouse_fails H.
  - unfold Sales.update_customers, Sales.update_customers_try.
    warehouse_fails H.
Qed.

Lemma taxi_tabs_show_failure (w : Taxi.World) (p p1 : Proc) (e : exn)
  (f0 f1 d0 d1 sample : Z) :
  (forall query, run_query (Taxi.sql w) query p = (Raise e, p1)) ->
  Taxi.update_kpis w [f0; f1] [d0; d1] p = (Ok (error_alert (exn_msg e)), p1)
  /\
  Taxi.update_distributions w [f0; f1] [d0; d1] sample p =
    (Ok (error_alert (exn_msg e)), p1) /\
  Taxi.update_hourly w [f0; f1] [d0; d1] p =
    (Ok (error_alert (exn_msg e)), p1) /\
  Taxi.update_scatter w [f0; f1] [d0; d1] sample p =
    (Ok (error_alert (exn_msg e)), p1).
Proof.
  intros H. repeat split.
  - unfold Taxi.update_kpis, Taxi.update_kpis_try, Taxi._where.
    warehouse_fails H.
  - unfold Taxi.update_distributions, Taxi.update_distributions_try,
      Taxi._where.
    warehouse_fails H.
  - unfold Taxi.update_hourly, Taxi.update_hourly_try, Taxi._where.
    warehouse_fails H.
  - unfold Taxi.update_scatter, Taxi.update_scatter_try, Taxi._where.
    warehouse_fails H.
Qed.


(** ** C5 *)

(** C5 as stated fails for the SQL runner: the warehouse returns a frame,
    [to_json] raises on it, and since that call sits after the [try] block
    the exception leaves [run_sql]; no alert is rendered. *)
Lemma unguarded_serialisation_escapes :
  fst (run_query (SqlExplorer.sql binary_result)
         (SqlExplorer.statement "SELECT unhex('FF') AS b" (Some 500%Z))
         init) = Ok binary_frame /\
  fst (SqlExplorer.run_sql binary_result (Some "SELECT unhex('FF') AS b")
         (Some 500%Z) init) = Raise not_encodable.
Proof. split; reflexivity. Qed.

(** C5 (amended). The alert built by [error_alert] is a danger alert whose
    text carries the message. In every view driven by remote calls -- the
    three lists and the detail pane of the catalog browser, the SQL runner,
    the four sales tabs and the four taxi tabs -- an exception raised inside
    the [try] block of the callback is caught there and rendered in place:
    the callback returns that alert made of [str(e)] for its own children,
    and [no_update] for the store it feeds ([None] for the data store of the
    SQL runner), so a failed click on the catalog page changes the clicked
    view only. The [try] block holds the remote calls of every view and, for
    all views but the SQL runner, the rendering of their result: those
    callbacks return on every input and every process state (for
    [load_schemas], on every context that its declared input can produce).
    In the SQL runner the [try] block holds the execution of the statement
    only: [run_sql] returns unless the serialisation of the returned frame
    raises. While the warehouse fails, every sales and taxi tab shows the
    failure. *)
Theorem errors_render_in_place :
  (forall msg,
     shows msg (error_alert msg) = true /\
     is_alert "danger" (error_alert msg) = true) /\
  (* catalog browser *)
  (forall (w : Catalog.World),
     never_raises (Catalog.load_catalogs w) /\
     renders_failure (Catalog.load_catalogs_try w) (Catalog.load_catalogs w)
       alert1 /\
     (forall ctx n_clicks,
        (forall s, triggered_id ctx <> Some (IdStr s)) ->
        never_raises (Catalog.load_schemas w ctx n_clicks)) /\
     (forall cat n_clicks,
        any n_clicks = true ->
        renders_failure (Catalog.load_schemas_try w cat)
          (Catalog.load_schemas w (mkCtx [IdDict "cat-item" cat]) n_clicks)
          alert2) /\
     (forall ctx n_clicks catalog,
        never_raises (Catalog.load_tables w ctx n_clicks catalog)) /\
     (forall schema catalog n_clicks,
        catalog <> "" ->
        renders_failure (Catalog.load_tables_try w catalog schema)
          (Catalog.load_tables w (mkCtx [IdDict "schema-item" schema])
             n_clicks (Some catalog))
          alert2) /\
     (forall ctx n_clicks catalog schema,
        never_raises (Catalog.show_detail w ctx n_clicks catalog schema)) /\
     (forall table catalog schema n_clicks,
        catalog <> "" -> schema <> "" ->
        renders_failure
          (Catalog.show_detail_try w
             (catalog ++ "." ++ schema ++ "." ++ table))
          (Catalog.show_detail w (mkCtx [IdDict "table-item" table])
             n_clicks (Some catalog) (Some schema))
          (fun e => Update (error_alert (exn_msg e)))) /\
     (forall p e,
        fst (Catalog._client w p) = Ok tt ->
        Catalog.catalogs_list w = Raise e ->
        fst (Catalog.load_catalogs w p) = Ok (error_alert (exn_msg e))) /\
     (forall r cat cat_clicks schema_clicks table_clicks pg p e p1,
        any cat_clicks = true ->
        Catalog.load_schemas_try w cat p = (Raise e, p1) ->
        Catalog.click_catalog r w cat cat_clicks schema_clicks table_clicks
          pg p =
          (Ok {| Catalog.cat_list := Catalog.cat_list pg;
                 Catalog.schema_list := Some (error_alert (exn_msg e));
                 Catalog.table_list := Catalog.table_list pg;
                 Catalog.table_detail := Catalog.table_detail pg;
                 Catalog.store_catalog := Catalog.store_catalog pg;
                 Catalog.store_schema := Catalog.store_schema pg;
                 Catalog.store_table := Catalog.store_table pg |}, p1))) /\
  (* SQL runner *)
  (forall (w : SqlExplorer.World) query max_rows p,
     (forall e p1,
        SqlExplorer.blank query = false ->
        run_query (SqlExplorer.sql w)
          (SqlExplorer.statement (fmt_opt_str query) max_rows) p =
          (Raise e, p1) ->
        SqlExplorer.run_sql w query max_rows p =
          (Ok ([error_alert (exn_msg e)], None), p1)) /\
     ((exists o p', SqlExplorer.run_sql w query max_rows p = (Ok o, p')) \/
      (exists df e p',
         run_query (SqlExplorer.sql w)
           (SqlExplorer.statement (fmt_opt_str query) max_rows) p =
           (Ok df, p') /\
         SqlExplorer.to_json w df = Raise e /\
         SqlExplorer.run_sql w query max_rows p = (Raise e, p')))) /\
  (* sales tabs *)
  (forall (w : Sales.World) years status topn,
     never_raises (Sales.update_kpis w years status) /\
     renders_failure (Sales.update_kpis_try w years status)
       (Sales.update_kpis w years status) alert1 /\
     never_raises (Sales.update_trend w years status) /\
     renders_failure (Sales.update_trend_try w years status)
       (Sales.update_trend w years status) alert1 /\
     never_raises (Sales.update_region w years status) /\
     renders_failure (Sales.update_region_try w years status)
       (Sales.update_region w years status) alert1 /\
     never_raises (Sales.update_customers w years status topn) /\
     renders_failure (Sales.update_customers_try w years status topn)
       (Sales.update_customers w years status topn) alert1) /\
  (forall (w : Sales.World) p p1 e y0 y1 topn status,
     (forall query, run_query (Sales.sql w) query p = (Raise e, p1)) ->
     Sales.update_kpis w [y0; y1] status p =
       (Ok (error_alert (exn_msg e)), p1) /\
     Sales.update_trend w [y0; y1] status p =
       (Ok (error_alert (exn_msg e)), p1) /\
     Sales.update_region w [y0; y1] status p =
       (Ok (error_alert (exn_msg e)), p1) /\
     Sales.update_customers w [y0; y1] status topn p =
       (Ok (error_alert (exn_msg e)), p1)) /\
  (* taxi tabs *)
  (forall (w : Taxi.World) fare dist sample,
     never_raises (Taxi.update_kpis w fare dist) /\
     renders_failure (Taxi.update_kpis_try w fare dist)
       (Taxi.update_kpis w fare dist) alert1 /\
     never_raises (Taxi.update_distributions w fare dist sample) /\
     renders_failure (Taxi.update_distributions_try w fare dist sample)
       (Taxi.update_distributions w fare dist sample) alert1 /\
     never_raises (Taxi.update_hourly w fare dist) /\
     renders_failure (Taxi.update_hourly_try w fare dist)
       (Taxi.update_hourly w fare dist) alert1 /\
     never_raises (Taxi.update_scatter w fare dist sample) /\
     renders_failure (Taxi.update_scatter_try w fare dist sample)
       (Taxi.update_scatter w fare dist sample) alert1) /\
  (forall (w : Taxi.World) p p1 e f0 f1 d0 d1 sample,
     (forall query, run_query (Taxi.sql w) query p = (Raise e, p1)) ->
     Taxi.update_kpis w [f0; f1] [d0; d1] p =
       (Ok (error_alert (exn_msg e)), p1) /\
     Taxi.update_distributions w [f0; f1] [d0; d1] sample p =
       (Ok (error_alert (exn_msg e)), p1) /\
     Taxi.update_hourly w [f0; f1] [d0; d1] p =
       (Ok (error_alert (exn_msg e)), p1) /\
     Taxi.update_scatter w [f0; f1] [d0; d1] sample p =
       (Ok (error_alert (exn_msg e)), p1)).
Proof.
  split; [exact error_alert_shows|].
  split.
  { intros w. repeat split.
    - apply (guarded_never_raises (Catalog.load_catalogs_try w) alert1).
    - apply (guarded_renders_failure (Catalog.load_catalogs_try w) alert1).
    - intros ctx n_clicks. apply load_schemas_never_raises.
    - intros cat n_clicks Hany p e p1 H.
      rewrite (CatalogFacts.load_schemas_click w cat n_clicks p Hany), H.
      reflexivity.
    - intros ctx n_clicks catalog. apply load_tables_never_raises.
    - intros schema catalog n_clicks Hc p e p1 H.
      rewrite (CatalogFacts.load_tables_click w schema catalog n_clicks p Hc).
      rewrite H. reflexivity.
    - intros ctx n_clicks catalog schema. apply show_detail_never_raises.
    - intros table catalog schema n_clicks. apply show_detail_click.
    - intros p e. apply load_catalogs_listing_fails.
    - intros r cat cc sc tc pg p e p1.
      apply CatalogFacts.click_catalog_fails. }
  split.
  { intros w query max_rows p. split.
    - intros e p1. apply run_sql_query_fails.
    - apply run_sql_outcomes. }
  split.
  { intros w years status topn.
    repeat split;
      first [ apply (guarded_never_raises _ alert1)
            | apply (guarded_renders_failure _ alert1) ]. }
  split.
  { intros w p p1 e y0 y1 topn status. apply sales_tabs_show_failure. }
  split.
  { intros w fare dist sample.
    repeat split;
      first [ apply (guarded_never_raises _ alert1)
            | apply (guarded_renders_failure _ alert1) ]. }
  intros w p p1 e f0 f1 d0 d1 sample. apply taxi_tabs_show_failure.
Qed.

Lemma errors_render_in_place_witness :
  fst (Catalog.load_catalogs locked_catalogs Catalog.init) =
    Ok (error_alert "PERMISSION_DENIED: no access") /\
  fst (Sales.update_trend sales_offline [1994%Z; 1997%Z] "ALL" init) =
    Ok (error_alert "No SQL warehouse available.") /\
  fst (Taxi.update_hourly taxi_offline [0%Z; 100%Z] [0%Z; 20%Z] init) =
    Ok (error_alert "No SQL warehouse available.").
Proof.
  destruct errors_render_in_place as (_ & HC & _ & _ & HS & _ & HT).
  split; [|split].
  - exact (proj1 (proj2 (proj2 (proj2 (proj2 (proj2 (proj2 (proj2 (proj2
             (HC locked_catalogs)))))))))
             Catalog.init forbidden eq_refl eq_refl).
  - exact (f_equal fst
             (proj1 (proj2
                (HS sales_offline init (snd (run_query offline "" init))
                   (mkExn RuntimeError "No SQL warehouse available.")
                   1994%Z 1997%Z 10%Z "ALL" (fun query => eq_refl))))).
  - exact (f_equal fst
             (proj1 (proj2 (proj2
                (HT taxi_offline init (snd (run_query offline "" init))
                   (mkExn RuntimeError "No SQL warehouse available.")
                   0%Z 100%Z 0%Z 20%Z 10000%Z (fun query => eq_refl)))))).
Defined.

End ViewFacts.

(* ================================================================== *)
(** * The chained selection of pages/catalog.py *)
(* ================================================================== *)

Module SelectionFacts.

Import Components Dash Catalog Scenarios.

(** ** The runs that follow an update *)

Lemma run_show_detail_frame (w : World) (ctx : list component_id)
  (table_clicks : list (option nat)) (pg : Page) (p : Proc) :
  exists pg' p',
    run_show_detail w ctx table_clicks pg p = (Ok pg', p') /\
    cat_list pg' = cat_list pg /\
    schema_list pg' = schema_list pg /\
    table_list pg' = table_list pg /\
    store_catalog pg' = store_catalog pg /\
    store_schema pg' = store_schema pg /\
    store_table pg' = store_table pg.
Proof.
  unfold run_show_detail, bind.
  destruct (ViewFacts.show_detail_never_raises w (mkCtx ctx) table_clicks
              (store_catalog pg) (store_schema pg) p) as (d & p' & H).
  rewrite H. do 2 eexists. split; [reflexivity|]. cbn. repeat split.
Qed.

(** On a context led by a store, [show_detail] leaves the page alone. *)
Lemma run_show_detail_store (w : World) (store : string)
  (rest : list component_id) (table_clicks : list (option nat))
  (pg : Page) (p : Proc) :
  exists pg',
    run_show_detail w (IdStr store :: rest) table_clicks pg p = (Ok pg', p) /\
    cat_list pg' = cat_list pg /\
    schema_list pg' = schema_list pg /\
    table_list pg' = table_list pg /\
    table_detail pg' = table_detail pg /\
    store_catalog pg' = store_catalog pg /\
    store_schema pg' = store_schema pg /\
    store_table pg' = store_table pg.
Proof.
  unfold run_show_detail, bind.
  rewrite CatalogFacts.show_detail_idle by reflexivity.
  eexists. split; [reflexivity|]. cbn. repeat split.
Qed.

Lemma run_load_tables_frame (r : Renderer) (w : World)
  (ctx : list component_id) (schema_clicks table_clicks : list (option nat))
  (earlier : list component_id) (pg : Page) (p : Proc) :
  exists pg' p',
    run_load_tables r w ctx schema_clicks table_clicks earlier pg p =
      (Ok pg', p') /\
    cat_list pg' = cat_list pg /\
    schema_list pg' = schema_list pg /\
    store_catalog pg' = store_catalog pg /\
    store_table pg' = store_table pg /\
    (store_schema pg' = store_schema pg \/ store_catalog pg <> None).
Proof.
  unfold run_load_tables, bind.
  destruct (ViewFacts.load_tables_never_raises w (mkCtx ctx) schema_clicks
              (store_catalog pg) p) as ([o1 o2] & p1 & H).
  rewrite H. cbn [fst snd].
  assert (S : set o2 (store_schema pg) = store_schema pg \/
              store_catalog pg <> None).
  { destruct o2 as [|s]; [left; reflexivity|]. right.
    eapply CatalogFacts.load_tables_writes_under_catalog. exact H. }
  destruct (arrange (detail_order r) (inserted o1)
              (changed "store-schema" o2 ++ earlier)) as [|c ctx'].
  - do 2 eexists. split; [reflexivity|]. cbn. repeat split. exact S.
  - match goal with
    | |- context [run_show_detail w ?c ?t ?g p1] =>
        destruct (run_show_detail_frame w c t g p1)
          as (pg' & p' & E & F1 & F2 & F3 & F4 & F5 & F6)
    end.
    exists pg', p'. split; [exact E|]. cbn in *.
    repeat split; try congruence.
    all: destruct S as [S|S]; [left; congruence | right; exact S].
Qed.

(** On a context led by a store, [load_tables] and then [show_detail]
    leave the page alone. *)
Lemma run_load_tables_store (r : Renderer) (w : World) (store : string)
  (schema_clicks table_clicks : list (option nat))
  (earlier : list component_id) (pg : Page) (p : Proc) :
  (forall x, In x earlier -> exists s, x = IdStr s) ->
  exists pg',
    run_load_tables r w [IdStr store] schema_clicks table_clicks earlier
      pg p = (Ok pg', p) /\
    cat_list pg' = cat_list pg /\
    schema_list pg' = schema_list pg /\
    table_list pg' = table_list pg /\
    table_detail pg' = table_detail pg /\
    store_catalog pg' = store_catalog pg /\
    store_schema pg' = store_schema pg /\
    store_table pg' = store_table pg.
Proof.
  intros He. unfold run_load_tables, bind.
  rewrite CatalogFacts.load_tables_idle by reflexivity.
  cbn [fst snd inserted changed set app].
  replace (arrange (detail_order r) [] earlier) with earlier
    by (destruct (detail_order r); cbn; [reflexivity | now rewrite app_nil_r]).
  destruct earlier as [|x earlier].
  - eexists. split; [reflexivity|]. cbn. repeat split.
  - destruct (He x (or_introl eq_refl)) as (s & ->).
    match goal with
    | |- context [run_show_detail w ?c ?t ?g p] =>
        destruct (run_show_detail_store w s earlier t g p)
          as (pg' & E & F)
    end.
    exists pg'. split; [exact E|]. cbn in F. exact F.
Qed.

(** On a context led by a schema item, with a catalog selected, a client
    and a listing that answers, [load_tables] rewrites the table list and
    the schema slot, whatever the click counts. *)
Lemma run_load_tables_led (r : Renderer) (w : World) (schema catalog : string)
  (rest : list component_id) (schema_clicks table_clicks : list (option nat))
  (earlier : list component_id) (pg : Page) (p : Proc)
  (listing : list (option string)) :
  store_catalog pg = Some catalog ->
  catalog <> "" ->
  LruCache.slot p <> None ->
  tables_list w catalog schema = Ok listing ->
  exists pg' p',
    run_load_tables r w (IdDict "schema-item" schema :: rest) schema_clicks
      table_clicks earlier pg p = (Ok pg', p') /\
    cat_list pg' = cat_list pg /\
    schema_list pg' = schema_list pg /\
    store_catalog pg' = store_catalog pg /\
    store_table pg' = store_table pg /\
    table_list pg' = Some (list_group "table-item" (names listing)) /\
    store_schema pg' = Some schema.
Proof.
  intros Hc Hne Hs Hl. unfold run_load_tables, bind. rewrite Hc.
  rewrite (CatalogFacts.load_tables_led w schema catalog rest _ p Hne).
  unfold load_tables_try, bind, lift, ret.
  rewrite (CatalogFacts.client_hit w p Hs), Hl. cbn [fst snd set].
  match goal with
  | |- context [arrange ?o ?i ?c] => destruct (arrange o i c) as [|x ctx']
  end.
  - do 2 eexists. split; [reflexivity|]. cbn. repeat split.
  - match goal with
    | |- context [run_show_detail w ?c ?t ?g ?q] =>
        destruct (run_show_detail_frame w c t g q)
          as (pg' & p' & E & F1 & F2 & F3 & F4 & F5 & F6)
    end.
    exists pg', p'. split; [exact E|]. cbn in *.
    repeat split; assumption.
Qed.

(** ** C4: a click on a catalog *)

(** C4 (what the code does). A click on a catalog whose schemas are
    listed replaces the schema list with the items of that listing and
    publishes the catalog slot; the catalog list is left as it was. The
    schema items being new in the page, [load_tables] then runs on a context
    led by the first of them, none of them clicked. [load_tables] has no
    guard on the click counts: with a renderer that lists the inserted items
    first it lists the tables of that first schema, replaces the table list
    by them and writes the schema into the schema slot, whatever these held
    before. [load_schemas], next to it, has the guard: items that were never
    clicked make it answer [no_update], on every context. *)
Theorem catalog_click_reaches_the_tables (r : Renderer) (w : World)
  (cat first : string) (others : list string)
  (cat_clicks schema_clicks table_clicks : list (option nat))
  (pg : Page) (p : Proc) (schemas tables : list (option string)) :
  tables_order r = InsertedFirst ->
  any cat_clicks = true ->
  cat <> "" ->
  fst (_client w p) = Ok tt ->
  schemas_list w cat = Ok schemas ->
  names schemas = first :: others ->
  tables_list w cat first = Ok tables ->
  (exists pg' p' shown_schemas shown_tables,
     click_catalog r w cat cat_clicks schema_clicks table_clicks pg p =
       (Ok pg', p') /\
     cat_list pg' = cat_list pg /\
     store_catalog pg' = Some cat /\
     schema_list pg' = Some shown_schemas /\
     texts shown_schemas = first :: others /\
     item_ids shown_schemas = map (pair "schema-item") (first :: others) /\
     table_list pg' = Some shown_tables /\
     texts shown_tables = names tables /\
     item_ids shown_tables = map (pair "table-item") (names tables) /\
     store_schema pg' = Some first) /\
  (forall ctx items p0,
     load_schemas w ctx (fresh items) p0 = (Ok (no_update, no_update), p0)).
Proof.
  intros Ho Hany Hne Hcl Hl Hn Ht. split.
  - unfold click_catalog, run_load_schemas, bind.
    rewrite (CatalogFacts.load_schemas_click w cat cat_clicks p Hany).
    pose proof (CatalogFacts.load_schemas_try_listing w cat p schemas Hcl Hl)
      as L.
    assert (P1 : snd (load_schemas_try w cat p) = snd (_client w p)).
    { unfold load_schemas_try, bind, lift, ret.
      destruct (_client w p) as [[[]|e] p1]; [|reflexivity].
      rewrite Hl. reflexivity. }
    pose proof (CatalogFacts.client_ok_slot w p Hcl) as Slot.
    rewrite <- P1 in Slot.
    destruct (load_schemas_try w cat p) as [[o|e] p1]; cbn in L, Slot;
      [|discriminate L].
    inversion L; subst o. clear L.
    cbn [fst snd inserted changed set].
    rewrite CatalogFacts.item_ids_list_group, Hn, Ho.
    cbn [map arrange app fst snd].
    match goal with
    | |- context [run_load_tables r w (IdDict ?t ?i :: ?rest) ?sc ?tc ?e ?g p1] =>
        destruct (run_load_tables_led r w i cat rest sc tc e g p1 tables
                    eq_refl Hne Slot Ht)
          as (pg' & p' & E & F1 & F2 & F3 & F4 & F5 & F6)
    end.
    exists pg', p', (list_group "schema-item" (first :: others)),
      (list_group "table-item" (names tables)).
    split; [exact E|]. cbn in F1, F2, F3, F4.
    rewrite <- Hn in F2.
    split; [exact F1|]. split; [exact F3|].
    split; [rewrite F2, Hn; reflexivity|].
    split; [apply CatalogFacts.texts_list_group|].
    split; [apply CatalogFacts.item_ids_list_group|].
    split; [exact F5|].
    split; [apply CatalogFacts.texts_list_group|].
    split; [apply CatalogFacts.item_ids_list_group | exact F6].
  - intros ctx items p0. apply CatalogFacts.load_schemas_idle. right.
    unfold fresh, any. induction items as [|i items IH]; [reflexivity|].
    cbn. exact IH.
Qed.

(** The page shows the catalog "samples" and the tables of its schema
    "tpch"; the user clicks the catalog "main", which has one schema,
    "default". No schema was clicked, and the page now shows the table of
    "main.default" and holds "default" in the schema slot. *)
Lemma catalog_click_reaches_the_tables_witness :
  texts (match table_list browsing_tpch with Some c => c | None => Txt "" end)
    = ["orders"; "customer"] /\
  store_schema browsing_tpch = Some "tpch" /\
  exists pg' p' shown_tables,
    click_catalog items_first two_catalogs "main" [None; Some 1] [None]
      [None] browsing_tpch init = (Ok pg', p') /\
    table_list pg' = Some shown_tables /\
    texts shown_tables = ["trips"] /\
    store_schema pg' = Some "default".
Proof.
  split; [reflexivity|]. split; [reflexivity|].
  destruct (proj1 (catalog_click_reaches_the_tables items_first two_catalogs
                     "main" "default" [] [None; Some 1] [None]
                     [None] browsing_tpch init [Some "default"]
                     [Some "trips"] eq_refl eq_refl ltac:(discriminate)
                     eq_refl eq_refl eq_refl eq_refl))
    as (pg' & p' & ss & ts & H1 & _ & _ & _ & _ & _ & H7 & H8 & _ & H10).
  exists pg', p', ts. repeat split; assumption.
Defined.

(** The scenario of the specification, replayed with a renderer that
    lists the inserted items first for [load_tables] and the stores first
    for [show_detail]: mount, click "samples" (which already shows the table
    of its first schema, "nyctaxi"), click "tpch". *)
Example browse_samples_tpch :
  let '(r1, p1) := mount items_then_stores two_catalogs initial_page init in
  match r1 with
  | Ok pg1 =>
      let '(r2, p2) :=
        click_catalog items_then_stores two_catalogs "samples"
          [Some 1; None] [None; None] [None] pg1 p1 in
      match r2 with
      | Ok pg2 =>
          option_map texts (table_list pg2) = Some ["trips"] /\
          store_schema pg2 = Some "nyctaxi" /\
          fst (click_schema items_then_stores two_catalogs "tpch"
                 [None; Some 1] [None; None] pg2 p2) =
            Ok browsing_tpch
      | Raise _ => False
      end
  | Raise _ => False
  end.
Proof. repeat split. Qed.

End SelectionFacts.

(* ================================================================== *)
(** * Further properties of utils/sql_client.py *)
(* ================================================================== *)

Module WarehouseFacts.

Import LruCache SqlClient Scenarios.

(** ** Every call is counted once *)

Lemma call_counts {K V : Type} (eqb : K -> K -> bool) (f : K -> result V)
  (k : K) (c : LruCache.t K V) :
  hits (snd (call eqb f k c)) + misses (snd (call eqb f k c)) =
    S (hits c + misses c).
Proof.
  unfold call, enter. destruct (lookup eqb k c) as [v|] eqn:L; cbn.
  - reflexivity.
  - unfold leave. destruct (f k) as [v|e]; cbn.
    + unfold store, lookup in *. cbn. rewrite L. cbn. lia.
    + lia.
Qed.

Lemma run_query_counts (w : World) (query : string) (p : Proc) :
  calls_of (wh_cache (snd (run_query w query p))) = S (calls_of (wh_cache p))
  /\
  calls_of (conn_cache p) <= calls_of (conn_cache (snd (run_query w query p)))
    <= S (calls_of (conn_cache p)).
Proof.
  unfold run_query, bind, get_warehouse_http_path, on_wh_cache, calls_of.
  pose proof (call_counts unit_eqb (get_warehouse_http_path_wrapped w) tt
                (wh_cache p)) as Hw.
  destruct (call unit_eqb (get_warehouse_http_path_wrapped w) tt (wh_cache p))
    as [[hp|e] c1]; cbn [fst snd] in *.
  - destruct (negb (truthy_opt_str hp)); cbn.
    + lia.
    + unfold get_connection, on_conn_cache. cbn.
      pose proof (call_counts String.eqb (get_connection_wrapped w)
                    (fmt_opt_str hp) (conn_cache p)) as Hc.
      destruct (call String.eqb (get_connection_wrapped w) (fmt_opt_str hp)
                  (conn_cache p)) as [[c|e] c2]; cbn [fst snd] in *;
        unfold lift; cbn; lia.
  - cbn. lia.
Qed.

(** The counters of [cache_info()] account for every query: a sequence of
    [run_query] calls adds exactly one discovery call per query (hit or
    miss) and at most one connection call per query. *)
Theorem queries_are_counted (qs : list (World * string)) :
  forall p : Proc,
    let p' :=
      snd (sequence (map (fun q => run_query (fst q) (snd q)) qs) p) in
    calls_of (wh_cache p') = calls_of (wh_cache p) + List.length qs /\
    calls_of (conn_cache p) <= calls_of (conn_cache p')
      <= calls_of (conn_cache p) + List.length qs.
Proof.
  induction qs as [|[w q] qs IH]; intros p; cbn [map sequence fst snd].
  - cbn. lia.
  - pose proof (run_query_counts w q p) as H1.
    destruct (run_query w q p) as [r p1]. cbn [fst snd] in *.
    specialize (IH p1). cbn zeta in IH.
    destruct (sequence (map (fun q0 => run_query (fst q0) (snd q0)) qs) p1)
      as [rs p2].
    cbn [fst snd List.length] in *. lia.
Qed.

(** ** A discovery that found nothing is final *)

Lemma run_query_stored_none (w : World) (query : string) (p : Proc) :
  slot (wh_cache p) = Some (tt, None) ->
  run_query w query p =
    (Raise (mkExn RuntimeError "No SQL warehouse available."),
     {| wh_cache := {| slot := slot (wh_cache p);
                       hits := S (hits (wh_cache p));
                       misses := misses (wh_cache p) |};
        conn_cache := conn_cache p |}).
Proof.
  intros H. unfold run_query, bind.
  rewrite (SqlClientFacts.wh_later_call w p tt None H). reflexivity.
Qed.

Lemma run_query_finds_none (w : World) (query : string) (p : Proc) :
  slot (wh_cache p) = None ->
  get_warehouse_http_path_wrapped w tt = Ok None ->
  run_query w query p =
    (Raise (mkExn RuntimeError "No SQL warehouse available."),
     {| wh_cache := {| slot := Some (tt, None);
                       hits := hits (wh_cache p);
                       misses := S (misses (wh_cache p)) |};
        conn_cache := conn_cache p |}).
Proof.
  intros H Hw. unfold run_query, bind.
  rewrite (SqlClientFacts.wh_first_call w p None H Hw). reflexivity.
Qed.

Lemma stored_none_stays (qs : list (World * string)) :
  forall p : Proc,
    slot (wh_cache p) = Some (tt, None) ->
    Forall
      (fun r => r = Raise (mkExn RuntimeError "No SQL warehouse available."))
      (fst (sequence (map (fun q => run_query (fst q) (snd q)) qs) p)) /\
    conn_cache
      (snd (sequence (map (fun q => run_query (fst q) (snd q)) qs) p)) =
      conn_cache p /\
    misses
      (wh_cache
         (snd (sequence (map (fun q => run_query (fst q) (snd q)) qs) p))) =
      misses (wh_cache p).
Proof.
  induction qs as [|[w q] qs IH]; intros p H; cbn [map sequence fst snd].
  - cbn. auto.
  - rewrite (run_query_stored_none w q p H).
    match goal with |- context [sequence _ ?q] => set (p1 := q) end.
    specialize (IH p1 H).
    destruct (sequence (map (fun q0 => run_query (fst q0) (snd q0)) qs) p1)
      as [rs p2].
    cbn [fst snd] in *. destruct IH as (A & B & C).
    split; [constructor; [reflexivity | exact A]|].
    split; [rewrite B | rewrite C]; reflexivity.
Qed.

(** Once discovery has reported no warehouse, every later query raises
    "No SQL warehouse available." whatever the workspace answers by then,
    no connection is ever attempted and discovery is not run again. *)
Theorem no_warehouse_is_final (w : World) (query : string) (p : Proc)
  (qs : list (World * string)) :
  slot (wh_cache p) = None ->
  get_warehouse_http_path_wrapped w tt = Ok None ->
  let p1 := snd (run_query w query p) in
  let later := sequence (map (fun q => run_query (fst q) (snd q)) qs) p1 in
  Forall
    (fun r => r = Raise (mkExn RuntimeError "No SQL warehouse available."))
    (fst (run_query w query p) :: fst later) /\
  conn_cache (snd later) = conn_cache p /\
  misses (wh_cache (snd later)) = S (misses (wh_cache p)).
Proof.
  intros H Hw. cbn zeta. rewrite (run_query_finds_none w query p H Hw).
  cbn [fst snd].
  match goal with |- context [sequence _ ?q] => set (p1 := q) end.
  destruct (stored_none_stays qs p1 eq_refl) as (A & B & C).
  split; [constructor; [reflexivity | exact A]|].
  split; [rewrite B | rewrite C]; reflexivity.
Qed.

Lemma no_warehouse_is_final_witness :
  Forall
    (fun r => r = Raise (mkExn RuntimeError "No SQL warehouse available."))
    (fst (run_query offline "SELECT 1" init)
     :: fst (sequence
               (map (fun q => run_query (fst q) (snd q))
                  [(online (Some "abc123") [] 1, "SELECT 1");
                   (online None three_warehouses 2, "SELECT 2")])
               (snd (run_query offline "SELECT 1" init)))).
Proof.
  exact (proj1 (no_warehouse_is_final offline "SELECT 1" init
                  [(online (Some "abc123") [] 1, "SELECT 1");
                   (online None three_warehouses 2, "SELECT 2")]
                  eq_refl eq_refl)).
Defined.

(** ** A failed connection is tried again, discovery is not *)

(** When discovery resolves a path and opening the connection fails, the
    query raises that failure; the next query opens the connection again for
    the same stored path, without running discovery again, and hands its
    text to the cursor of the new connection. *)
Theorem failed_connection_is_retried (w w' : World) (query query' : string)
  (p : Proc) (path : string) (e : exn) (c : Connection) :
  slot (wh_cache p) = None ->
  slot (conn_cache p) = None ->
  get_warehouse_http_path_wrapped w tt = Ok (Some path) ->
  path <> "" ->
  get_connection_wrapped w path = Raise e ->
  get_connection_wrapped w' path = Ok c ->
  let p1 := snd (run_query w query p) in
  fst (run_query w query p) = Raise e /\
  fst (run_query w' query' p1) = cursor_execute w' c query' /\
  misses (wh_cache (snd (run_query w' query' p1))) = S (misses (wh_cache p)) /\
  slot (conn_cache (snd (run_query w' query' p1))) = Some (path, c).
Proof.
  intros Hwh Hc Hw Hne Hf Hf'. cbn zeta.
  assert (T : truthy_opt_str (Some path) = true).
  { destruct path; [congruence | reflexivity]. }
  unfold run_query, bind.
  rewrite (SqlClientFacts.wh_first_call w p (Some path) Hwh Hw).
  rewrite T. cbn [negb fmt_opt_str].
  match goal with |- context [get_connection w path ?q] => set (p1 := q) end.
  assert (L : lookup String.eqb path (conn_cache p1) = None).
  { unfold lookup. cbn. rewrite Hc. reflexivity. }
  rewrite (SqlClientFacts.conn_miss_raise w path p1 e L Hf).
  cbn [fst snd].
  match goal with
  | |- context [get_warehouse_http_path w' ?q] => set (p2 := q)
  end.
  rewrite (SqlClientFacts.wh_later_call w' p2 tt (Some path) eq_refl).
  rewrite T. cbn [negb fmt_opt_str].
  match goal with |- context [get_connection w' path ?q] => set (p3 := q) end.
  assert (L3 : lookup String.eqb path (conn_cache p3) = None).
  { unfold lookup. cbn. rewrite Hc. reflexivity. }
  rewrite (SqlClientFacts.conn_miss_ok w' path p3 c L3 Hf').
  unfold lift. cbn. auto.
Qed.

Lemma failed_connection_is_retried_witness :
  fst (run_query
         {| WorkspaceClient := Ok tt;
            getenv_DATABRICKS_WAREHOUSE_ID := Some "abc123";
            warehouses_list := Ok [];
            Config_host := Raise no_credentials;
            sql_connect := fun _ _ => Ok 0;
            cursor_execute := fun _ _ => Ok no_frame |}
         "SELECT 1" init) = Raise no_credentials.
Proof.
  exact (proj1 (failed_connection_is_retried
                  {| WorkspaceClient := Ok tt;
                     getenv_DATABRICKS_WAREHOUSE_ID := Some "abc123";
                     warehouses_list := Ok [];
                     Config_host := Raise no_credentials;
                     sql_connect := fun _ _ => Ok 0;
                     cursor_execute := fun _ _ => Ok no_frame |}
                  (online None [] 7) "SELECT 1" "SELECT 2" init
                  "/sql/1.0/warehouses/abc123" no_credentials 7
                  eq_refl eq_refl eq_refl ltac:(discriminate)
                  eq_refl eq_refl)).
Defined.

(** ** The text of a query is passed on as it is *)

Lemma run_query_connected (w : World) (query path : string)
  (c : Connection) (p : Proc) :
  slot (wh_cache p) = Some (tt, Some path) ->
  path <> "" ->
  lookup String.eqb path (conn_cache p) = Some c ->
  fst (run_query w query p) = cursor_execute w c query.
Proof.
  intros Hwh Hne Hc. unfold run_query, bind.
  rewrite (SqlClientFacts.wh_later_call w p tt (Some path) Hwh).
  destruct path as [|a path]; [congruence|].
  cbn [truthy_opt_str truthy_str negb fmt_opt_str].
  match goal with |- context [get_connection w ?k ?q] => set (p1 := q) end.
  assert (L : lookup String.eqb (String a path) (conn_cache p1) = Some c)
    by exact Hc.
  rewrite (SqlClientFacts.conn_hit w _ p1 c L). reflexivity.
Qed.

(** [run_query] hands the text to the cursor of the cached connection
    unchanged, and its answer is the cursor's answer. *)
Theorem query_text_is_passed_on (w : World) (query path : string)
  (c : Connection) (p : Proc) :
  slot (wh_cache p) = Some (tt, Some path) ->
  path <> "" ->
  lookup String.eqb path (conn_cache p) = Some c ->
  fst (run_query w query p) = cursor_execute w c query.
Proof.
  intros Hwh Hne Hc. unfold run_query, bind.
  rewrite (SqlClientFacts.wh_later_call w p tt (Some path) Hwh).
  destruct path as [|a path]; [congruence|].
  cbn [truthy_opt_str truthy_str negb fmt_opt_str].
  match goal with |- context [get_connection w ?k ?q] => set (p1 := q) end.
  assert (L : lookup String.eqb (String a path) (conn_cache p1) = Some c)
    by exact Hc.
  rewrite (SqlClientFacts.conn_hit w _ p1 c L). reflexivity.
Qed.

Lemma query_text_is_passed_on_witness :
  fst (run_query (online None [] 9) "SELECT 'a;b' -- as typed"
         (snd (run_query (online (Some "abc123") [] 1) "SELECT 1" init))) =
    Ok no_frame.
Proof.
  exact (query_text_is_passed_on (online None [] 9)
           "SELECT 'a;b' -- as typed" "/sql/1.0/warehouses/abc123" 1
           (snd (run_query (online (Some "abc123") [] 1) "SELECT 1" init))
           eq_refl ltac:(discriminate) eq_refl).
Defined.

End WarehouseFacts.

(* ================================================================== *)
(** * Properties of the text that the SQL explorer executes and shows *)
(* ================================================================== *)

Module TextFacts.

Import SqlClient Components SqlExplorer.

Lemma lower_app (a b : string) :
  lower (a ++ b) = (lower a ++ lower b)%string.
Proof. induction a as [|c a IH]; cbn; [reflexivity | rewrite IH; reflexivity]. Qed.

Lemma prefix_app_l (x a b : string) :
  String.prefix x a = true -> String.prefix x (a ++ b) = true.
Proof.
  revert a. induction x as [|c x IH]; intros a H.
  - destruct (a ++ b)%string; reflexivity.
  - destruct a as [|d a]; cbn in *; [discriminate|].
    destruct (ascii_dec c d); [auto | discriminate].
Qed.

Lemma contains_app_l (x a b : string) :
  contains x a = true -> contains x (a ++ b) = true.
Proof.
  induction a as [|c a IH]; intros H.
  - cbn in H. rewrite orb_false_r in H.
    destruct x; [|discriminate H].
    destruct b; reflexivity.
  - cbn [contains] in H. apply orb_true_iff in H. cbn [append contains].
    apply orb_true_iff. destruct H as [H|H].
    + left. apply (prefix_app_l x (String c a) b H).
    + right. auto.
Qed.

Lemma contains_app_r (x a b : string) :
  contains x b = true -> contains x (a ++ b) = true.
Proof.
  intros H. induction a as [|c a IH]; [exact H|].
  cbn [append contains]. rewrite IH. apply orb_true_r.
Qed.

Lemma last_char_app (a b : string) :
  b <> "" -> last_char (a ++ b) = last_char b.
Proof.
  intros Hb. induction a as [|c a IH]; [reflexivity|].
  cbn [append]. cbn [last_char]. rewrite IH.
  destruct (a ++ b)%string eqn:E; [|reflexivity].
  destruct a; cbn in E; [congruence | discriminate].
Qed.

Lemma last_char_all (p : ascii -> bool) (s : string) (c : ascii) :
  all_chars p s = true -> last_char s = Some c -> p c = true.
Proof.
  induction s as [|a s IH]; cbn [all_chars last_char]; [discriminate|].
  intros H L. apply andb_true_iff in H. destruct H as [Ha Hs].
  destruct s as [|b s]; [inversion L; subst; exact Ha | auto].
Qed.

Lemma rstrip_by_last (p : ascii -> bool) (s : string) (c : ascii) :
  last_char (rstrip_by p s) = Some c -> p c = false.
Proof.
  induction s as [|a s IH]; cbn [rstrip_by]; [discriminate|].
  destruct (rstrip_by p s) as [|b r] eqn:E.
  - destruct (p a) eqn:Pa; cbn; [discriminate|].
    intros H. inversion H; subst. exact Pa.
  - intros H. apply IH. exact H.
Qed.

(** ** Decimal numerals *)

Lemma uint_chars (d : Decimal.uint) :
  all_chars numeral_char (NilEmpty.string_of_uint d) = true.
Proof. induction d; cbn; auto. Qed.

Lemma str_of_Z_chars (z : Z) : all_chars numeral_char (str_of_Z z) = true.
Proof.
  unfold str_of_Z, NilZero.string_of_int, NilZero.string_of_uint.
  destruct (Z.to_int z) as [d|d].
  - destruct d; try reflexivity; apply (uint_chars (_ _)).
  - cbn [all_chars]. destruct d; try reflexivity; apply (uint_chars (_ _)).
Qed.

Lemma str_of_Z_nonempty (z : Z) : str_of_Z z <> "".
Proof.
  unfold str_of_Z, NilZero.string_of_int, NilZero.string_of_uint.
  destruct (Z.to_int z) as [d|d]; destruct d; discriminate.
Qed.

(** ** The executed statement *)

(** Whatever the submitted text and the requested cap, the statement that
    [run_sql] executes contains the letters "limit" (in some case) and does
    not end with a semicolon; the text that is wrapped between the
    parentheses does not end with a semicolon either. *)
Theorem executed_statement_shape (query : string) (max_rows : option Z) :
  contains "limit" (lower (statement query max_rows)) = true /\
  last_char (statement query max_rows) <> Some ";"%char /\
  last_char (rstrip ";" (strip query)) <> Some ";"%char.
Proof.
  assert (S : last_char (rstrip ";" (strip query)) <> Some ";"%char).
  { intros H. apply rstrip_by_last in H. discriminate H. }
  split; [|split; [|exact S]].
  - unfold statement.
    destruct (contains "limit" (lower (rstrip ";" (strip query)))) eqn:E;
      cbn [negb]; [exact E|].
    rewrite !lower_app. apply contains_app_r, contains_app_r, contains_app_l.
    reflexivity.
  - unfold statement.
    destruct (contains "limit" (lower (rstrip ";" (strip query)))) eqn:E;
      cbn [negb]; [exact S|].
    rewrite !last_char_app.
    + intros H.
      apply (last_char_all numeral_char _ _ (str_of_Z_chars _)) in H.
      discriminate H.
    + apply str_of_Z_nonempty.
    + cbn. discriminate.
    + destruct (rstrip ";" (strip query)); cbn; discriminate.
Qed.

(** Whitespace before the semicolon is kept, and a text made of
    semicolons wraps an empty subquery. *)
Example inner_whitespace_is_kept :
  statement "SELECT 1 ; " None = "SELECT * FROM (SELECT 1 ) _q LIMIT 500" /\
  statement ";;" (Some 10%Z) = "SELECT * FROM () _q LIMIT 10".
Proof. split; reflexivity. Qed.

(** ** The row count of the success alert *)

Lemma without_commas_list (l : list ascii) :
  without_commas (string_of_list_ascii l) =
    string_of_list_ascii
      (filter (fun c => negb (Ascii.eqb c ","%char)) l).
Proof.
  induction l as [|c l IH]; cbn; [reflexivity|].
  destruct (Ascii.eqb c ","%char); cbn; rewrite IH; reflexivity.
Qed.

Lemma group3_filter (l : list ascii) :
  forall k,
    filter (fun c => negb (Ascii.eqb c ","%char)) (group3 l k) =
    filter (fun c => negb (Ascii.eqb c ","%char)) l.
Proof.
  induction l as [|c l IH]; intros k; cbn [group3]; [reflexivity|].
  destruct k; cbn [filter].
  - cbn. rewrite IH. reflexivity.
  - rewrite IH. reflexivity.
Qed.

Lemma filter_rev {A} (p : A -> bool) (l : list A) :
  filter p (rev l) = rev (filter p l).
Proof.
  induction l as [|a l IH]; cbn; [reflexivity|].
  rewrite filter_app, IH. cbn. destruct (p a); cbn.
  - reflexivity.
  - rewrite app_nil_r. reflexivity.
Qed.

Lemma filter_all (p : ascii -> bool) (s : string) :
  all_chars p s = true -> filter p (list_ascii_of_string s) = list_ascii_of_string s.
Proof.
  induction s as [|c s IH]; cbn; [reflexivity|].
  intros H. apply andb_true_iff in H. destruct H as [Hc Hs].
  rewrite Hc, IH by exact Hs. reflexivity.
Qed.

Lemma all_chars_weaken (p q : ascii -> bool) (s : string) :
  (forall c, p c = true -> q c = true) ->
  all_chars p s = true -> all_chars q s = true.
Proof.
  intros Hpq. induction s as [|c s IH]; cbn; [reflexivity|].
  intros H. apply andb_true_iff in H. destruct H as [Hc Hs].
  rewrite (Hpq c Hc), IH by exact Hs. reflexivity.
Qed.

(** The row count shown by the success alert, read without its thousands
    separators, is the decimal numeral of the number of rows of the frame;
    the alert is the first child of the rendered results. *)
Theorem row_count_reads_back (df : DataFrame) :
  without_commas (fmt_thousands (nrows df)) =
    str_of_Z (Z.of_nat (nrows df)) /\
  hd (Txt "") (content df) =
    El "dbc.Alert" [("color", AStr "success")]
      [Txt ("✅ " ++ fmt_thousands (nrows df) ++ " rows returned")].
Proof.
  split; [|reflexivity].
  unfold fmt_thousands.
  rewrite without_commas_list, filter_rev, group3_filter, filter_rev.
  rewrite rev_involutive, filter_all.
  - apply string_of_list_ascii_of_string.
  - apply (all_chars_weaken numeral_char); [|apply str_of_Z_chars].
    intros c. unfold numeral_char. cbn [mem_ascii].
    destruct (Ascii.eqb_spec c ","%char) as [->|]; [discriminate|reflexivity].
Qed.

Example row_count_groups :
  fmt_thousands 0 = "0" /\ fmt_thousands 999 = "999" /\
  fmt_thousands 1000 = "1,000" /\ fmt_thousands 4999 = "4,999".
Proof. repeat split. Qed.

End TextFacts.

(* ================================================================== *)
(** * Properties of the navigation bar *)
(* ================================================================== *)

Module NavigationFacts.

Import Components.

Lemma navbar_active_links (active : string) :
  active_links (navbar active) =
    filter (fun href => String.eqb href active) (map snd pages).
Proof.
  unfold navbar, pages. cbn -[String.eqb].
  repeat match goal with
         | |- context [String.eqb ?h active] =>
             destruct (String.eqb h active)
         end; reflexivity.
Qed.

(** [navbar] marks as active exactly the link of the page whose path it is
    given: one link when the path is one of the six pages, none
    otherwise. *)
Theorem navbar_marks_the_current_page (active : string) :
  (In active (map snd pages) -> active_links (navbar active) = [active]) /\
  (~ In active (map snd pages) -> active_links (navbar active) = []).
Proof.
  rewrite navbar_active_links. split.
  - intros H. cbn in H.
    repeat (destruct H as [H|H]; [subst active; reflexivity|]).
    destruct H.
  - intros H.
    assert (G : forall l,
               ~ In active l ->
               filter (fun href => String.eqb href active) l = []).
    { induction l as [|h l IH]; intros Hl; cbn; [reflexivity|].
      destruct (String.eqb_spec h active) as [E|E].
      - exfalso. apply Hl. left. exact E.
      - apply IH. intros Hin. apply Hl. right. exact Hin. }
    apply G. exact H.
Qed.

Lemma navbar_marks_the_current_page_witness :
  active_links (navbar "/sales") = ["/sales"].
Proof.
  apply (proj1 (navbar_marks_the_current_page "/sales")).
  cbn. tauto.
Defined.

End NavigationFacts.

(* ================================================================== *)
(** * Further properties of pages/sql_explorer.py *)
(* ================================================================== *)

Module ExplorerFacts.

Import SqlClient Components Dash SqlExplorer Scenarios.

(** ** The starter queries *)





(** ** The chart callback *)

(** With an empty data store [update_viz] returns [None] and parses
    nothing. Otherwise it parses the stored text, outside its [try] block: a
    parse failure leaves the callback. The chart drawn is the one named by
    [chart_type], and the area chart for any other value; what plotting
    raises is rendered as the alert, and a successful plot is returned with
    its top margin set to 30. *)
Theorem chart_callback_outcomes (w : Plotting) (x y chart_type : string)
  (data_json : option string) :
  (truthy_opt_str data_json = false ->
   update_viz w x y chart_type data_json tt = (Ok None, tt)) /\
  (forall text,
     data_json = Some text -> text <> "" ->
     (forall e, read_json w text = Raise e ->
        fst (update_viz w x y chart_type data_json tt) = Raise e) /\
     (forall df, read_json w text = Ok df ->
        (forall e, px w (chart_of chart_type) df x y = Raise e ->
           fst (update_viz w x y chart_type data_json tt) =
             Ok (Some (Failed (error_alert (exn_msg e))))) /\
        (px w (chart_of chart_type) df x y = Ok tt ->
           fst (update_viz w x y chart_type data_json tt) =
             Ok (Some (Graph (figure_of (chart_of chart_type) df x y)))))) /\
  (chart_type <> "Bar" -> chart_type <> "Line" -> chart_type <> "Scatter" ->
   chart_of chart_type = Area).
Proof.
  split; [|split].
  - intros H. unfold update_viz. rewrite H. reflexivity.
  - intros text -> Hne.
    assert (T : truthy_opt_str (Some text) = true).
    { destruct text; [congruence | reflexivity]. }
    unfold update_viz. rewrite T.
    cbn [negb fmt_opt_str]. unfold bind, lift, try_except, ret, plot.
    split.
    + intros e H. rewrite H. reflexivity.
    + intros df H. rewrite H. unfold chart_of, bind, lift, ret.
      split.
      * intros e. destruct (String.eqb chart_type "Bar");
          [|destruct (String.eqb chart_type "Line");
            [|destruct (String.eqb chart_type "Scatter")]];
          intros Hp; rewrite Hp; reflexivity.
      * destruct (String.eqb chart_type "Bar");
          [|destruct (String.eqb chart_type "Line");
            [|destruct (String.eqb chart_type "Scatter")]];
          intros Hp; rewrite Hp; reflexivity.
  - intros H1 H2 H3. unfold chart_of.
    destruct (String.eqb_spec chart_type "Bar"); [contradiction|].
    destruct (String.eqb_spec chart_type "Line"); [contradiction|].
    destruct (String.eqb_spec chart_type "Scatter"); [contradiction|].
    reflexivity.
Qed.

Lemma chart_callback_outcomes_witness :
  update_viz plots "o_orderstatus" "orders" "Bar" None tt = (Ok None, tt) /\
  fst (update_viz plots "o_orderstatus" "orders" "Pie" (Some "{}") tt) =
    Ok (Some (Graph (figure_of Area order_status_breakdown
                       "o_orderstatus" "orders"))) /\
  fst (update_viz plots "o_orderstatus" "missing" "Line" (Some "{}") tt) =
    Ok (Some (Failed
                (error_alert "Value of 'x' is not the name of a column"))).
Proof.
  split; [|split].
  - exact (proj1 (chart_callback_outcomes plots "o_orderstatus" "orders"
                    "Bar" None) eq_refl).
  - apply (proj2 (proj2 (proj1 (proj2
             (chart_callback_outcomes plots "o_orderstatus" "orders" "Pie"
                (Some "{}"))) "{}" eq_refl ltac:(discriminate))
             order_status_breakdown eq_refl)).
    reflexivity.
  - exact (proj1 (proj2 (proj1 (proj2
             (chart_callback_outcomes plots "o_orderstatus" "missing" "Line"
                (Some "{}"))) "{}" eq_refl ltac:(discriminate))
             order_status_breakdown eq_refl)
             (mkExn OtherError "Value of 'x' is not the name of a column")
             eq_refl).
Defined.

(** ** The initial values of the chart controls *)

(** When the visualisation section is shown, the initial value of each of
    its three drop-downs is one of the options of that drop-down: the first
    column for X, the first numeric column for Y, and "Bar", which selects
    the bar chart; the section also holds the [viz-chart] container that
    [update_viz] fills. *)
Theorem chart_controls_start_valid (df : DataFrame) :
  numeric_cols df <> [] ->
  (2 <= List.length (columns df))%nat ->
  (exists v, value_of "viz-x" (viz_section df) = Some v /\
             hd_error (all_cols df) = Some v /\ In v (all_cols df)) /\
  (exists v, value_of "viz-y" (viz_section df) = Some v /\
             hd_error (numeric_cols df) = Some v /\
             In v (numeric_cols df)) /\
  value_of "viz-type" (viz_section df) = Some "Bar" /\
  options_of "viz-type" (viz_section df) =
    Some ["Bar"; "Line"; "Scatter"; "Area"] /\
  chart_of "Bar" = Bar /\
  find_id "viz-chart" (viz_section df) =
    Some (El "html.Div" [("id", AStr "viz-chart")] []).
Proof.
  intros Hn Hc. unfold viz_section.
  destruct (numeric_cols df) as [|y0 ys] eqn:En; [congruence|].
  rewrite SqlExplorerFacts.all_cols_length.
  apply Nat.leb_le in Hc. rewrite Hc.
  assert (Ha : exists a rest, all_cols df = a :: rest).
  { unfold all_cols. apply Nat.leb_le in Hc.
    destruct (columns df) as [|c cs]; cbn in *; [lia | eauto]. }
  destruct Ha as (a & rest & Ea). rewrite Ea.
  repeat split.
  - exists a. cbn. auto.
  - exists y0. cbn. auto.
Qed.

Lemma chart_controls_start_valid_witness :
  value_of "viz-type" (viz_section order_status_breakdown) = Some "Bar" /\
  (exists v, value_of "viz-y" (viz_section order_status_breakdown) = Some v /\
             hd_error (numeric_cols order_status_breakdown) = Some v /\
             In v (numeric_cols order_status_breakdown)).
Proof.
  destruct (chart_controls_start_valid order_status_breakdown
              ltac:(discriminate) ltac:(cbn; lia))
    as (_ & H2 & H3 & _).
  split; assumption.
Defined.

(** ** A query that is not sent *)

(** [run_sql] treats a query as missing exactly when the editor holds
    nothing or white-space characters only (those of [str.isspace], the
    no-break space and the other Unicode spaces among them); it then answers
    with the warning "Please enter a SQL query." and an empty data store,
    and the module state is as it was: the warehouse is not asked. *)
Theorem blank_query_is_not_sent (w : World) (query : option string)
  (max_rows : option Z) (p : Proc) :
  (blank query = true <->
   query = None \/ exists q, query = Some q /\ spaces q) /\
  (blank query = true ->
   run_sql w query max_rows p =
     (Ok ([El "dbc.Alert" [("color", AStr "warning")]
             [Txt "Please enter a SQL query."]], None), p)).
Proof.
  split.
  - destruct query as [q|]; cbn [blank].
    + split.
      * intros H. right. exists q. split; [reflexivity|].
        apply PyFacts.strip_empty.
        destruct q as [|c q]; [reflexivity|]. cbn [truthy_str negb orb] in H.
        destruct (strip (String c q)); [reflexivity | discriminate H].
      * intros [H|(q' & E & H)]; [discriminate|]. inversion E; subst q'.
        apply PyFacts.strip_empty in H. rewrite H. apply orb_true_r.
    + split; [auto | reflexivity].
  - intros H. unfold run_sql. rewrite H. reflexivity.
Qed.

Lemma blank_query_is_not_sent_witness :
  run_sql (explorer offline)
    (Some (String "032" (String "194" (String "160" nl)))) None init =
    (Ok ([El "dbc.Alert" [("color", AStr "warning")]
            [Txt "Please enter a SQL query."]], None), init).
Proof.
  apply (proj2 (blank_query_is_not_sent (explorer offline)
                  (Some (String "032" (String "194" (String "160" nl))))
                  None init)).
  reflexivity.
Defined.

End ExplorerFacts.

(* ================================================================== *)
(** * Further properties of pages/catalog.py *)
(* ================================================================== *)

Module BrowsingFacts.

Import Components Dash Catalog Scenarios.

(** ** The catalog list *)

Lemma names_In (listing : list (option string)) (s : string) :
  In s (names listing) <-> In (Some s) listing /\ s <> "".
Proof.
  induction listing as [|[n|] rest IH]; cbn.
  - tauto.
  - destruct n as [|a n]; cbn.
    + rewrite IH. split.
      * intros [H1 H2]. split; [right; exact H1 | exact H2].
      * intros [[H|H] H2]; [inversion H; congruence | tauto].
    + split.
      * intros [H|H]; [subst; split; [left; reflexivity | discriminate]|].
        apply IH in H. tauto.
      * intros [[H|H] H2]; [left; congruence | right; apply IH; tauto].
  - rewrite IH. split; [tauto|].
    intros [[H|H] H2]; [discriminate | tauto].
Qed.

Lemma filter_idem {A} (f : A -> bool) (l : list A) :
  filter f (filter f l) = filter f l.
Proof. apply forallb_filter_id, forallb_filter. Qed.

(** When the client is there and the listing succeeds, [load_catalogs]
    renders a list whose items are, by their label and by the index of
    their id, the named catalogs of the listing: each entry of the listing
    that has a non-empty name and no other. With "samples" among them it
    comes first and exactly once, the others follow in the order of the
    listing; without it the list is the listing's. *)
Theorem catalogs_samples_first (w : World) (p : Proc)
  (listing : list (option string)) :
  fst (_client w p) = Ok tt ->
  catalogs_list w = Ok listing ->
  exists shown,
    fst (load_catalogs w p) = Ok shown /\
    item_ids shown = map (pair "cat-item") (texts shown) /\
    (forall s, In s (texts shown) <-> In (Some s) listing /\ s <> "") /\
    filter (fun c => negb (String.eqb c "samples")) (texts shown) =
      filter (fun c => negb (String.eqb c "samples")) (names listing) /\
    (In (Some "samples") listing ->
     hd_error (texts shown) = Some "samples" /\
     count_occ string_dec (texts shown) "samples" = 1) /\
    (~ In (Some "samples") listing -> texts shown = names listing).
Proof.
  intros Hc Hl.
  unfold load_catalogs, load_catalogs_try, try_except, bind, lift, ret.
  destruct (_client w p) as [[[]|e] p1]; cbn in Hc; [|discriminate].
  rewrite Hl. cbn [fst].
  destruct (existsb (String.eqb "samples") (names listing)) eqn:E.
  - assert (Hs : In "samples" (names listing)).
    { apply existsb_exists in E. destruct E as (x & Hx & Ex).
      apply String.eqb_eq in Ex. subst x. exact Hx. }
    eexists. split; [reflexivity|].
    rewrite CatalogFacts.texts_list_group, CatalogFacts.item_ids_list_group.
    split; [reflexivity|]. split; [|split; [|split]].
    + intros s. rewrite <- names_In. cbn [In]. rewrite filter_In. split.
      * intros [H|[H _]]; [subst s; exact Hs | exact H].
      * intros H. destruct (String.eqb_spec s "samples") as [->|Hne].
        -- left. reflexivity.
        -- right. split; [exact H | reflexivity].
    + cbn [filter String.eqb Ascii.eqb Bool.eqb negb]. apply filter_idem.
    + intros _. split; [reflexivity|].
      cbn [count_occ]. destruct (string_dec "samples" "samples"); [|congruence].
      f_equal. apply count_occ_not_In. rewrite filter_In.
      intros [_ H]. discriminate H.
    + intros H. exfalso. apply H. apply names_In in Hs. tauto.
  - eexists. split; [reflexivity|].
    rewrite CatalogFacts.texts_list_group, CatalogFacts.item_ids_list_group.
    split; [reflexivity|]. split; [|split; [|split]].
    + intros s. apply names_In.
    + reflexivity.
    + intros H. exfalso.
      assert (Hs : In "samples" (names listing)).
      { apply names_In. split; [exact H | discriminate]. }
      assert (T : existsb (String.eqb "samples") (names listing) = true).
      { apply existsb_exists. exists "samples". split; [exact Hs|].
        reflexivity. }
      congruence.
    + reflexivity.
Qed.

Lemma catalogs_samples_first_witness :
  exists shown,
    fst (load_catalogs samples_orders init) = Ok shown /\
    hd_error (texts shown) = Some "samples" /\
    count_occ string_dec (texts shown) "samples" = 1.
Proof.
  destruct (catalogs_samples_first samples_orders init
              [Some "main"; Some "samples"; Some "samples"]
              eq_refl eq_refl) as (shown & H1 & _ & _ & _ & H4 & _).
  exists shown. split; [exact H1|]. apply H4. cbn. tauto.
Defined.

(** ** The detail pane *)

Lemma rstrip_by_app (p : ascii -> bool) (a b : string) :
  rstrip_by p b <> "" ->
  rstrip_by p (a ++ b) = (a ++ rstrip_by p b)%string.
Proof.
  intros Hb. induction a as [|x a IH]; cbn; [reflexivity|].
  rewrite IH. destruct a; cbn.
  - destruct (rstrip_by p b); [congruence | reflexivity].
  - reflexivity.
Qed.

(** The explorer runs the SQL reference as it is shown. *)
Lemma reference_statement (col_names full_name : string)
  (max_rows : option Z) :
  SqlExplorer.statement (sql_reference col_names full_name) max_rows =
    sql_reference col_names full_name.
Proof.
  assert (A : sql_reference col_names full_name =
              (("SELECT " ++ col_names ++ nl ++ "FROM " ++ full_name ++ nl)
               ++ "LIMIT 100")%string).
  { unfold sql_reference. repeat rewrite PyFacts.append_assoc. reflexivity. }
  assert (S1 : strip (sql_reference col_names full_name) =
               sql_reference col_names full_name).
  { unfold strip.
    replace (lstrip_ws (sql_reference col_names full_name))
      with (sql_reference col_names full_name) by reflexivity.
    apply (PyFacts.rstrip_ws_fixed _ "0"%char); [|reflexivity].
    rewrite A. rewrite TextFacts.last_char_app by discriminate.
    reflexivity. }
  assert (S2 : rstrip ";" (sql_reference col_names full_name) =
               sql_reference col_names full_name).
  { unfold rstrip. rewrite A.
    rewrite rstrip_by_app by (vm_compute; discriminate). reflexivity. }
  unfold SqlExplorer.statement. rewrite S1, S2.
  replace (contains "limit" (lower (sql_reference col_names full_name)))
    with true; [reflexivity|].
  symmetry. rewrite A. rewrite TextFacts.lower_app.
  apply TextFacts.contains_app_r. reflexivity.
Qed.

Lemma texts_El (tag : string) (attrs : list (string * attr))
  (cs : list component) :
  texts (El tag attrs cs) = flat_map texts cs.
Proof.
  cbn [texts]. induction cs as [|c cs IH]; cbn; [reflexivity|].
  now rewrite IH.
Qed.

Lemma last_app {A} (l l' : list A) (d : A) :
  l' <> [] -> last (l ++ l') d = last l' d.
Proof.
  intros H. induction l as [|a l IH]; cbn; [reflexivity|].
  rewrite IH. destruct (l ++ l')%list eqn:E; [|reflexivity].
  apply app_eq_nil in E. tauto.
Qed.

Lemma join_names_named {S} (cols : list ColumnInfo) (s : S) :
  (forall c, In c cols -> col_name c <> None) ->
  join_names (map col_name cols) s =
    (Ok (map (fun c => fmt_opt_str (col_name c)) cols), s).
Proof.
  induction cols as [|c cols IH]; intros H; cbn; [reflexivity|].
  destruct (col_name c) as [n|] eqn:E.
  - unfold bind. rewrite IH by (intros c' Hc'; apply H; now right).
    reflexivity.
  - exfalso. apply (H c); [now left | exact E].
Qed.

Lemma join_names_unnamed {S} (cols : list ColumnInfo) (s : S) :
  (exists c, In c cols /\ col_name c = None) ->
  exists e, join_names (map col_name cols) s = (Raise e, s) /\
            exn_cls e = TypeError.
Proof.
  induction cols as [|c cols IH]; intros (c0 & Hin & Hn); [destruct Hin|].
  cbn. destruct (col_name c) as [n|] eqn:E.
  - destruct Hin as [->|Hin]; [congruence|].
    destruct (IH (ex_intro _ c0 (conj Hin Hn))) as (e & He & Hcls).
    exists e. unfold bind. rewrite He. split; [reflexivity | exact Hcls].
  - eexists. split; reflexivity.
Qed.

Lemma show_detail_on_click (w : World) (table catalog schema : string)
  (n_clicks : list (option nat)) (p : Proc) :
  catalog <> "" -> schema <> "" ->
  show_detail w (mkCtx [IdDict "table-item" table]) n_clicks
    (Some catalog) (Some schema) p =
  try_except
    (show_detail_try w (catalog ++ "." ++ schema ++ "." ++ table))
    (fun e => ret (Update (error_alert (exn_msg e)))) p.
Proof.
  intros Hc Hs. destruct catalog; [congruence|].
  destruct schema; [congruence|]. reflexivity.
Qed.

(** A click on a table whose metadata arrives: when every column has a
    name, the last text of the detail pane is the SQL reference, which
    selects the columns by name in their order (or [*] when the table
    reports no columns) from the table under the stored catalog and schema;
    the SQL explorer runs that text as it is shown, with its own
    [LIMIT 100] and without the row-cap wrapper. When some column has no
    name, joining the names fails and the pane shows the alert of that
    [TypeError] instead. *)
Theorem detail_reference_is_runnable (w : World) (table catalog schema : string)
  (n_clicks : list (option nat)) (p : Proc) (t : TableInfo) :
  catalog <> "" -> schema <> "" ->
  fst (_client w p) = Ok tt ->
  tables_get w (catalog ++ "." ++ schema ++ "." ++ table) = Ok t ->
  ((forall c, In c (columns_of (columns t)) -> col_name c <> None) ->
   exists d,
     fst (show_detail w (mkCtx [IdDict "table-item" table]) n_clicks
            (Some catalog) (Some schema) p) = Ok (Update d) /\
     let ref :=
       sql_reference
         (if truthy_columns (columns t)
          then join ", " (map (fun c => fmt_opt_str (col_name c))
                            (columns_of (columns t)))
          else "*")
         (catalog ++ "." ++ schema ++ "." ++ table) in
     last (texts d) "" = ref /\
     forall max_rows, SqlExplorer.statement ref max_rows = ref) /\
  ((exists c, In c (columns_of (columns t)) /\ col_name c = None) ->
   exists e,
     fst (show_detail w (mkCtx [IdDict "table-item" table]) n_clicks
            (Some catalog) (Some schema) p) =
       Ok (Update (error_alert (exn_msg e))) /\
     exn_cls e = TypeError).
Proof.
  intros Hc Hs Hcl Hg.
  rewrite (show_detail_on_click w table catalog schema n_clicks p Hc Hs).
  set (full := (catalog ++ "." ++ schema ++ "." ++ table)%string) in *.
  unfold try_except, show_detail_try, bind, lift.
  destruct (_client w p) as [[[]|e0] p1]; cbn in Hcl; [|discriminate].
  rewrite Hg. split.
  - intros Hn.
    destruct (truthy_columns (columns t)) eqn:T.
    + rewrite (join_names_named _ p1 Hn). unfold ret. cbn [fst].
      eexists. split; [reflexivity|]. cbv zeta.
      split; [|intros m; apply reference_statement].
      rewrite texts_El, flat_map_app. cbn [flat_map].
      rewrite app_nil_r, app_assoc.
      rewrite last_app by (cbn; discriminate).
      reflexivity.
    + unfold ret. cbn [fst].
      eexists. split; [reflexivity|]. cbv zeta.
      split; [|intros m; apply reference_statement].
      rewrite texts_El, flat_map_app. rewrite last_app by discriminate.
      reflexivity.
  - intros Hex.
    assert (T : truthy_columns (columns t) = true).
    { destruct Hex as (c & Hin & _).
      destruct (columns t) as [[|c' l]|]; cbn in Hin; tauto. }
    rewrite T.
    destruct (join_names_unnamed _ p1 Hex) as (e & He & Hcls).
    rewrite He. exists e. split; [reflexivity | exact Hcls].
Qed.

Lemma detail_reference_is_runnable_witness :
  exists d,
    fst (show_detail samples_orders (mkCtx [IdDict "table-item" "orders"])
           [Some 1; None] (Some "samples") (Some "tpch") init) =
      Ok (Update d) /\
    last (texts d) "" =
      sql_reference "o_orderkey, o_totalprice" "samples.tpch.orders".
Proof.
  destruct (proj1 (detail_reference_is_runnable samples_orders "orders"
                     "samples" "tpch" [Some 1; None] init orders_table
                     ltac:(discriminate) ltac:(discriminate)
                     eq_refl eq_refl))
    as (d & H1 & H2 & _).
  - cbn. intros c [<-|[<-|[]]]; discriminate.
  - exists d. split; [exact H1 | exact H2].
Defined.


(** ** The client across callbacks *)

Lemma kept_refl (p : Proc) : kept p p.
Proof. intros _. split; reflexivity. Qed.

Lemma kept_trans (p1 p2 p3 : Proc) : kept p1 p2 -> kept p2 p3 -> kept p1 p3.
Proof.
  intros H12 H23 H1. destruct (H12 H1) as [A B].
  destruct H23 as [C D]; [congruence|]. split; congruence.
Qed.

Lemma keeps_ret {A} (a : A) : keeps (ret a).
Proof. intros p. apply kept_refl. Qed.

Lemma keeps_raise {A} (e : exn) : keeps (@raise Proc A e).
Proof. intros p. apply kept_refl. Qed.

Lemma keeps_lift {A} (r : result A) : keeps (lift r).
Proof. intros p. apply kept_refl. Qed.

Lemma keeps_bind {A B} (m : M Proc A) (k : A -> M Proc B) :
  keeps m -> (forall a, keeps (k a)) -> keeps (bind m k).
Proof.
  intros Hm Hk p. unfold bind. specialize (Hm p).
  destruct (m p) as [[a|e] p1]; cbn in *.
  - eapply kept_trans; [exact Hm | apply Hk].
  - exact Hm.
Qed.

Lemma keeps_try {A} (m : M Proc A) (h : exn -> M Proc A) :
  keeps m -> (forall e, keeps (h e)) -> keeps (try_except m h).
Proof.
  intros Hm Hh p. unfold try_except. specialize (Hm p).
  destruct (m p) as [[a|e] p1]; cbn in *.
  - exact Hm.
  - eapply kept_trans; [exact Hm | apply Hh].
Qed.

Lemma keeps_client (w : World) : keeps (_client w).
Proof.
  intros p H. rewrite (CatalogFacts.client_hit w p H). split; reflexivity.
Qed.

Lemma keeps_join_names (parts : list (option string)) :
  keeps (@join_names Proc parts).
Proof.
  induction parts as [|[s|] rest IH]; cbn.
  - apply keeps_ret.
  - apply keeps_bind; [exact IH | intros l; apply keeps_ret].
  - apply keeps_raise.
Qed.

Ltac keeps_step :=
  first
    [ apply keeps_ret | apply keeps_raise | apply keeps_lift
    | apply keeps_client | apply keeps_join_names
    | apply keeps_bind; [|intros ?]
    | apply keeps_try; [|intros ?]
    | match goal with
      | |- keeps (if ?b then _ else _) => destruct b
      | |- keeps (match ?x with _ => _ end) => destruct x
      end ].

Lemma keeps_load_schemas (w : World) (ctx : callback_context)
  (n_clicks : list (option nat)) : keeps (load_schemas w ctx n_clicks).
Proof.
  unfold load_schemas, load_schemas_try, index_of. repeat keeps_step.
Qed.

Lemma keeps_load_tables (w : World) (ctx : callback_context)
  (n_clicks : list (option nat)) (catalog : option string) :
  keeps (load_tables w ctx n_clicks catalog).
Proof.
  unfold load_tables, load_tables_try, index_of. repeat keeps_step.
Qed.

Lemma keeps_show_detail (w : World) (ctx : callback_context)
  (n_clicks : list (option nat)) (catalog schema : option string) :
  keeps (show_detail w ctx n_clicks catalog schema).
Proof.
  unfold show_detail, show_detail_try, index_of. cbv zeta.
  repeat keeps_step.
Qed.

Lemma keeps_run_show_detail (w : World) (ctx : list component_id)
  (table_clicks : list (option nat)) (pg : Page) :
  keeps (run_show_detail w ctx table_clicks pg).
Proof.
  unfold run_show_detail.
  apply keeps_bind; [apply keeps_show_detail | intros d; apply keeps_ret].
Qed.

Lemma keeps_run_load_tables (r : Renderer) (w : World)
  (ctx : list component_id) (schema_clicks table_clicks : list (option nat))
  (earlier : list component_id) (pg : Page) :
  keeps (run_load_tables r w ctx schema_clicks table_clicks earlier pg).
Proof.
  unfold run_load_tables.
  apply keeps_bind; [apply keeps_load_tables | intros outs].
  cbv zeta.
  destruct (arrange (detail_order r) (inserted (fst outs))
              (changed "store-schema" (snd outs) ++ earlier));
    [apply keeps_ret | apply keeps_run_show_detail].
Qed.

Lemma keeps_run_load_schemas (r : Renderer) (w : World)
  (ctx : list component_id)
  (cat_clicks schema_clicks table_clicks : list (option nat)) (pg : Page) :
  keeps (run_load_schemas r w ctx cat_clicks schema_clicks table_clicks pg).
Proof.
  unfold run_load_schemas.
  apply keeps_bind; [apply keeps_load_schemas | intros outs].
  cbv zeta.
  destruct (arrange (tables_order r) (inserted (fst outs))
              (changed "store-catalog" (snd outs)));
    [apply keeps_ret | apply keeps_run_load_tables].
Qed.

Lemma keeps_act (r : Renderer) (w : World) (a : action) (pg : Page) :
  keeps (act r w a pg).
Proof.
  destruct a; cbn [act].
  - unfold mount.
    apply keeps_bind;
      [unfold load_catalogs, load_catalogs_try; repeat keeps_step|].
    intros cats. cbv zeta.
    destruct (inserted (Update cats));
      [apply keeps_ret | apply keeps_run_load_schemas].
  - apply keeps_run_load_schemas.
  - apply keeps_run_load_tables.
  - apply keeps_run_show_detail.
Qed.

(** ** Sessions *)

Lemma inserted_head (o : out component) (x : component_id)
  (l : list component_id) :
  inserted o = x :: l -> forall s, x <> IdStr s.
Proof.
  unfold inserted. destruct o as [|c]; [discriminate|].
  destruct (item_ids c) as [|ti tis]; cbn; [discriminate|].
  intros H s. inversion H. discriminate.
Qed.

Lemma run_load_schemas_frame (r : Renderer) (w : World)
  (ctx : list component_id)
  (cat_clicks schema_clicks table_clicks : list (option nat))
  (pg : Page) (p : Proc) :
  (forall s, hd_error ctx <> Some (IdStr s)) ->
  exists pg' p',
    run_load_schemas r w ctx cat_clicks schema_clicks table_clicks pg p =
      (Ok pg', p') /\
    cat_list pg' = cat_list pg /\
    store_table pg' = store_table pg /\
    (schema_under_catalog pg -> schema_under_catalog pg').
Proof.
  intros Hctx. unfold run_load_schemas, bind, schema_under_catalog.
  destruct (ViewFacts.load_schemas_never_raises w (mkCtx ctx) cat_clicks
              Hctx p) as ([o1 o2] & p1 & E).
  rewrite E. cbn [fst snd].
  assert (C : store_catalog pg <> None -> set o2 (store_catalog pg) <> None).
  { destruct o2; cbn; [tauto | discriminate]. }
  destruct (arrange (tables_order r) (inserted o1)
              (changed "store-catalog" o2)) as [|x ctx'].
  - do 2 eexists. split; [reflexivity|]. cbn. repeat split. tauto.
  - match goal with
    | |- context [run_load_tables r w ?c ?sc ?tc ?e ?g p1] =>
        destruct (SelectionFacts.run_load_tables_frame r w c sc tc e g p1)
          as (pg' & p' & R & F1 & F2 & F3 & F4 & F5)
    end.
    exists pg', p'. split; [exact R|]. cbn in F1, F2, F3, F4, F5.
    split; [exact F1|]. split; [exact F4|].
    rewrite F3. intros [H|H].
    + destruct F5 as [F5|F5]; [left; congruence | right; exact F5].
    + right. auto.
Qed.

Lemma act_page (r : Renderer) (w : World) (a : action) (pg : Page)
  (p : Proc) :
  exists pg' p',
    act r w a pg p = (Ok pg', p') /\
    store_table pg' = store_table pg /\
    (schema_under_catalog pg -> schema_under_catalog pg') /\
    (a <> Mount -> cat_list pg' = cat_list pg).
Proof.
  destruct a as [|cat cc sc tc|schema sc tc|table tc]; cbn [act].
  - unfold mount, load_catalogs, bind.
    destruct (ViewFacts.guarded_never_raises (load_catalogs_try w)
                (fun e => error_alert (exn_msg e)) p) as (c & p1 & H).
    rewrite H.
    destruct (inserted (Update c)) as [|x items] eqn:I.
    + do 2 eexists. split; [reflexivity|]. cbn.
      repeat split; [tauto | congruence].
    + match goal with
      | |- context [run_load_schemas r w ?c ?cc ?sc ?tc ?g p1] =>
          destruct (run_load_schemas_frame r w c cc sc tc g p1)
            as (pg' & p' & R & F1 & F2 & F3)
      end.
      { intros s. cbn. intros E. inversion E.
        exact (inserted_head _ _ _ I s H1). }
      exists pg', p'. split; [exact R|]. cbn in F2.
      split; [exact F2|]. split; [exact F3 | congruence].
  - unfold click_catalog.
    destruct (run_load_schemas_frame r w [IdDict "cat-item" cat] cc sc tc
                pg p) as (pg' & p' & R & F1 & F2 & F3);
      [intros s; discriminate|].
    exists pg', p'. auto.
  - unfold click_schema.
    destruct (SelectionFacts.run_load_tables_frame r w
                [IdDict "schema-item" schema] sc tc [] pg p)
      as (pg' & p' & R & F1 & F2 & F3 & F4 & F5).
    exists pg', p'. split; [exact R|]. split; [exact F4|].
    split; [|auto]. unfold schema_under_catalog. rewrite F3.
    intros [H|H]; [|right; exact H].
    destruct F5 as [F5|F5]; [left; congruence | right; exact F5].
  - unfold click_table.
    destruct (SelectionFacts.run_show_detail_frame w
                [IdDict "table-item" table] tc pg p)
      as (pg' & p' & R & F1 & F2 & F3 & F4 & F5 & F6).
    exists pg', p'. split; [exact R|]. split; [exact F6|].
    split; [|auto]. unfold schema_under_catalog. rewrite F4, F5. tauto.
Qed.

(** Whatever the user does on the catalog page, in whatever order, however
    the renderer orders the contexts and however the catalog service
    answers each time: no callback lets an exception out; the [store-table]
    slot is never written; once a schema is selected a catalog is selected
    too; the catalog list changes only when the page is mounted; and a
    client that was built once is the one used to the end,
    [WorkspaceClient] not being called again. *)
Theorem browsing_session_invariants
  (steps : list (Renderer * World * action)) (pg : Page) (p : Proc) :
  exists pg' p',
    session steps pg p = (Ok pg', p') /\
    store_table pg' = store_table pg /\
    (schema_under_catalog pg -> schema_under_catalog pg') /\
    (Forall (fun wa => snd wa <> Mount) steps ->
     cat_list pg' = cat_list pg) /\
    kept p p'.
Proof.
  revert pg p. induction steps as [|[[r w] a] rest IH]; intros pg p.
  - exists pg, p. cbn. repeat split; auto.
  - cbn [session]. unfold bind.
    destruct (act_page r w a pg p) as (pg1 & p1 & H1 & T1 & S1 & C1).
    pose proof (keeps_act r w a pg p) as K1. rewrite H1 in *. cbn in K1.
    destruct (IH pg1 p1) as (pg2 & p2 & H2 & T2 & S2 & C2 & K2).
    exists pg2, p2. split; [exact H2|].
    split; [congruence|]. split; [tauto|]. split.
    + intros F. inversion F as [|x l Hx Hl]; subst. cbn in Hx.
      rewrite (C2 Hl). apply C1. exact Hx.
    + eapply kept_trans; eassumption.
Qed.

Lemma browsing_session_invariants_witness :
  exists pg' p',
    session
      [(items_first, two_catalogs, Mount);
       (items_first, two_catalogs,
        ClickCatalog "samples" [Some 1; None] [None; None] [None]);
       (stores_first, locked_catalogs,
        ClickSchema "tpch" [None; Some 1] [None]);
       (items_then_stores, samples_orders,
        ClickSchema "tpch" [None; Some 2] [None; None]);
       (items_first, samples_orders,
        ClickTable "orders" [Some 1; None])]
      initial_page init = (Ok pg', p') /\
    store_table pg' = None /\
    schema_under_catalog pg'.
Proof.
  destruct (browsing_session_invariants
              [(items_first, two_catalogs, Mount);
               (items_first, two_catalogs,
                ClickCatalog "samples" [Some 1; None] [None; None] [None]);
               (stores_first, locked_catalogs,
                ClickSchema "tpch" [None; Some 1] [None]);
               (items_then_stores, samples_orders,
                ClickSchema "tpch" [None; Some 2] [None; None]);
               (items_first, samples_orders,
                ClickTable "orders" [Some 1; None])]
              initial_page init) as (pg' & p' & H1 & H2 & H3 & _).
  exists pg', p'. split; [exact H1|]. split; [exact H2|].
  apply H3. left. reflexivity.
Defined.

(** ** A table click after a click on a catalog without schemas *)

Lemma show_detail_try_ext (w1 w2 : World) (full_name : string) (p : Proc) :
  LruCache.slot p <> None ->
  tables_get w1 full_name = tables_get w2 full_name ->
  show_detail_try w1 full_name p = show_detail_try w2 full_name p.
Proof.
  intros Hs Hg. unfold show_detail_try, bind, lift.
  rewrite (CatalogFacts.client_hit w1 p Hs), (CatalogFacts.client_hit w2 p Hs),
    Hg.
  reflexivity.
Qed.

(** A click on a catalog whose listing names no schema inserts no item:
    the callbacks that follow run on the change of the catalog slot alone,
    whatever the order of the renderer, and leave the table list, the
    detail pane and the selected schema on the page, next to the new
    catalog. A click on a table of that list then asks the catalog service
    for the table of that name under the new catalog and the old schema,
    and for nothing else: its outcome depends on the answer for that one
    name only, and a failure for that name is what the detail pane shows. *)
Theorem table_click_after_catalog_change (r : Renderer) (w : World)
  (cat old table : string) (cc sc tc tc' : list (option nat)) (pg : Page)
  (p : Proc) (listing : list (option string)) :
  any cc = true ->
  cat <> "" -> old <> "" ->
  store_schema pg = Some old ->
  fst (_client w p) = Ok tt ->
  schemas_list w cat = Ok listing ->
  names listing = [] ->
  exists pg1 p1,
    click_catalog r w cat cc sc tc pg p = (Ok pg1, p1) /\
    table_list pg1 = table_list pg /\
    table_detail pg1 = table_detail pg /\
    store_catalog pg1 = Some cat /\
    store_schema pg1 = Some old /\
    (forall w1 w2,
       tables_get w1 (cat ++ "." ++ old ++ "." ++ table) =
         tables_get w2 (cat ++ "." ++ old ++ "." ++ table) ->
       click_table w1 table tc' pg1 p1 = click_table w2 table tc' pg1 p1) /\
    (forall w' e,
       tables_get w' (cat ++ "." ++ old ++ "." ++ table) = Raise e ->
       exists pg2 p2,
         click_table w' table tc' pg1 p1 = (Ok pg2, p2) /\
         table_detail pg2 = Some (error_alert (exn_msg e))).
Proof.
  intros Hc Hcat Hold Hs Hcl Hl Hn.
  unfold click_catalog, run_load_schemas, bind.
  rewrite (CatalogFacts.load_schemas_click w cat cc p Hc).
  pose proof (CatalogFacts.load_schemas_try_listing w cat p listing Hcl Hl)
    as L.
  assert (P1 : snd (load_schemas_try w cat p) = snd (_client w p)).
  { unfold load_schemas_try, bind, lift, ret.
    destruct (_client w p) as [[[]|e] p1]; [|reflexivity].
    rewrite Hl. reflexivity. }
  pose proof (CatalogFacts.client_ok_slot w p Hcl) as Slot.
  rewrite <- P1 in Slot.
  destruct (load_schemas_try w cat p) as [[o|e] p1]; cbn in L, Slot;
    [|discriminate L].
  inversion L; subst o. clear L.
  cbn [fst snd inserted changed set].
  rewrite CatalogFacts.item_ids_list_group, Hn. cbn [map].
  replace (arrange (tables_order r) [] [IdStr "store-catalog"])
    with [IdStr "store-catalog"] by (destruct (tables_order r); reflexivity).
  match goal with
  | |- context [run_load_tables r w ?c ?s ?t ?e ?g p1] =>
      destruct (SelectionFacts.run_load_tables_store r w "store-catalog"
                  s t e g p1)
        as (pg1 & R & F1 & F2 & F3 & F4 & F5 & F6 & F7)
  end.
  { intros x [<-|[]]. eauto. }
  exists pg1, p1. split; [exact R|]. cbn in F3, F4, F5, F6.
  split; [exact F3|]. split; [exact F4|]. split; [exact F5|].
  split; [congruence|]. split.
  - intros w1 w2 Hg. unfold click_table, run_show_detail, bind.
    rewrite F5, F6, Hs.
    rewrite !(show_detail_on_click _ table cat old tc' p1 Hcat Hold).
    unfold try_except.
    rewrite (show_detail_try_ext w1 w2 _ p1 Slot Hg). reflexivity.
  - intros w' e Hg. unfold click_table, run_show_detail, bind.
    rewrite F5, F6, Hs.
    rewrite (show_detail_on_click _ table cat old tc' p1 Hcat Hold).
    unfold try_except, show_detail_try, bind, lift.
    rewrite (CatalogFacts.client_hit w' p1 Slot), Hg. unfold ret.
    do 2 eexists. split; reflexivity.
Qed.

Lemma table_click_after_catalog_change_witness :
  exists pg1 p1 pg2 p2,
    click_catalog items_first bare_catalog "main" [Some 1; None] [None; None]
      [None; None] browsing_tpch init = (Ok pg1, p1) /\
    table_list pg1 = Some (list_group "table-item" ["orders"; "customer"]) /\
    store_schema pg1 = Some "tpch" /\
    click_table samples_orders "orders" [Some 1; None] pg1 p1 = (Ok pg2, p2) /\
    table_detail pg2 = Some (error_alert "TABLE_OR_VIEW_NOT_FOUND").
Proof.
  destruct (table_click_after_catalog_change items_first bare_catalog "main"
              "tpch" "orders" [Some 1; None] [None; None] [None; None]
              [Some 1; None] browsing_tpch init
              [None] eq_refl ltac:(discriminate)
              ltac:(discriminate) eq_refl eq_refl eq_refl eq_refl)
    as (pg1 & p1 & H1 & H2 & _ & _ & H5 & _ & H7).
  destruct (H7 samples_orders not_found eq_refl) as (pg2 & p2 & H8 & H9).
  exists pg1, p1, pg2, p2. repeat split; assumption.
Defined.

End BrowsingFacts.

(* ================================================================== *)
(** * Further properties of pages/identity.py *)
(* ================================================================== *)

Module AccessFacts.

Import Components Identity Scenarios.

(** ** The delegated lookups *)

Lemma token_is_truthy (token : string) :
  token <> "" -> truthy_str token = true.
Proof. destruct token; [congruence | reflexivity]. Qed.

(** With a delegated token that the workspace does not accept (building
    the client or asking for the current user raises), [load_identity]
    still returns: the cards, a rule, the alert "Could not fetch detailed
    user info: ..." with the message of the exception, a rule and the
    raw-headers pane, and none of the account, group or workspace
    sections. *)
Theorem delegated_lookup_failure (w : World)
  (headers : list (string * string)) (token : string) (e : exn) :
  request_headers w = Ok headers ->
  get headers "X-Forwarded-Access-Token" "" = token ->
  token <> "" ->
  WorkspaceClient w token = Raise e \/
  (WorkspaceClient w token = Ok tt /\ current_user_me w token = Raise e) ->
  load_identity w tt =
    (Ok (cards headers ++
         [error_alert ("Could not fetch detailed user info: " ++ exn_msg e);
          El "html.Hr" [] [];
          raw_headers_pane (raw_headers w)])%list, tt).
Proof.
  intros Hh Ht Hne Hf.
  unfold load_identity, raw_headers, bind, try_except_RuntimeError, lift, ret.
  rewrite Hh, Ht. unfold account_sections.
  rewrite (token_is_truthy token Hne).
  unfold try_except, bind, lift, ret.
  destruct Hf as [H|[H1 H2]].
  - rewrite H. reflexivity.
  - rewrite H1, H2. reflexivity.
Qed.

Lemma delegated_lookup_failure_witness :
  exists pane,
    load_identity expired_request tt =
      (Ok (cards [("X-Forwarded-Email", "ada@example.com")] ++
           [error_alert
              "Could not fetch detailed user info: Invalid access token";
            El "html.Hr" [] []; pane])%list, tt).
Proof.
  eexists.
  exact (delegated_lookup_failure expired_request _ "dapi-old" invalid_token
           eq_refl eq_refl ltac:(discriminate)
           (or_intror (conj eq_refl eq_refl))).
Defined.

(** With an accepted token the workspace section is a heading followed by
    the workspace id and the host, each present exactly when its lookup
    answered: a lookup that raises costs its line and nothing else, and no
    error alert and no warning is rendered. *)
Theorem workspace_lines_are_optional (w : World)
  (headers : list (string * string)) (token : string) (me : User) :
  request_headers w = Ok headers ->
  get headers "X-Forwarded-Access-Token" "" = token ->
  token <> "" ->
  WorkspaceClient w token = Ok tt ->
  current_user_me w token = Ok me ->
  exists sections,
    load_identity w tt = (Ok sections, tt) /\
    after_heading "🏢 Workspace" sections =
      (optional_line "Workspace ID: " (get_workspace_id w token) ++
       optional_line "Host: " (Config_host w token) ++
       [El "html.Hr" [] []; raw_headers_pane (raw_headers w)])%list /\
    existsb (is_alert "danger") sections = false /\
    existsb (is_alert "warning") sections = false.
Proof.
  intros Hh Ht Hne Hc Hm.
  unfold load_identity, raw_headers, bind, try_except_RuntimeError, lift, ret.
  rewrite Hh, Ht. unfold account_sections.
  rewrite (token_is_truthy token Hne).
  unfold try_except, bind, lift, ret. rewrite Hc, Hm.
  unfold optional_line.
  destruct (get_workspace_id w token) as [ws|e1];
    destruct (Config_host w token) as [host|e2];
    (eexists; split; [reflexivity|]);
    destruct (name me); destruct (groups me) as [[|g gs]|];
    repeat split.
Qed.

Lemma workspace_lines_are_optional_witness :
  exists sections,
    load_identity no_workspace_id tt = (Ok sections, tt) /\
    after_heading "🏢 Workspace" sections =
      [El "html.P" []
         [El "html.Strong" [] [Txt "Host: "];
          El "html.Code" [] [Txt "adb-1.azuredatabricks.net"]];
       El "html.Hr" [] [];
       raw_headers_pane (raw_headers no_workspace_id)].
Proof.
  destruct (workspace_lines_are_optional no_workspace_id _ "dapi-0123" ada
              eq_refl eq_refl ltac:(discriminate) eq_refl eq_refl)
    as (sections & H1 & H2 & _).
  exists sections. split; [exact H1 | exact H2].
Defined.

(** ** When the view raises *)

Lemma account_sections_returns (w : World) (token : string)
  (sections : list component) :
  exists s, account_sections w token sections tt = (Ok s, tt).
Proof.
  unfold account_sections. destruct (truthy_str token).
  - match goal with
    | |- context [try_except ?b (fun e => ret (@?h e))] =>
        destruct (ViewFacts.guarded b h tt) as (a & [] & H & _)
    end.
    eauto.
  - eexists. reflexivity.
Qed.

(** [load_identity] lets an exception out in one case only: reading the
    request headers raised something that is not a [RuntimeError]; that
    exception is the one that leaves. Failures of the workspace client are
    all rendered. *)
Theorem identity_view_raises_only_on_headers (w : World) (e : exn) :
  fst (load_identity w tt) = Raise e <->
  request_headers w = Raise e /\ is_RuntimeError e = false.
Proof.
  unfold load_identity, bind, try_except_RuntimeError, lift, ret.
  destruct (request_headers w) as [headers|e0].
  - match goal with
    | |- context [account_sections ?w ?t ?s tt] =>
        destruct (account_sections_returns w t s) as (s1 & ->)
    end.
    cbn. split; [discriminate | intros [H _]; discriminate H].
  - destruct (is_RuntimeError e0) eqn:R.
    + match goal with
      | |- context [account_sections ?w ?t ?s tt] =>
          destruct (account_sections_returns w t s) as (s1 & ->)
      end.
      cbn. split; [discriminate|].
      intros [H1 H2]. inversion H1; subst. congruence.
    + cbn. split.
      * intros H. inversion H; subst. auto.
      * intros [H _]. inversion H; subst. reflexivity.
Qed.

(** A header parsing failure leaves the callback; outside a request the
    view is rendered. *)
Example identity_view_raises :
  fst (load_identity broken_request tt) =
    Raise (mkExn OtherError "header parsing failed") /\
  (forall e, fst (load_identity expired_request tt) <> Raise e).
Proof.
  split; [reflexivity|]. intros e H. vm_compute in H. discriminate H.
Qed.

(** ** What the raw-headers pane lists *)

Lemma dict_set_In_inv (d : list (string * string)) (k v k' v' : string) :
  In (k', v') (dict_set d k v) -> In (k', v') d \/ (k' = k /\ v' = v).
Proof.
  induction d as [|[k0 v0] d IH]; cbn.
  - intros [H|[]]. inversion H. auto.
  - destruct (String.eqb_spec k0 k) as [->|Hne]; cbn.
    + intros [H|H]; [inversion H; auto | auto].
    + intros [H|H]; [auto|]. destruct (IH H); auto.
Qed.

Lemma dict_set_new (d : list (string * string)) (k v : string) :
  In (k, v) (dict_set d k v).
Proof.
  induction d as [|[k0 v0] d IH]; cbn; [auto|].
  destruct (String.eqb_spec k0 k) as [->|Hne]; cbn; auto.
Qed.

Lemma dict_set_other (d : list (string * string)) (k v k' v' : string) :
  k' <> k -> In (k', v') d -> In (k', v') (dict_set d k v).
Proof.
  intros Hne. induction d as [|[k0 v0] d IH]; cbn; [tauto|].
  destruct (String.eqb_spec k0 k) as [->|Hk]; cbn.
  - intros [H|H]; [inversion H; congruence | auto].
  - intros [H|H]; auto.
Qed.

Lemma dict_set_keys_In (d : list (string * string)) (k v k' : string) :
  In k' (map fst (dict_set d k v)) <-> In k' (map fst d) \/ k' = k.
Proof.
  induction d as [|[k0 v0] d IH]; cbn.
  - intuition congruence.
  - destruct (String.eqb_spec k0 k) as [->|Hk]; cbn.
    + intuition congruence.
    + rewrite IH. tauto.
Qed.

Lemma dict_set_NoDup (d : list (string * string)) (k v : string) :
  NoDup (map fst d) -> NoDup (map fst (dict_set d k v)).
Proof.
  induction d as [|[k0 v0] d IH]; cbn; intros H.
  - constructor; [tauto | constructor].
  - inversion H as [|x l Hx Hl]; subst.
    destruct (String.eqb_spec k0 k) as [->|Hk]; cbn.
    + constructor; assumption.
    + constructor; [|auto]. rewrite dict_set_keys_In.
      intros [H1|H1]; [tauto | congruence].
Qed.

(** One step of the dictionary comprehension. *)
Lemma fold_sound (hs acc : list (string * string)) (k v : string) :
  In (k, v)
    (fold_left
       (fun d kv =>
          if is_safe (fst kv) then dict_set d (fst kv) (snd kv) else d)
       hs acc) ->
  In (k, v) acc \/ (In (k, v) hs /\ is_safe k = true).
Proof.
  revert acc. induction hs as [|[k0 v0] hs IH]; cbn; intros acc H; [auto|].
  destruct (IH _ H) as [H1|[H1 H2]]; [|auto].
  destruct (is_safe k0) eqn:S0; [|auto].
  destruct (dict_set_In_inv _ _ _ _ _ H1) as [H2|[-> ->]]; auto.
Qed.

Lemma fold_keeps (hs acc : list (string * string)) (k v : string) :
  ~ In k (map fst hs) -> In (k, v) acc ->
  In (k, v)
    (fold_left
       (fun d kv =>
          if is_safe (fst kv) then dict_set d (fst kv) (snd kv) else d)
       hs acc).
Proof.
  revert acc. induction hs as [|[k0 v0] hs IH]; cbn; intros acc Hn H; [auto|].
  apply IH; [tauto|].
  destruct (is_safe k0); [|exact H].
  apply dict_set_other; [|exact H]. intros ->. tauto.
Qed.

Lemma fold_NoDup (hs acc : list (string * string)) :
  NoDup (map fst acc) ->
  NoDup
    (map fst
       (fold_left
          (fun d kv =>
             if is_safe (fst kv) then dict_set d (fst kv) (snd kv) else d)
          hs acc)).
Proof.
  revert acc. induction hs as [|[k0 v0] hs IH]; cbn; intros acc H; [auto|].
  apply IH. destruct (is_safe k0); [apply dict_set_NoDup|]; exact H.
Qed.

Lemma last_occurrence (l : list (string * string)) (k : string) :
  In k (map fst l) ->
  exists pre v post, l = (pre ++ (k, v) :: post)%list /\
                     ~ In k (map fst post).
Proof.
  induction l as [|[k0 v0] l IH]; cbn; [tauto|]. intros H.
  destruct (in_dec string_dec k (map fst l)) as [Hin|Hout].
  - destruct (IH Hin) as (pre & v & post & -> & Hp).
    exists ((k0, v0) :: pre), v, post. split; [reflexivity | exact Hp].
  - destruct H as [->|H]; [|contradiction].
    exists [], v0, l. split; [reflexivity | exact Hout].
Qed.

(** [sorted] permutes. *)
Lemma insert_sorted_In_iff (x y : string * string)
  (l : list (string * string)) :
  In y (insert_sorted x l) <-> y = x \/ In y l.
Proof.
  induction l as [|z l IH]; cbn; [intuition congruence|].
  destruct (item_leb x z); cbn; [intuition congruence|].
  rewrite IH. tauto.
Qed.

Lemma sorted_In_iff (y : string * string) (l : list (string * string)) :
  In y (sorted l) <-> In y l.
Proof.
  induction l as [|x l IH]; cbn; [tauto|].
  rewrite insert_sorted_In_iff, IH. intuition congruence.
Qed.

(** The order of [sorted]. *)
Lemma ascii_compare_refl (c : ascii) : Ascii.compare c c = Eq.
Proof. unfold Ascii.compare. apply N.compare_refl. Qed.

Lemma compare_refl (s : string) : String.compare s s = Eq.
Proof.
  induction s as [|c s IH]; cbn; [reflexivity|].
  rewrite ascii_compare_refl. exact IH.
Qed.

Lemma compare_lt_trans (a b c : string) :
  String.compare a b = Lt -> String.compare b c = Lt ->
  String.compare a c = Lt.
Proof.
  revert b c. induction a as [|x a IH]; intros [|y b] [|z c]; cbn;
    try congruence.
  destruct (Ascii.compare x y) eqn:Exy; destruct (Ascii.compare y z) eqn:Eyz;
    try congruence; intros H1 H2.
  - apply Ascii.compare_eq_iff in Exy, Eyz. subst.
    rewrite ascii_compare_refl. eapply IH; eassumption.
  - apply Ascii.compare_eq_iff in Exy. subst. rewrite Eyz. reflexivity.
  - apply Ascii.compare_eq_iff in Eyz. subst. rewrite Exy. reflexivity.
  - unfold Ascii.compare in *. rewrite N.compare_lt_iff in *.
    replace (N.compare (N_of_ascii x) (N_of_ascii z)) with Lt; [reflexivity|].
    symmetry. apply N.compare_lt_iff. lia.
Qed.

Lemma leb_trans (a b c : string) :
  String.leb a b = true -> String.leb b c = true -> String.leb a c = true.
Proof.
  unfold String.leb.
  destruct (String.compare a b) eqn:Eab; [| |discriminate];
    destruct (String.compare b c) eqn:Ebc; try discriminate; intros _ _.
  - apply String.compare_eq_iff in Eab, Ebc. subst.
    now rewrite compare_refl.
  - apply String.compare_eq_iff in Eab. subst. now rewrite Ebc.
  - apply String.compare_eq_iff in Ebc. subst. now rewrite Eab.
  - now rewrite (compare_lt_trans a b c Eab Ebc).
Qed.

Lemma item_leb_trans (a b c : string * string) :
  item_leb a b = true -> item_leb b c = true -> item_leb a c = true.
Proof.
  unfold item_leb.
  destruct (String.compare (fst a) (fst b)) eqn:Eab; [| |discriminate];
    destruct (String.compare (fst b) (fst c)) eqn:Ebc; try discriminate.
  - apply String.compare_eq_iff in Eab, Ebc. rewrite Eab, Ebc.
    rewrite compare_refl. apply leb_trans.
  - apply String.compare_eq_iff in Eab. rewrite Eab, Ebc. reflexivity.
  - apply String.compare_eq_iff in Ebc. rewrite <- Ebc, Eab. reflexivity.
  - rewrite (compare_lt_trans _ _ _ Eab Ebc). reflexivity.
Qed.

Lemma item_leb_total (a b : string * string) :
  item_leb a b = false -> item_leb b a = true.
Proof.
  unfold item_leb. rewrite (String.compare_antisym (fst a) (fst b)).
  destruct (String.compare (fst b) (fst a)); cbn; try congruence.
  intros H. destruct (String.leb_total (snd a) (snd b)); congruence.
Qed.

Lemma insert_sorted_sorted (x : string * string)
  (l : list (string * string)) :
  StronglySorted (fun a b => item_leb a b = true) l ->
  StronglySorted (fun a b => item_leb a b = true) (insert_sorted x l).
Proof.
  induction l as [|y l IH]; cbn; intros H.
  - constructor; constructor.
  - inversion H as [|y' l' Hs Hf]; subst.
    destruct (item_leb x y) eqn:E.
    + constructor; [exact H|]. constructor; [exact E|].
      rewrite Forall_forall in *. intros z Hz.
      eapply item_leb_trans; [exact E | auto].
    + constructor; [auto|].
      rewrite Forall_forall in *. intros z Hz.
      apply insert_sorted_In_iff in Hz. destruct Hz as [->|Hz]; [|auto].
      apply item_leb_total. exact E.
Qed.

Lemma sorted_sorted (l : list (string * string)) :
  StronglySorted (fun a b => item_leb a b = true) (sorted l).
Proof.
  induction l as [|x l IH]; cbn; [constructor|].
  apply insert_sorted_sorted. exact IH.
Qed.

Lemma insert_sorted_keys (x : string * string) (l : list (string * string))
  (k : string) :
  In k (map fst (insert_sorted x l)) <-> k = fst x \/ In k (map fst l).
Proof.
  induction l as [|z l IH]; cbn; [intuition congruence|].
  destruct (item_leb x z); cbn; [intuition congruence|].
  rewrite IH. intuition congruence.
Qed.

Lemma insert_sorted_NoDup (x : string * string)
  (l : list (string * string)) :
  ~ In (fst x) (map fst l) -> NoDup (map fst l) ->
  NoDup (map fst (insert_sorted x l)).
Proof.
  induction l as [|z l IH]; cbn; intros Hx H.
  - constructor; [tauto | constructor].
  - destruct (item_leb x z); cbn.
    + constructor; [exact Hx | exact H].
    + inversion H as [|z' l' Hz Hl]; subst.
      constructor; [|apply IH; tauto].
      rewrite insert_sorted_keys. intros [E|E]; [|tauto].
      apply Hx. left. congruence.
Qed.

Lemma sorted_keys (l : list (string * string)) (k : string) :
  In k (map fst (sorted l)) <-> In k (map fst l).
Proof.
  induction l as [|x l IH]; cbn; [tauto|].
  rewrite insert_sorted_keys, IH. intuition congruence.
Qed.

Lemma sorted_NoDup (l : list (string * string)) :
  NoDup (map fst l) -> NoDup (map fst (sorted l)).
Proof.
  induction l as [|x l IH]; cbn; intros H; [constructor|].
  inversion H as [|x' l' Hx Hl]; subst.
  apply insert_sorted_NoDup; [rewrite sorted_keys; exact Hx | auto].
Qed.

Lemma strictly_by_name (l : list (string * string)) :
  StronglySorted (fun a b => item_leb a b = true) l ->
  NoDup (map fst l) ->
  StronglySorted (fun a b => String.compare (fst a) (fst b) = Lt) l.
Proof.
  induction l as [|x l IH]; cbn; intros Hs Hn; [constructor|].
  inversion Hs as [|x' l' Hs' Hf]; subst.
  inversion Hn as [|x' l' Hx Hl]; subst.
  constructor; [auto|].
  rewrite Forall_forall in *. intros z Hz.
  specialize (Hf z Hz). unfold item_leb in Hf.
  destruct (String.compare (fst x) (fst z)) eqn:E;
    [|reflexivity | discriminate].
  apply String.compare_eq_iff in E. exfalso. apply Hx.
  rewrite E. apply in_map. exact Hz.
Qed.

(** Inside a request the raw-headers pane lists headers of the request
    whose names are safe, and every safe header of the request is there
    under its name, once, with the value of its last occurrence; the lines
    are in strictly increasing order of the header names. *)
Theorem raw_headers_listing (w : World) (headers : list (string * string)) :
  request_headers w = Ok headers ->
  (forall k v,
     In (k, v) (raw_headers w) -> In (k, v) headers /\ is_safe k = true) /\
  (forall pre k v post,
     headers = (pre ++ (k, v) :: post)%list ->
     ~ In k (map fst post) ->
     is_safe k = true ->
     In (k, v) (raw_headers w)) /\
  (forall k,
     In k (map fst headers) -> is_safe k = true ->
     In k (map fst (raw_headers w))) /\
  StronglySorted (fun a b => String.compare (fst a) (fst b) = Lt)
    (raw_headers w).
Proof.
  intros Hh. unfold raw_headers. rewrite Hh.
  assert (Last : forall pre k v post,
            headers = (pre ++ (k, v) :: post)%list ->
            ~ In k (map fst post) -> is_safe k = true ->
            In (k, v) (sorted (safe_subset headers))).
  { intros pre k v post -> Hp Hk. rewrite sorted_In_iff.
    unfold safe_subset. rewrite fold_left_app. cbn [fold_left fst snd].
    rewrite Hk. apply fold_keeps; [exact Hp | apply dict_set_new]. }
  split; [|split; [exact Last|split]].
  - intros k v H. rewrite sorted_In_iff in H.
    destruct (fold_sound _ _ _ _ H) as [[]|H1]. exact H1.
  - intros k Hin Hk.
    destruct (last_occurrence headers k Hin) as (pre & v & post & E & Hp).
    apply (in_map fst _ (k, v)). exact (Last pre k v post E Hp Hk).
  - apply strictly_by_name; [apply sorted_sorted|].
    apply sorted_NoDup. apply fold_NoDup. constructor.
Qed.

Lemma raw_headers_listing_witness :
  In ("Accept", "*/*") (raw_headers expired_request) /\
  ~ In ("Accept", "text/html") (raw_headers expired_request) /\
  StronglySorted (fun a b => String.compare (fst a) (fst b) = Lt)
    (raw_headers expired_request).
Proof.
  destruct (raw_headers_listing expired_request _ eq_refl)
    as (H1 & H2 & H3 & H4).
  split; [|split; [|exact H4]].
  - apply (H2 [("X-Forwarded-Access-Token", "dapi-old");
               ("X-Forwarded-Email", "ada@example.com");
               ("Accept", "text/html")] "Accept" "*/*" []);
      [reflexivity | cbn; tauto | reflexivity].
  - vm_compute. intros [H|[H|[]]]; discriminate H.
Defined.


End AccessFacts.

(* ================================================================== *)
(** * Further properties of pages/sales.py and pages/taxi.py *)
(* ================================================================== *)

Module TabFacts.

Import SqlClient Components Scenarios.

(** ** Slider values that are too short *)

Lemma item_short {S} (l : list Z) (i : nat) (s : S) :
  (List.length l <= i)%nat ->
  item l i s = (Raise (mkExn IndexError "list index out of range"), s).
Proof.
  intros H. unfold item.
  rewrite (proj2 (nth_error_None l i) H). reflexivity.
Qed.

Lemma items_short {S A} (l : list Z) (k : Z -> Z -> M S A) (s : S) :
  (List.length l < 2)%nat ->
  (y0 <- item l 0 ;; y1 <- item l 1 ;; k y0 y1) s =
    (Raise (mkExn IndexError "list index out of range"), s).
Proof.
  intros H. destruct l as [|a [|b l]]; cbn in H; [reflexivity | reflexivity | lia].
Qed.

(** A year range with fewer than two entries makes each of the four sales
    callbacks render the alert "list index out of range": the range is read
    inside the [try] block and before the warehouse is asked, so the module
    state is as it was. *)
Theorem short_year_range_is_rendered (w : Sales.World) (years : list Z)
  (status : string) (topn : Z) (p : Proc) :
  (List.length years < 2)%nat ->
  Sales.update_kpis w years status p =
    (Ok (error_alert "list index out of range"), p) /\
  Sales.update_trend w years status p =
    (Ok (error_alert "list index out of range"), p) /\
  Sales.update_region w years status p =
    (Ok (error_alert "list index out of range"), p) /\
  Sales.update_customers w years status topn p =
    (Ok (error_alert "list index out of range"), p).
Proof.
  intros H.
  unfold Sales.update_kpis, Sales.update_trend, Sales.update_region,
    Sales.update_customers, Sales.update_kpis_try, Sales.update_trend_try,
    Sales.update_region_try, Sales.update_customers_try, try_except.
  cbv zeta. rewrite !(items_short years _ p H). repeat split.
Qed.

Lemma short_year_range_is_rendered_witness :
  Sales.update_kpis sales_offline [1995%Z] "ALL" init =
    (Ok (error_alert "list index out of range"), init).
Proof.
  apply (short_year_range_is_rendered sales_offline [1995%Z] "ALL" 10%Z init).
  cbn. lia.
Defined.

Lemma where_short {S} (fare dist : list Z) (s : S) :
  (List.length fare < 2)%nat \/ (List.length dist < 2)%nat ->
  Taxi._where fare dist s =
    (Raise (mkExn IndexError "list index out of range"), s).
Proof.
  intros [H|H]; unfold Taxi._where.
  - apply items_short. exact H.
  - destruct fare as [|f0 [|f1 fare]];
      [reflexivity | reflexivity |].
    unfold bind at 1. cbn [item nth_error ret].
    unfold bind at 1. cbn [item nth_error ret].
    apply items_short. exact H.
Qed.

(** The same on the taxi page, for the fare range and for the distance
    range. *)
Theorem short_taxi_range_is_rendered (w : Taxi.World) (fare dist : list Z)
  (sample : Z) (p : Proc) :
  (List.length fare < 2)%nat \/ (List.length dist < 2)%nat ->
  Taxi.update_kpis w fare dist p =
    (Ok (error_alert "list index out of range"), p) /\
  Taxi.update_distributions w fare dist sample p =
    (Ok (error_alert "list index out of range"), p) /\
  Taxi.update_hourly w fare dist p =
    (Ok (error_alert "list index out of range"), p) /\
  Taxi.update_scatter w fare dist sample p =
    (Ok (error_alert "list index out of range"), p).
Proof.
  intros H.
  unfold Taxi.update_kpis, Taxi.update_distributions, Taxi.update_hourly,
    Taxi.update_scatter, Taxi.update_kpis_try, Taxi.update_distributions_try,
    Taxi.update_hourly_try, Taxi.update_scatter_try, try_except, bind.
  rewrite !(where_short fare dist p H). repeat split.
Qed.

Lemma short_taxi_range_is_rendered_witness :
  Taxi.update_scatter taxi_offline [0%Z; 50%Z] [] 1000%Z init =
    (Ok (error_alert "list index out of range"), init).
Proof.
  apply (short_taxi_range_is_rendered taxi_offline [0%Z; 50%Z] [] 1000%Z init).
  right. cbn. lia.
Defined.

(** ** The sample of the scatter plot *)

(** The scatter plot never asks for more than 5000 rows: a larger sample
    size gives the callback that 5000 gives. *)
Theorem scatter_sample_is_capped (w : Taxi.World) (fare dist : list Z)
  (sample : Z) :
  (5000 <= sample)%Z ->
  Taxi.update_scatter w fare dist sample = Taxi.update_scatter w fare dist 5000.
Proof.
  intros H. unfold Taxi.update_scatter, Taxi.update_scatter_try.
  rewrite (Z.min_r sample 5000 H). reflexivity.
Qed.

Lemma scatter_sample_is_capped_witness :
  Taxi.update_scatter taxi_offline [0%Z; 50%Z] [0%Z; 20%Z] 10000 =
    Taxi.update_scatter taxi_offline [0%Z; 50%Z] [0%Z; 20%Z] 5000.
Proof.
  apply scatter_sample_is_capped. lia.
Defined.

(** ** The status filter *)

Lemma items_two {S A} (a b : Z) (l : list Z) (k : Z -> Z -> M S A) (s : S) :
  (y0 <- item (a :: b :: l) 0 ;; y1 <- item (a :: b :: l) 1 ;; k y0 y1) s =
    k a b s.
Proof. reflexivity. Qed.

Lemma tab_rendered (w : World) (text path : string) (c : Connection)
  (p : Proc) (draw : DataFrame -> result component) :
  LruCache.slot (wh_cache p) = Some (tt, Some path) ->
  path <> "" ->
  LruCache.lookup String.eqb path (conn_cache p) = Some c ->
  fst (try_except (df <- run_query w text ;; lift (draw df))
         (fun e => ret (error_alert (exn_msg e))) p) =
    Sales.rendered (cursor_execute w c text) draw.
Proof.
  intros H1 H2 H3.
  pose proof (WarehouseFacts.run_query_connected w text path c p H1 H2 H3)
    as Q.
  unfold try_except, bind, lift, ret, Sales.rendered.
  destruct (run_query w text p) as [r p1]. cbn [fst] in Q. subst r.
  destruct (cursor_execute w c text) as [df|e]; [|reflexivity].
  destruct (draw df); reflexivity.
Qed.

Lemma contains_refl (x : string) : contains x x = true.
Proof.
  destruct x as [|a x]; [reflexivity|].
  cbn [contains]. rewrite ViewFacts.prefix_refl. reflexivity.
Qed.

Lemma contains_middle (x a b : string) : contains x (a ++ x ++ b) = true.
Proof.
  apply TextFacts.contains_app_r, TextFacts.contains_app_l, contains_refl.
Qed.

Lemma status_filter_text (status : string) :
  status <> "ALL" ->
  Sales._status_filter status =
    ("AND o.o_orderstatus = '" ++ status ++ "'")%string.
Proof.
  intros H. unfold Sales._status_filter.
  destruct (String.eqb_spec status "ALL"); [contradiction | reflexivity].
Qed.

Ltac spliced H1 H2 H3 Hs :=
  eexists; split;
  [ intros w; cbv zeta; unfold try_except; rewrite items_two;
    exact (tab_rendered _ _ _ _ _ _ H1 H2 H3)
  | rewrite (status_filter_text _ Hs);
    do 4 apply TextFacts.contains_app_r; apply contains_middle ].

(** On a process that is connected to a warehouse, each of the four sales
    callbacks sends one statement and shows what comes of the answer. With
    a status other than "ALL" that statement holds the condition
    [AND o.o_orderstatus = '...'] with the status value between the quotes
    exactly as it was received: nothing is escaped. *)
Theorem status_reaches_the_warehouse_as_received (path : string)
  (c : Connection) (p : Proc) (y0 y1 : Z) (rest : list Z) (status : string)
  (topn : Z) :
  LruCache.slot (wh_cache p) = Some (tt, Some path) ->
  path <> "" ->
  LruCache.lookup String.eqb path (conn_cache p) = Some c ->
  status <> "ALL" ->
  let condition := ("AND o.o_orderstatus = '" ++ status ++ "'")%string in
  (exists text,
     (forall w,
        fst (Sales.update_kpis w (y0 :: y1 :: rest) status p) =
          Sales.rendered (cursor_execute (Sales.sql w) c text)
            (Sales.kpis_row w)) /\
     contains condition text = true) /\
  (exists text,
     (forall w,
        fst (Sales.update_trend w (y0 :: y1 :: rest) status p) =
          Sales.rendered (cursor_execute (Sales.sql w) c text)
            (Sales.trend_graph w)) /\
     contains condition text = true) /\
  (exists text,
     (forall w,
        fst (Sales.update_region w (y0 :: y1 :: rest) status p) =
          Sales.rendered (cursor_execute (Sales.sql w) c text)
            (Sales.region_row w)) /\
     contains condition text = true) /\
  (exists text,
     (forall w,
        fst (Sales.update_customers w (y0 :: y1 :: rest) status topn p) =
          Sales.rendered (cursor_execute (Sales.sql w) c text)
            (Sales.customers_div w topn)) /\
     contains condition text = true).
Proof.
  intros H1 H2 H3 Hs condition. subst condition.
  unfold Sales.update_kpis, Sales.update_trend, Sales.update_region,
    Sales.update_customers, Sales.update_kpis_try, Sales.update_trend_try,
    Sales.update_region_try, Sales.update_customers_try.
  split; [|split; [|split]]; spliced H1 H2 H3 Hs.
Qed.


Lemma status_reaches_the_warehouse_as_received_witness :
  exists text,
    (forall w,
       fst (Sales.update_kpis w [1992%Z; 1998%Z] "F' OR '1'='1"
              (snd (run_query (online (Some "abc123") [] 1) "SELECT 1" init)))
       = Sales.rendered (cursor_execute (Sales.sql w) 1 text)
           (Sales.kpis_row w)) /\
    contains "AND o.o_orderstatus = 'F' OR '1'='1'" text = true.
Proof.
  exact (proj1 (status_reaches_the_warehouse_as_received
                  "/sql/1.0/warehouses/abc123" 1
                  (snd (run_query (online (Some "abc123") [] 1) "SELECT 1"
                          init))
                  1992%Z 1998%Z [] "F' OR '1'='1" 10%Z
                  eq_refl ltac:(discriminate) eq_refl ltac:(discriminate))).
Defined.


End TabFacts.

(* ================================================================== *)
(** * Further properties of the warehouse discovery *)
(* ================================================================== *)

Module DiscoveryFacts.

Import SqlClient Scenarios.

(** Discovery reports no warehouse in exactly three situations: the
    workspace client cannot be built; or no override is set and the listing
    fails; or no override is set and the listing is empty. Whenever it
    reports one, the path starts with [/sql/1.0/warehouses/] and ends with
    the override or with the id of a warehouse of the listing. *)
Theorem discovery_outcomes (w : World) :
  (get_warehouse_http_path_wrapped w tt = Ok None <->
   (exists e, WorkspaceClient w = Raise e) \/
   (WorkspaceClient w = Ok tt /\
    truthy_opt_str (getenv_DATABRICKS_WAREHOUSE_ID w) = false /\
    ((exists e, warehouses_list w = Raise e) \/ warehouses_list w = Ok []))) /\
  (forall path,
     get_warehouse_http_path_wrapped w tt = Ok (Some path) ->
     String.prefix "/sql/1.0/warehouses/" path = true /\
     ((exists wid,
         getenv_DATABRICKS_WAREHOUSE_ID w = Some wid /\ wid <> "" /\
         path = ("/sql/1.0/warehouses/" ++ wid)%string) \/
      (truthy_opt_str (getenv_DATABRICKS_WAREHOUSE_ID w) = false /\
       exists whs wh,
         warehouses_list w = Ok whs /\ In wh whs /\
         path = http_path_of (id wh)))).
Proof.
  destruct (WorkspaceClient w) as [[]|e0] eqn:Hc.
  - destruct (truthy_opt_str (getenv_DATABRICKS_WAREHOUSE_ID w)) eqn:T.
    + rewrite (SqlClientFacts.discovery_override w Hc T). split.
      * split; [discriminate|].
        intros [[e H]|(_ & H & _)]; discriminate H.
      * intros path H. inversion H; subst path. clear H.
        split; [apply TextFacts.prefix_app_l; reflexivity|].
        left. destruct (getenv_DATABRICKS_WAREHOUSE_ID w) as [wid|];
          [|discriminate T].
        exists wid. split; [reflexivity|]. split; [|reflexivity].
        intros ->. discriminate T.
    + destruct (warehouses_list w) as [whs|e1] eqn:L.
      * rewrite (SqlClientFacts.discovery_listing w whs Hc T L). split.
        -- split.
           ++ intros H. right. split; [reflexivity|]. split; [reflexivity|].
              right. destruct whs as [|wh whs]; [reflexivity|].
              destruct (find is_serverless (wh :: whs));
                [discriminate H|].
              destruct (find is_running (wh :: whs)); discriminate H.
           ++ intros [[e H]|(_ & _ & [[e H]|H])]; try discriminate H.
              inversion H; subst whs. reflexivity.
        -- intros path H.
           assert (G : exists wh, In wh whs /\ path = http_path_of (id wh)).
           { destruct (find is_serverless whs) as [wh|] eqn:F1.
             - apply find_some in F1. exists wh. inversion H. tauto.
             - destruct (find is_running whs) as [wh|] eqn:F2.
               + apply find_some in F2. exists wh. inversion H. tauto.
               + destruct whs as [|wh whs]; [discriminate H|].
                 exists wh. inversion H. split; [now left | reflexivity]. }
           destruct G as (wh & Hin & ->).
           split; [apply TextFacts.prefix_app_l; reflexivity|].
           right. split; [reflexivity|]. exists whs, wh. auto.
      * rewrite (SqlClientFacts.discovery_listing_fails w e1 Hc T L). split.
        -- split; [|reflexivity]. intros _. right. eauto 6.
        -- intros path H. discriminate H.
  - rewrite (SqlClientFacts.discovery_client_fails w e0 Hc). split.
    + split; [|reflexivity]. intros _. left. eauto.
    + intros path H. discriminate H.
Qed.

(** A warehouse that reports no id is still chosen. *)
Example warehouse_without_id :
  get_warehouse_http_path_wrapped
    (online None [ {| id := None; enable_serverless_compute := None;
                      state := None |} ] 1) tt =
    Ok (Some "/sql/1.0/warehouses/None").
Proof. reflexivity. Qed.


End DiscoveryFacts.
